(** * u2oobCaption: the chat assistant's completion client, HTTP endpoints
      and conversation store, embedded from the TypeScript sources.

    Sources embedded here
    - [lib/ai/chain.ts]: [extractTokenUsage], [generateCompletionWithTokens]
      (module [Chain]; an earlier revision of both is in [ChainEarlier]);
    - [app/api/ai/chat/route.ts] and [app/api/ai/stream/route.ts]: [POST];
    - [convex/chat.ts]: [saveMessage], [getConversationMessages],
      [getUserConversations], [deleteConversation], [getUserChatStats],
      [generateTitle], [generateConversationTitle],
      [regenerateConversationTitle].

    Modelling conventions
    - a JavaScript value of type [any] is a [jsval]; numbers are integers
      ([Z]), objects are association lists in property order;
    - strings are sequences of 8-bit characters; [toLowerCase] and [trim]
      act on the ASCII range;
    - effects (clock, outbound calls, thrown errors, the document table)
      are threaded explicitly through small state-and-error monads. *)

From Stdlib Require Import ZArith List Bool Ascii String DecimalString Lia.
From Stdlib Require Import Sorting.Sorted Sorting.Permutation.
From Stdlib Require QArith.
Import ListNotations.

Open Scope string_scope.
Open Scope Z_scope.

(* ================================================================== *)
(** * JavaScript values and string primitives *)
(* ================================================================== *)

Module JS.

#[local] Set Warnings "-register-all".

Inductive jsval : Type :=
| JUndefined
| JNull
| JBool (b : bool)
| JNum (n : Z)
| JNaN
| JStr (s : string)
| JArr (items : list jsval)
| JObj (fields : list (string * jsval)).

(** ToBoolean *)
Definition truthy (v : jsval) : bool :=
  match v with
  | JUndefined | JNull | JNaN => false
  | JBool b => b
  | JNum n => negb (n =? 0)
  | JStr s => negb (s =? "")%string
  | JArr _ | JObj _ => true
  end.

Definition nullish (v : jsval) : bool :=
  match v with
  | JUndefined | JNull => true
  | _ => false
  end.

(** [a || b] on values *)
Definition js_or (a b : jsval) : jsval := if truthy a then a else b.

(** ToString *)
Fixpoint toStr (v : jsval) : string :=
  match v with
  | JUndefined => "undefined"
  | JNull => "null"
  | JBool b => if b then "true" else "false"
  | JNum n => NilZero.string_of_int (Z.to_int n)
  | JNaN => "NaN"
  | JStr s => s
  | JArr items =>
      String.concat ","
        (map (fun x => match x with
                       | JUndefined | JNull => EmptyString
                       | _ => toStr x
                       end) items)
  | JObj _ => "[object Object]"
  end.

(** ToPrimitive: arrays and plain objects become their strings. *)
Definition toPrimitive (v : jsval) : jsval :=
  match v with
  | JArr _ | JObj _ => JStr (toStr v)
  | _ => v
  end.

(** ToNumber on a primitive that is not a string; [None] is NaN. *)
Definition toNumber (v : jsval) : option Z :=
  match v with
  | JNull => Some 0
  | JBool b => Some (if b then 1 else 0)
  | JNum n => Some n
  | _ => None
  end.

(** [a + b] *)
Definition js_add (a b : jsval) : jsval :=
  match toPrimitive a, toPrimitive b with
  | JStr s, pb => JStr (s ++ toStr pb)
  | pa, JStr s => JStr (toStr pa ++ s)
  | pa, pb =>
      match toNumber pa, toNumber pb with
      | Some x, Some y => JNum (x + y)
      | _, _ => JNaN
      end
  end.

Fixpoint assoc (k : string) (fields : list (string * jsval)) : jsval :=
  match fields with
  | [] => JUndefined
  | (k', v) :: rest => if (k =? k')%string then v else assoc k rest
  end.

(** [v.k] for a [v] that is not nullish: the data properties of a plain
    object.  The [length] and the indices of strings and arrays are left
    out; the code reads none of them, except [text.length], whose value
    is only logged. *)
Definition get (v : jsval) (k : string) : jsval :=
  match v with
  | JObj fields => assoc k fields
  | _ => JUndefined
  end.

(** [v?.k] *)
Definition opt_get (v : jsval) (k : string) : jsval :=
  if nullish v then JUndefined else get v k.

(** [typeof v === "object" && v] as a condition *)
Definition is_object (v : jsval) : bool :=
  match v with
  | JArr _ | JObj _ => true
  | _ => false
  end.

(** ** Strings *)

(** [s.includes(k)] *)
Fixpoint includes (s k : string) : bool :=
  if String.prefix k s then true
  else match s with
       | EmptyString => false
       | String _ s' => includes s' k
       end.

Definition is_upper (c : ascii) : bool :=
  let n := nat_of_ascii c in (65 <=? n)%nat && (n <=? 90)%nat.

Definition is_lower (c : ascii) : bool :=
  let n := nat_of_ascii c in (97 <=? n)%nat && (n <=? 122)%nat.

Definition lower_char (c : ascii) : ascii :=
  if is_upper c then ascii_of_nat (nat_of_ascii c + 32) else c.

Definition upper_char (c : ascii) : ascii :=
  if is_lower c then ascii_of_nat (nat_of_ascii c - 32) else c.

Fixpoint toLowerCase (s : string) : string :=
  match s with
  | EmptyString => EmptyString
  | String c s' => String (lower_char c) (toLowerCase s')
  end.

(** [s.toUpperCase()] for strings of ASCII characters.  The code calls
    it on one kind of value only, the first character of a keyword of
    [generateTitle], a letter [a]-[z].  On other characters JavaScript
    differs (a sharp s becomes SS), so nothing below applies it to a
    string that is not one of those. *)
Fixpoint toUpperCase (s : string) : string :=
  match s with
  | EmptyString => EmptyString
  | String c s' => String (upper_char c) (toUpperCase s')
  end.

(** [s.charAt(0)] and [s.slice(1)] *)
Definition charAt0 (s : string) : string :=
  match s with
  | EmptyString => EmptyString
  | String c _ => String c EmptyString
  end.

Definition slice1 (s : string) : string :=
  match s with
  | EmptyString => EmptyString
  | String _ s' => s'
  end.

(** White space removed by [trim]: TAB, LF, VT, FF, CR and SPACE. *)
Definition is_space (c : ascii) : bool :=
  let n := nat_of_ascii c in
  ((9 <=? n)%nat && (n <=? 13)%nat) || (n =? 32)%nat.

Fixpoint trimStart (s : string) : string :=
  match s with
  | EmptyString => EmptyString
  | String c s' => if is_space c then trimStart s' else s
  end.

Fixpoint trimEnd (s : string) : string :=
  match s with
  | EmptyString => EmptyString
  | String c s' =>
      match trimEnd s' with
      | EmptyString => if is_space c then EmptyString else String c EmptyString
      | r => String c r
      end
  end.

Definition trim (s : string) : string := trimEnd (trimStart s).

(** [s.substring(0, n)] *)
Definition substring0 (n : nat) (s : string) : string := String.substring 0 n s.

(** [s.replace(/[.!?]$/, "")]: one trailing [.], [!] or [?] is removed. *)
Definition is_final_punct (c : ascii) : bool :=
  (c =? ".")%char || (c =? "!")%char || (c =? "?")%char.

Fixpoint strip_final_punct (s : string) : string :=
  match s with
  | EmptyString => EmptyString
  | String c EmptyString => if is_final_punct c then EmptyString else s
  | String c s' => String c (strip_final_punct s')
  end.

End JS.

(* ================================================================== *)
(** * lib/ai/chain.ts: the completion client *)
(* ================================================================== *)

Module Chain.
Import JS.

Module Usage.
Record t : Type := {
  inputTokens : jsval;
  outputTokens : jsval;
  totalTokens : jsval
}.
End Usage.

(** [Object.entries(v)] as far as the scan below can tell: an array's keys
    are its indices, which never contain ["token"]. *)
Definition entries (v : jsval) : list (string * jsval) :=
  match v with
  | JObj fields => fields
  | _ => []
  end.

(** The callback pattern, read at [response_metadata.tokenUsage] and at
    [llmOutput.tokenUsage]. *)
Definition fromTokenUsage (tokenUsage : jsval) : Usage.t :=
  {| Usage.inputTokens :=
       js_or (js_or (get tokenUsage "promptTokens") (get tokenUsage "inputTokens")) (JNum 0);
     Usage.outputTokens :=
       js_or (js_or (get tokenUsage "completionTokens") (get tokenUsage "outputTokens"))
             (JNum 0);
     Usage.totalTokens := js_or (get tokenUsage "totalTokens") (JNum 0) |}.

Definition zeroUsage : Usage.t :=
  {| Usage.inputTokens := JNum 0; Usage.outputTokens := JNum 0;
     Usage.totalTokens := JNum 0 |}.

(** A [return] inside a block ends the function; [None] stands for
    falling out of the block. *)
Definition extractTokenUsage (response : jsval) : Usage.t :=
  (* Primary method: response_metadata *)
  let responseMetadata := opt_get response "response_metadata" in
  match
    (if truthy responseMetadata then
       let usageMetadata := get responseMetadata "usage_metadata" in
       if truthy usageMetadata then
         Some {| Usage.inputTokens := js_or (get usageMetadata "input_tokens") (JNum 0);
                 Usage.outputTokens := js_or (get usageMetadata "output_tokens") (JNum 0);
                 Usage.totalTokens := js_or (get usageMetadata "total_tokens") (JNum 0) |}
       else
         let tokenUsage := get responseMetadata "tokenUsage" in
         if truthy tokenUsage then Some (fromTokenUsage tokenUsage) else None
     else None)
  with
  | Some returned => returned
  | None =>
  (* Secondary method: llmOutput.tokenUsage *)
  let llmOutput := opt_get response "llmOutput" in
  match
    (if truthy llmOutput then
       let tokenUsage := get llmOutput "tokenUsage" in
       if truthy tokenUsage then Some (fromTokenUsage tokenUsage) else None
     else None)
  with
  | Some returned => returned
  | None =>
  (* Tertiary method: direct usage object *)
  let directUsage := opt_get response "usage" in
  if truthy directUsage then
    {| Usage.inputTokens :=
         js_or (js_or (get directUsage "prompt_tokens") (get directUsage "input_tokens"))
               (JNum 0);
       Usage.outputTokens :=
         js_or (js_or (get directUsage "completion_tokens")
                      (get directUsage "output_tokens")) (JNum 0);
       Usage.totalTokens := js_or (get directUsage "total_tokens") (JNum 0) |}
  else
  (* Last resort: any top-level field whose key contains "token" *)
  if truthy response && is_object response then
    match find (fun kv => includes (toLowerCase (fst kv)) "token"
                          && is_object (snd kv) && truthy (snd kv))
               (entries response) with
    | Some (_, tokenData) =>
        {| Usage.inputTokens :=
             js_or (js_or (js_or (get tokenData "prompt_tokens")
                                 (get tokenData "inputTokens"))
                          (get tokenData "input_tokens")) (JNum 0);
           Usage.outputTokens :=
             js_or (js_or (js_or (get tokenData "completion_tokens")
                                 (get tokenData "outputTokens"))
                          (get tokenData "output_tokens")) (JNum 0);
           Usage.totalTokens :=
             js_or (js_or (get tokenData "total_tokens") (get tokenData "totalTokens"))
                   (JNum 0) |}
    | None => zeroUsage
    end
  else zeroUsage
  end
  end.

(** ** The outside world *)

(** Outbound calls to the language-model provider. *)
Inductive Call : Type :=
| ModelInvoke (human : string)                        (* model.invoke *)
| CompletionsCreate (model : string) (user : string)  (* openaiClient.chat.completions.create *)
| ChainStream (input : string).                       (* simpleChain.stream *)

Inductive Outcome : Type :=
| Fulfilled (value : jsval)
| Failed (error : jsval).

(** The provider answers a call, knowing the calls made before it, after
    some latency; a stream yields chunks and may then raise. *)
Record Provider : Type := {
  respond : list Call -> Call -> Z * Outcome;
  chunksOf : list Call -> string -> list string * option jsval
}.

(** [process.env] *)
Record Env : Type := {
  OPENAI_API_KEY : option string;
  AI_MODEL : option string
}.

Record World : Type := {
  now : Z;               (* what [Date.now()] returns *)
  calls : list Call      (* outbound calls so far, oldest first *)
}.

(** ** Computations that read the clock, call the provider and may throw *)

Inductive Completion (A : Type) : Type :=
| Normal (value : A)
| Throw (error : jsval).
Arguments Normal {A} value.
Arguments Throw {A} error.

Definition M (A : Type) : Type := World -> Completion A * World.

Definition ret {A} (a : A) : M A := fun w => (Normal a, w).

Definition bind {A B} (m : M A) (k : A -> M B) : M B :=
  fun w =>
    match m w with
    | (Normal a, w') => k a w'
    | (Throw e, w') => (Throw e, w')
    end.

Definition throw {A} (e : jsval) : M A := fun w => (Throw e, w).

Definition try_catch {A} (body : M A) (handler : jsval -> M A) : M A :=
  fun w =>
    match body w with
    | (Normal a, w') => (Normal a, w')
    | (Throw e, w') => handler e w'
    end.

Declare Scope js_scope.
Delimit Scope js_scope with js.
Notation "x <- m ;; k" := (bind m (fun x => k))
  (at level 61, m at next level, right associativity) : js_scope.
Notation "m ;;; k" := (bind m (fun _ => k))
  (at level 61, right associativity) : js_scope.
Open Scope js_scope.

Definition Date_now : M Z := fun w => (Normal (now w), w).

Definition await (p : Provider) (c : Call) : M jsval :=
  fun w =>
    let '(latency, outcome) := respond p (calls w) c in
    let w' := {| now := now w + latency; calls := (calls w ++ [c])%list |} in
    match outcome with
    | Fulfilled v => (Normal v, w')
    | Failed e => (Throw e, w')
    end.

(** [new Error(message)] and the engine's [TypeError]s *)
Definition Error (message : string) : jsval := JObj [("message", JStr message)].

Definition TypeError (message : string) : jsval :=
  JObj [("name", JStr "TypeError"); ("message", JStr message)].

(** [v.k] where [v] may be nullish *)
Definition prop (v : jsval) (k : string) : M jsval :=
  match v with
  | JUndefined =>
      throw (TypeError ("Cannot read properties of undefined (reading '" ++ k ++ "')"))
  | JNull =>
      throw (TypeError ("Cannot read properties of null (reading '" ++ k ++ "')"))
  | _ => ret (get v k)
  end.

(** [error?.message?.includes(k)] as a condition *)
Definition message_includes (error : jsval) (k : string) : M bool :=
  match opt_get error "message" with
  | JUndefined | JNull => ret false
  | JStr s => ret (includes s k)
  | JArr items =>
      ret (existsb (fun v => match v with JStr s => (s =? k)%string | _ => false end) items)
  | _ => throw (TypeError "error?.message?.includes is not a function")
  end.

(** [error?.status === n] *)
Definition status_is (error : jsval) (n : Z) : bool :=
  match opt_get error "status" with
  | JNum s => s =? n
  | _ => false
  end.

(** ** generateCompletionWithTokens *)

Module Result.
Record t : Type := {
  text : jsval;
  tokensUsed : jsval;
  inputTokens : jsval;
  outputTokens : jsval;
  responseTime : Z;
  finishReason : jsval
}.
End Result.

Definition env_or (v : option string) (default : string) : string :=
  match v with
  | Some s => if (s =? "")%string then default else s
  | None => default
  end.

Definition env_missing (v : option string) : bool :=
  match v with
  | Some s => (s =? "")%string
  | None => true
  end.

Definition errorResult (errorMessage : string) (responseTime : Z) : Result.t :=
  {| Result.text := JStr errorMessage;
     Result.tokensUsed := JNum 0;
     Result.inputTokens := JNum 0;
     Result.outputTokens := JNum 0;
     Result.responseTime := responseTime;
     Result.finishReason := JStr "error" |}.

(** The [catch] block's choice of message. *)
Definition classify (error : jsval) : M string :=
  c <- message_includes error "API key" ;;
  if c then ret "Authentication error: Please check your OpenAI API key configuration."
  else
  c <- message_includes error "model" ;;
  if c then ret "Model error: The specified AI model is not available or invalid."
  else
  c <- message_includes error "rate limit" ;;
  if c then ret "Rate limit exceeded: Please wait a moment before trying again."
  else
  c <- message_includes error "timeout" ;;
  if c then ret "Request timeout: The AI service took too long to respond."
  else if status_is error 429
  then ret "Too many requests: Please try again in a few moments."
  else if status_is error 401
  then ret "Authentication failed: Please check your API key."
  else ret "Sorry, I encountered an error processing your request.".

Definition is_zero (v : jsval) : bool :=
  match v with
  | JNum n => n =? 0
  | _ => false
  end.

Section Client.
Variable env : Env.
Variable provider : Provider.

(** The direct call made when no token count was found. *)
Definition fallbackCall (input : string) : M Usage.t :=
  openaiResponse <-
    await provider (CompletionsCreate (env_or (AI_MODEL env) "gpt-5-2025-08-07") input) ;;
  usage <- prop openaiResponse "usage" ;;
  ret {| Usage.inputTokens := js_or (opt_get usage "prompt_tokens") (JNum 0);
         Usage.outputTokens := js_or (opt_get usage "completion_tokens") (JNum 0);
         Usage.totalTokens := js_or (opt_get usage "total_tokens") (JNum 0) |}.

(** The body of the [try] block. *)
Definition tryBlock (startTime : Z) (input : string) : M Result.t :=
  (if env_missing (OPENAI_API_KEY env)
   then throw (Error ("OpenAI API key is not configured. " ++
                      "Please set OPENAI_API_KEY environment variable."))
   else ret tt) ;;;
  modelResponse <- await provider (ModelInvoke input) ;;
  endTime <- Date_now ;;
  let responseTime := endTime - startTime in
  text <- prop modelResponse "content" ;;
  let tokenUsage := extractTokenUsage modelResponse in
  let finishReason :=
    js_or (opt_get (get modelResponse "response_metadata") "finish_reason")
          (JStr "stop") in
  prop text "length" ;;;                         (* the logged [text.length] *)
  let result (u : Usage.t) : Result.t :=
    {| Result.text := text;
       Result.tokensUsed := Usage.totalTokens u;
       Result.inputTokens := Usage.inputTokens u;
       Result.outputTokens := Usage.outputTokens u;
       Result.responseTime := responseTime;
       Result.finishReason := finishReason |} in
  if is_zero (Usage.totalTokens tokenUsage)
  then try_catch
         (fallbackTokens <- fallbackCall input ;; ret (result fallbackTokens))
         (fun fallbackError => ret (result tokenUsage))
  else ret (result tokenUsage).

(** The body of the [catch (error)] block. *)
Definition catchBlock (startTime : Z) (error : jsval) : M Result.t :=
  endTime <- Date_now ;;
  let responseTime := endTime - startTime in
  errorMessage <- classify error ;;
  ret (errorResult errorMessage responseTime).

Definition generateCompletionWithTokens (input : string) : M Result.t :=
  startTime <- Date_now ;;
  try_catch (tryBlock startTime input) (catchBlock startTime).

End Client.

End Chain.

(* ================================================================== *)
(** * lib/ai/chain.ts, earlier revision *)
(* ================================================================== *)

(** The sources also hold an earlier revision of [lib/ai/chain.ts], in
    which [generateCompletionWithTokens] calls the provider directly and
    [extractTokenUsage] is defined but not called. *)
Module ChainEarlier.
Import JS Chain.

(** [v[0]] *)
Definition index0 (v : jsval) : M jsval :=
  match v with
  | JUndefined => throw (TypeError "Cannot read properties of undefined (reading '0')")
  | JNull => throw (TypeError "Cannot read properties of null (reading '0')")
  | JArr items => ret (nth 0 items JUndefined)
  | JStr s => ret (match s with
                   | EmptyString => JUndefined
                   | String c _ => JStr (String c EmptyString)
                   end)
  | _ => ret (get v "0")
  end.

(** The logged [JSON.stringify(response, null, 2).substring(0, 500)]
    fails on [undefined], which has no JSON text. *)
Definition extractTokenUsage (response : jsval) : Completion Usage.t :=
  match response with
  | JUndefined =>
      Throw (TypeError "Cannot read properties of undefined (reading 'substring')")
  | _ =>
  let usage :=
    js_or (js_or (js_or (opt_get response "usage")
                        (opt_get (opt_get response "response_metadata") "usage"))
                 (opt_get (opt_get response "llmOutput") "tokenUsage"))
          (opt_get (opt_get response "llmOutput") "usage") in
  if truthy usage then
    Normal
      {| Usage.inputTokens :=
           js_or (js_or (get usage "prompt_tokens") (get usage "input_tokens")) (JNum 0);
         Usage.outputTokens :=
           js_or (js_or (get usage "completion_tokens") (get usage "output_tokens"))
                 (JNum 0);
         Usage.totalTokens :=
           js_or (js_or (get usage "total_tokens")
                        (js_add (get usage "prompt_tokens") (get usage "completion_tokens")))
                 (JNum 0) |}
  else
  (* Try to get usage from response_metadata *)
  let responseMetadata := opt_get response "response_metadata" in
  match
    (if truthy responseMetadata then
       let metaUsage :=
         js_or (get responseMetadata "usage") (get responseMetadata "tokenUsage") in
       if truthy metaUsage then
         Some {| Usage.inputTokens :=
                   js_or (js_or (get metaUsage "prompt_tokens")
                                (get metaUsage "input_tokens")) (JNum 0);
                 Usage.outputTokens :=
                   js_or (js_or (get metaUsage "completion_tokens")
                                (get metaUsage "output_tokens")) (JNum 0);
                 Usage.totalTokens := js_or (get metaUsage "total_tokens") (JNum 0) |}
       else None
     else None)
  with
  | Some returned => Normal returned
  | None =>
  (* Last resort: any top-level field whose key contains "token" *)
  if truthy response && is_object response then
    match find (fun kv => includes (toLowerCase (fst kv)) "token"
                          && is_object (snd kv) && truthy (snd kv))
               (entries response) with
    | Some (_, tokenData) =>
        Normal
          {| Usage.inputTokens :=
               js_or (js_or (get tokenData "prompt_tokens") (get tokenData "input_tokens"))
                     (JNum 0);
             Usage.outputTokens :=
               js_or (js_or (get tokenData "completion_tokens")
                            (get tokenData "output_tokens")) (JNum 0);
             Usage.totalTokens := js_or (get tokenData "total_tokens") (JNum 0) |}
    | None => Normal zeroUsage
    end
  else Normal zeroUsage
  end
  end.

Section Client.
Variable env : Env.
Variable provider : Provider.

Definition tryBlock (startTime : Z) (input : string) : M Result.t :=
  (if env_missing (OPENAI_API_KEY env)
   then throw (Error ("OpenAI API key is not configured. " ++
                      "Please set OPENAI_API_KEY environment variable."))
   else ret tt) ;;;
  openaiResponse <-
    await provider
      (CompletionsCreate (env_or (AI_MODEL env) "gpt-4.1-nano-2025-04-14") input) ;;
  endTime <- Date_now ;;
  let responseTime := endTime - startTime in
  choices <- prop openaiResponse "choices" ;;
  choice <- index0 choices ;;
  let text := js_or (opt_get (opt_get choice "message") "content") (JStr "") in
  let finishReason := js_or (opt_get choice "finish_reason") (JStr "stop") in
  let usage := get openaiResponse "usage" in
  ret {| Result.text := text;
         Result.tokensUsed := js_or (opt_get usage "total_tokens") (JNum 0);
         Result.inputTokens := js_or (opt_get usage "prompt_tokens") (JNum 0);
         Result.outputTokens := js_or (opt_get usage "completion_tokens") (JNum 0);
         Result.responseTime := responseTime;
         Result.finishReason := finishReason |}.

Definition generateCompletionWithTokens (input : string) : M Result.t :=
  startTime <- Date_now ;;
  try_catch (tryBlock startTime input) (catchBlock startTime).

End Client.

End ChainEarlier.

(* ================================================================== *)
(** * app/api/ai: the HTTP endpoints *)
(* ================================================================== *)

Module Route.
Import JS Chain.

Definition LF : string := String "010"%char EmptyString.

(** [typeof body?.k === "string" ? body.k : ""] *)
Definition stringField (body : jsval) (k : string) : string :=
  match opt_get body k with
  | JStr s => s
  | _ => ""
  end.

Definition enhance (conversationId input : string) : string :=
  if (conversationId =? "")%string
  then input
  else "[Conversation: " ++ conversationId ++ "]" ++ LF ++ input.

Record Response : Type := {
  status : Z;
  body : jsval
}.

Section Endpoints.
Variable env : Env.
Variable provider : Provider.

(** [app/api/ai/chat/route.ts] *)
Definition POST (reqBody : jsval) : M Response :=
  let input := stringField reqBody "input" in
  let conversationId := stringField reqBody "conversationId" in
  if (input =? "")%string
  then ret {| status := 400; body := JObj [("error", JStr "Missing input")] |}
  else
    try_catch
      (let enhancedInput := enhance conversationId input in
       result <- generateCompletionWithTokens env provider enhancedInput ;;
       timestamp <- Date_now ;;
       ret {| status := 200;
              body := JObj
                [ ("text", Result.text result);
                  ("conversationId", JStr conversationId);
                  ("timestamp", JNum timestamp);
                  ("model", JStr (env_or (AI_MODEL env) "gpt-4.1-nano-2025-04-14"));
                  ("tokensUsed", Result.tokensUsed result);
                  ("inputTokens", Result.inputTokens result);
                  ("outputTokens", Result.outputTokens result);
                  ("responseTime", JNum (Result.responseTime result));
                  ("finishReason", Result.finishReason result) ] |})
      (fun error =>
         timestamp <- Date_now ;;
         ret {| status := 500;
                body := JObj
                  [ ("error", js_or (opt_get error "message") (JStr "Error"));
                    ("conversationId", JStr conversationId);
                    ("timestamp", JNum timestamp);
                    ("tokensUsed", JNum 0);
                    ("inputTokens", JNum 0);
                    ("outputTokens", JNum 0);
                    ("responseTime", JNum 0);
                    ("finishReason", JStr "error") ] |}).

(** [app/api/ai/stream/route.ts]: the body is the sequence of enqueued
    chunks, ended by [controller.close()] or [controller.error(e)]. *)
Inductive StreamEnd : Type :=
| Closed
| Errored (e : jsval).

Inductive StreamResponse : Type :=
| Plain (status : Z) (text : string)
| Streaming (headers : list (string * string)) (chunks : list string) (ending : StreamEnd).

Definition POST_stream (reqBody : jsval) : M StreamResponse :=
  let input := stringField reqBody "input" in
  let conversationId := stringField reqBody "conversationId" in
  if (input =? "")%string
  then ret (Plain 400 "Missing input")
  else
    let enhancedInput := enhance conversationId input in
    fun w =>
      let '(chunks, raised) := chunksOf provider (calls w) enhancedInput in
      let w' := {| now := now w; calls := (calls w ++ [ChainStream enhancedInput])%list |} in
      (Normal
         (Streaming
            [ ("Content-Type", "text/plain; charset=utf-8");
              ("Cache-Control", "no-cache");
              ("Transfer-Encoding", "chunked");
              ("X-Conversation-ID", conversationId) ]
            chunks
            (match raised with
             | Some e => Errored e
             | None => Closed
             end)),
       w').

End Endpoints.

End Route.

(* ================================================================== *)
(** * convex/chat.ts: the conversation store *)
(* ================================================================== *)

(** [convex/users.ts] is outside the embedded sources; only the user
    document returned by [getCurrentUser] is used, through its [_id]. *)
Module Users.
Record Doc : Type := { _id : Z; name : string; externalId : string }.
End Users.

Module Store.
Import JS.

(** ** Title derivation *)

(** Outcome of awaiting [ctx.runAction(...)]. *)
Inductive ActionOutcome : Type :=
| Resolved (value : jsval)
| Rejected (error : jsval).

(** The part of the Convex context the handlers use: the caller resolved
    by [getCurrentUser(ctx)] and [ctx.runAction] applied to
    [internal.chat.generateTitle] with argument [{ prompt }]. *)
Record Ctx : Type := {
  getCurrentUser : option Users.Doc;
  runAction : string -> ActionOutcome
}.

Definition keywords : list string :=
  [ "help"; "question"; "explain"; "how"; "what"; "why"; "code"; "programming";
    "design"; "business"; "writing"; "analysis"; "research"; "learning" ].

(** Handler of the internal action [generateTitle]. *)
Definition generateTitle (prompt : string) : string :=
  let message := toLowerCase prompt in
  let foundKeywords := filter (fun keyword => includes message keyword) keywords in
  match foundKeywords with
  | primaryKeyword :: _ =>
      toUpperCase (charAt0 primaryKeyword) ++ slice1 primaryKeyword ++ " Discussion"
  | [] =>
      if includes message "create" || includes message "build" || includes message "make"
      then "Project Creation"
      else if includes message "fix" || includes message "debug" || includes message "error"
      then "Problem Solving"
      else if includes message "learn" || includes message "teach" || includes message "tutorial"
      then "Learning Session"
      else "General Discussion"
  end.

(** The body of [generateConversationTitle] after [cleanTitle] is known. *)
Definition finalizeTitle (cleanTitle : string) : string :=
  let finalTitle :=
    if (50 <? String.length cleanTitle)%nat
    then substring0 47 cleanTitle ++ "..."
    else cleanTitle in
  let finalTitle := strip_final_punct finalTitle in
  if (finalTitle =? "")%string then "New Conversation" else finalTitle.

Definition generateConversationTitle (ctx : Ctx) (userMessage : string) : string :=
  match runAction ctx ("Generate a title for this conversation: " ++ userMessage) with
  | Rejected _ => "New Conversation"                       (* catch (error) *)
  | Resolved title =>
      match title with
      | JUndefined | JNull => finalizeTitle "New Conversation"
      | JStr s =>
          let trimmed := trim s in
          let cleanTitle :=
            if (trimmed =? "")%string then "New Conversation" else trimmed in
          finalizeTitle cleanTitle
      | _ => "New Conversation"        (* title.trim is not a function: caught *)
      end
  end.

(** The context of a [mutation] or [query] handler.  [saveMessage] and
    [regenerateConversationTitle], the two callers of
    [generateConversationTitle], are declared with [mutation]; the
    context such a handler receives has [db] and [auth] but no
    [runAction] (only an action's context can run actions), so
    [ctx.runAction(...)] throws a TypeError inside the [try]. *)
Definition mutationCtx (u : option Users.Doc) : Ctx :=
  {| getCurrentUser := u;
     runAction := fun _ => Rejected (Chain.TypeError "ctx.runAction is not a function") |}.

(** ** Documents and the [chatMessages] table *)

Inductive Role : Type := User | Assistant.

Definition Role_eqb (a b : Role) : bool :=
  match a, b with
  | User, User | Assistant, Assistant => true
  | _, _ => false
  end.

Record Metadata : Type := {
  userAgent : option string;
  ipAddress : option string;
  sessionId : option string;
  timestamp : option Z
}.

(** A stored document: the schema's fields plus the system fields [_id]
    and [_creationTime]. *)
Record ChatMessage : Type := {
  _id : Z;
  _creationTime : Z;
  userId : Z;
  role : Role;
  content : string;
  conversationId : string;
  conversationTitle : option string;
  model : string;
  tokensUsed : option Z;
  responseTime : option Z;
  metadata : option Metadata
}.

(** The table with the store's id allocator and clock. *)
Record Db : Type := {
  docs : list ChatMessage;
  nextId : Z;
  clock : Z
}.

(** Stable insertion sort; [leb a b] reads: [a] may stand before [b]. *)
Section Sorting.
Context {A : Type} (leb : A -> A -> bool).

Fixpoint insert (x : A) (l : list A) : list A :=
  match l with
  | [] => [x]
  | y :: l' => if leb x y then x :: y :: l' else y :: insert x l'
  end.

Fixpoint sort (l : list A) : list A :=
  match l with
  | [] => []
  | x :: l' => insert x (sort l')
  end.
End Sorting.

(** Index order: every index ends with [_creationTime], then [_id]. *)
Definition index_leb (a b : ChatMessage) : bool :=
  (_creationTime a <? _creationTime b)
  || ((_creationTime a =? _creationTime b) && (_id a <=? _id b)).

(** [ctx.db.query("chatMessages").withIndex("byConversation",
      q => q.eq("conversationId", cid))], in ascending order. *)
Definition byConversation (db : Db) (cid : string) : list ChatMessage :=
  sort index_leb (filter (fun m => (conversationId m =? cid)%string) (docs db)).

(** [... .withIndex("byUser", q => q.eq("userId", uid))], ascending. *)
Definition byUser (db : Db) (uid : Z) : list ChatMessage :=
  sort index_leb (filter (fun m => userId m =? uid) (docs db)).

(** [.order("desc")] *)
Definition order_desc (l : list ChatMessage) : list ChatMessage := rev l.

(** [ctx.db.delete(id)] and [ctx.db.patch(id, { conversationTitle })] *)
Definition db_delete (id : Z) (db : Db) : Db :=
  {| docs := filter (fun m => negb (_id m =? id)) (docs db);
     nextId := nextId db;
     clock := clock db |}.

Definition set_title (title : string) (m : ChatMessage) : ChatMessage :=
  {| _id := _id m; _creationTime := _creationTime m; userId := userId m;
     role := role m; content := content m; conversationId := conversationId m;
     conversationTitle := Some title;
     model := model m; tokensUsed := tokensUsed m;
     responseTime := responseTime m; metadata := metadata m |}.

Definition db_patch_title (id : Z) (title : string) (db : Db) : Db :=
  {| docs := map (fun m => if _id m =? id then set_title title m else m) (docs db);
     nextId := nextId db;
     clock := clock db |}.

(** ** Handlers *)

(** A handler either returns or throws [new Error(message)]. *)
Inductive result (A : Type) : Type :=
| Ok (value : A)
| Thrown (message : string).
Arguments Ok {A} value.
Arguments Thrown {A} message.

Definition Mutation (A : Type) : Type := Db -> result A * Db.

Definition Unauthenticated : string := "User not authenticated".
Definition NotFoundOrForbidden : string := "Conversation not found or access denied".
Definition NoUserMessages : string := "No user messages found in conversation".

Module Args.
Record saveMessage : Type := {
  role : Role;
  content : string;
  conversationId : string;
  model : string;
  tokensUsed : option Z;
  responseTime : option Z;
  metadata : option Metadata
}.
End Args.

(** [msg => msg.conversationTitle] as a condition *)
Definition has_title (msg : ChatMessage) : bool :=
  match conversationTitle msg with
  | Some t => negb (t =? "")%string
  | None => false
  end.

(** [existingMessages.find(msg => msg.conversationTitle)?.conversationTitle] *)
Definition existingTitle (existingMessages : list ChatMessage) : option string :=
  match find has_title existingMessages with
  | Some msg => conversationTitle msg
  | None => None
  end.

Definition saveMessage (ctx : Ctx) (args : Args.saveMessage) : Mutation Z :=
  fun db =>
  match getCurrentUser ctx with
  | None => (Thrown Unauthenticated, db)
  | Some user =>
      let title :=
        match Args.role args with
        | User =>
            let existingMessages := byConversation db (Args.conversationId args) in
            if (List.length existingMessages =? 0)%nat
            then Some (generateConversationTitle ctx (Args.content args))
            else existingTitle existingMessages
        | Assistant =>
            let existingMessages := byConversation db (Args.conversationId args) in
            existingTitle existingMessages
        end in
      let messageId := nextId db in
      (Ok messageId,
       {| docs := (docs db ++
            [ {| _id := messageId;
                 _creationTime := clock db;
                 userId := Users._id user;
                 role := Args.role args;
                 content := Args.content args;
                 conversationId := Args.conversationId args;
                 conversationTitle := title;
                 model := Args.model args;
                 tokensUsed := Args.tokensUsed args;
                 responseTime := Args.responseTime args;
                 metadata := Args.metadata args |} ])%list;
          nextId := messageId + 1;
          clock := clock db |})
  end.

Definition getConversationMessages (db : Db) (cid : string) : list ChatMessage :=
  byConversation db cid.

Module Conversation.
Record t : Type := {
  conversationId : string;
  lastMessage : ChatMessage;
  messageCount : Z;
  createdAt : Z
}.
End Conversation.

(** The [Map<string, any>] of [getUserConversations], in insertion order. *)
Definition ConversationsMap : Type := list (string * Conversation.t).

Fixpoint map_has (k : string) (m : ConversationsMap) : bool :=
  match m with
  | [] => false
  | (k', _) :: rest => (k =? k')%string || map_has k rest
  end.

(** [m.set(k, v)] for a key that [m] does not hold yet *)
Definition map_set (k : string) (v : Conversation.t) (m : ConversationsMap)
  : ConversationsMap := (m ++ [(k, v)])%list.

Definition bump (c : Conversation.t) : Conversation.t :=
  {| Conversation.conversationId := Conversation.conversationId c;
     Conversation.lastMessage := Conversation.lastMessage c;
     Conversation.messageCount := Conversation.messageCount c + 1;
     Conversation.createdAt := Conversation.createdAt c |}.

(** [m.get(k)!.messageCount++] *)
Fixpoint map_bump (k : string) (m : ConversationsMap) : ConversationsMap :=
  match m with
  | [] => []
  | (k', c) :: rest =>
      if (k =? k')%string then (k', bump c) :: rest else (k', c) :: map_bump k rest
  end.

(** One iteration of [for (const message of messages)] *)
Definition visit (conversationsMap : ConversationsMap) (message : ChatMessage)
  : ConversationsMap :=
  let cid := conversationId message in
  let m1 :=
    if negb (map_has cid conversationsMap)
    then map_set cid
           {| Conversation.conversationId := cid;
              Conversation.lastMessage := message;
              Conversation.messageCount := 0;
              Conversation.createdAt := _creationTime message |}
           conversationsMap
    else conversationsMap in
  map_bump cid m1.

(** The comparator [(a, b) => b.createdAt - a.createdAt] keeps [a] before
    [b] when its result is not positive. *)
Definition by_createdAt_desc (a b : Conversation.t) : bool :=
  Conversation.createdAt b - Conversation.createdAt a <=? 0.

Definition getUserConversations (ctx : Ctx) (db : Db) : list Conversation.t :=
  match getCurrentUser ctx with
  | None => []
  | Some user =>
      let messages := order_desc (byUser db (Users._id user)) in
      let conversationsMap := fold_left visit messages [] in
      sort by_createdAt_desc (map snd conversationsMap)
  end.

Record Deleted : Type := { deleted : Z }.

Definition deleteConversation (ctx : Ctx) (cid : string) : Mutation Deleted :=
  fun db =>
  match getCurrentUser ctx with
  | None => (Thrown Unauthenticated, db)
  | Some user =>
      let messages := byConversation db cid in
      let userMessages := filter (fun msg => userId msg =? Users._id user) messages in
      if (List.length userMessages =? 0)%nat
      then (Thrown NotFoundOrForbidden, db)
      else
        let db' := fold_left (fun d message => db_delete (_id message) d) messages db in
        (Ok {| deleted := Z.of_nat (List.length messages) |}, db')
  end.

Definition regenerateConversationTitle (ctx : Ctx) (cid : string) : Mutation string :=
  fun db =>
  match getCurrentUser ctx with
  | None => (Thrown Unauthenticated, db)
  | Some user =>
      let messages :=
        firstn 1 (filter (fun m => Role_eqb (role m) User) (byConversation db cid)) in
      match messages with
      | [] => (Thrown NoUserMessages, db)
      | firstMessage :: _ =>
          let newTitle := generateConversationTitle ctx (content firstMessage) in
          let allMessages := byConversation db cid in
          let db' :=
            fold_left (fun d message => db_patch_title (_id message) newTitle d)
                      allMessages db in
          (Ok newTitle, db')
      end
  end.

(** ** Statistics *)

Module Stats.
Record t : Type := {
  totalMessages : Z;
  totalConversations : Z;
  totalTokensUsed : Z;
  averageResponseTime : QArith_base.Q;   (* the quotient, kept exact *)
  lastActivity : option Z                (* [None] is [null] *)
}.
End Stats.

(** [m => m.responseTime] as a condition *)
Definition has_responseTime (m : ChatMessage) : bool :=
  match responseTime m with
  | Some n => negb (n =? 0)
  | None => false
  end.

(** [m.tokensUsed || 0] and [m.responseTime || 0] *)
Definition or0 (n : option Z) : Z :=
  match n with
  | Some v => v
  | None => 0
  end.

(** [Math.max(...l)] for a non-empty [l] *)
Definition Math_max (l : list Z) : option Z :=
  match l with
  | [] => None
  | x :: rest => Some (fold_left Z.max rest x)
  end.

(** [new Set(l).size] *)
Definition distinct (l : list string) : list string := nodup string_dec l.

Definition getUserChatStats (ctx : Ctx) (db : Db) : Stats.t :=
  match getCurrentUser ctx with
  | None =>
      {| Stats.totalMessages := 0;
         Stats.totalConversations := 0;
         Stats.totalTokensUsed := 0;
         Stats.averageResponseTime := QArith_base.inject_Z 0;
         Stats.lastActivity := None |}
  | Some user =>
      let messages := byUser db (Users._id user) in
      let timed := filter has_responseTime messages in
      {| Stats.totalMessages := Z.of_nat (List.length messages);
         Stats.totalConversations :=
           Z.of_nat (List.length (distinct (map conversationId messages)));
         Stats.totalTokensUsed :=
           fold_left (fun sum m => sum + or0 (tokensUsed m)) messages 0;
         Stats.averageResponseTime :=
           (* [sum / length || 0]: 0 / 0 is NaN, and NaN and 0 give 0 *)
           let sum := fold_left (fun sum m => sum + or0 (responseTime m)) timed 0 in
           match timed with
           | [] => QArith_base.inject_Z 0
           | _ =>
               if sum =? 0 then QArith_base.inject_Z 0
               else QArith_base.Qmake sum (Pos.of_nat (List.length timed))
           end;
         Stats.lastActivity :=
           if (0 <? List.length messages)%nat
           then Math_max (map _creationTime messages)
           else None |}
  end.

End Store.

(* ================================================================== *)
(** * Statements of the specification, in its own words *)
(* ================================================================== *)

Module Spec.
Import JS Chain Store.

(** ** Token extraction as an ordered chain of extractors, each a
    function from the raw response to an optional usage. *)

Definition Extractor : Type := jsval -> option Usage.t.

Fixpoint first_some (extractors : list Extractor) (response : jsval) : option Usage.t :=
  match extractors with
  | [] => None
  | e :: rest =>
      match e response with
      | Some u => Some u
      | None => first_some rest response
      end
  end.

(** The usage object nested at [response_metadata.usage_metadata]. *)
Definition nestedUsageMetadata : Extractor := fun response =>
  let u := get (opt_get response "response_metadata") "usage_metadata" in
  if truthy u
  then Some {| Usage.inputTokens := js_or (get u "input_tokens") (JNum 0);
               Usage.outputTokens := js_or (get u "output_tokens") (JNum 0);
               Usage.totalTokens := js_or (get u "total_tokens") (JNum 0) |}
  else None.

(** The callback-style usage at [response_metadata.tokenUsage]. *)
Definition nestedTokenUsage : Extractor := fun response =>
  let u := get (opt_get response "response_metadata") "tokenUsage" in
  if truthy u then Some (fromTokenUsage u) else None.

(** The legacy callback-style usage at [llmOutput.tokenUsage]. *)
Definition legacyTokenUsage : Extractor := fun response =>
  let u := get (opt_get response "llmOutput") "tokenUsage" in
  if truthy u then Some (fromTokenUsage u) else None.

(** The direct usage object [response.usage]. *)
Definition directUsage : Extractor := fun response =>
  let u := opt_get response "usage" in
  if truthy u
  then Some {| Usage.inputTokens :=
                 js_or (js_or (get u "prompt_tokens") (get u "input_tokens")) (JNum 0);
               Usage.outputTokens :=
                 js_or (js_or (get u "completion_tokens") (get u "output_tokens")) (JNum 0);
               Usage.totalTokens := js_or (get u "total_tokens") (JNum 0) |}
  else None.

(** A top-level field whose key contains "token" and holds an object. *)
Definition tokenKey (kv : string * jsval) : bool :=
  includes (toLowerCase (fst kv)) "token" && is_object (snd kv).

Definition tokenKeyScan : Extractor := fun response =>
  match find tokenKey (entries response) with
  | Some (_, d) =>
      Some {| Usage.inputTokens :=
                js_or (js_or (js_or (get d "prompt_tokens") (get d "inputTokens"))
                             (get d "input_tokens")) (JNum 0);
              Usage.outputTokens :=
                js_or (js_or (js_or (get d "completion_tokens") (get d "outputTokens"))
                             (get d "output_tokens")) (JNum 0);
              Usage.totalTokens :=
                js_or (js_or (get d "total_tokens") (get d "totalTokens")) (JNum 0) |}
  | None => None
  end.

(** The order the specification states: the direct usage object first. *)
Definition direct_usage_probed_first : Prop :=
  forall response u,
    directUsage response = Some u -> extractTokenUsage response = u.

(** ** Error classes of the completion client *)

Inductive ErrorClass : Type :=
| Credential            (* the message mentions the API key *)
| ModelConfiguration    (* the message mentions the model *)
| RateLimitText         (* the message mentions a rate limit *)
| Timeout               (* the message mentions a timeout *)
| TooManyRequests       (* HTTP status 429 *)
| AuthenticationFailed  (* HTTP status 401 *)
| Generic.

Definition userMessage (c : ErrorClass) : string :=
  match c with
  | Credential => "Authentication error: Please check your OpenAI API key configuration."
  | ModelConfiguration => "Model error: The specified AI model is not available or invalid."
  | RateLimitText => "Rate limit exceeded: Please wait a moment before trying again."
  | Timeout => "Request timeout: The AI service took too long to respond."
  | TooManyRequests => "Too many requests: Please try again in a few moments."
  | AuthenticationFailed => "Authentication failed: Please check your API key."
  | Generic => "Sorry, I encountered an error processing your request."
  end.

Definition messageHas (error : jsval) (k : string) : bool :=
  match opt_get error "message" with
  | JStr s => includes s k
  | JArr items =>
      existsb (fun v => match v with JStr s => (s =? k)%string | _ => false end) items
  | _ => false
  end.

Definition signals (c : ErrorClass) (error : jsval) : bool :=
  match c with
  | Credential => messageHas error "API key"
  | ModelConfiguration => messageHas error "model"
  | RateLimitText => messageHas error "rate limit"
  | Timeout => messageHas error "timeout"
  | TooManyRequests => status_is error 429
  | AuthenticationFailed => status_is error 401
  | Generic => true
  end.

(** First match wins; [Generic] when nothing matches. *)
Definition first_match (order : list ErrorClass) (error : jsval) : ErrorClass :=
  match find (fun c => signals c error) order with
  | Some c => c
  | None => Generic
  end.

(** The priority order the specification states: the rate-limit signal,
    by message text or by HTTP 429, ranks before the timeout. *)
Definition statedOrder : list ErrorClass :=
  [Credential; ModelConfiguration; RateLimitText; TooManyRequests; Timeout;
   AuthenticationFailed].

(** The priority order of the [catch] block. *)
Definition codeOrder : list ErrorClass :=
  [Credential; ModelConfiguration; RateLimitText; Timeout; TooManyRequests;
   AuthenticationFailed].

(** The caught error's [message] is absent, a string or an array, so
    that [error?.message?.includes] can be called. *)
Definition message_ok (error : jsval) : bool :=
  match opt_get error "message" with
  | JUndefined | JNull | JStr _ | JArr _ => true
  | _ => false
  end.

(** [r] is the error result for [class], measured over [elapsed] ms. *)
Definition reportsError (r : Result.t) (class : ErrorClass) (elapsed : Z) : Prop :=
  Result.text r = JStr (userMessage class)
  /\ Result.tokensUsed r = JNum 0
  /\ Result.inputTokens r = JNum 0
  /\ Result.outputTokens r = JNum 0
  /\ Result.finishReason r = JStr "error"
  /\ Result.responseTime r = elapsed.

Definition stated_priority_holds : Prop :=
  forall env provider input w latency error r w',
    env_missing (OPENAI_API_KEY env) = false ->
    respond provider (calls w) (ModelInvoke input) = (latency, Failed error) ->
    generateCompletionWithTokens env provider input w = (Normal r, w') ->
    Result.text r = JStr (userMessage (first_match statedOrder error)).

(** ** Outbound calls *)

(** The model answered with a usable text but no token count. *)
Definition needsFallback (modelResponse : jsval) : bool :=
  negb (nullish modelResponse)
  && negb (nullish (get modelResponse "content"))
  && is_zero (Usage.totalTokens (extractTokenUsage modelResponse)).

(** The outbound calls one request makes, given the calls made before. *)
Definition outboundCalls (env : Env) (provider : Provider) (history : list Call)
    (input : string) : list Call :=
  if env_missing (OPENAI_API_KEY env) then []
  else
    match respond provider history (ModelInvoke input) with
    | (_, Failed _) => [ModelInvoke input]
    | (_, Fulfilled v) =>
        if needsFallback v
        then [ModelInvoke input;
              CompletionsCreate (env_or (AI_MODEL env) "gpt-5-2025-08-07") input]
        else [ModelInvoke input]
    end.

Definition at_most_one_outbound_call : Prop :=
  forall env provider input w,
    (List.length (calls (snd (generateCompletionWithTokens env provider input w)))
     <= List.length (calls w) + 1)%nat.

(** The prompt an outbound call carries. *)
Definition promptOf (c : Call) : string :=
  match c with
  | ModelInvoke human => human
  | CompletionsCreate _ user => user
  | ChainStream input => input
  end.

(** ** The synchronous endpoint, as the specification states it *)

Definition is_count (v : jsval) : bool :=
  match v with
  | JNum n => 0 <=? n
  | _ => false
  end.

Definition success_body (b : jsval) : Prop :=
  get b "finishReason" <> JStr "error"
  /\ is_count (get b "tokensUsed") = true
  /\ is_count (get b "inputTokens") = true
  /\ is_count (get b "outputTokens") = true
  /\ is_count (get b "responseTime") = true.

Definition zeroed_error_body (b : jsval) : Prop :=
  get b "finishReason" = JStr "error"
  /\ get b "tokensUsed" = JNum 0
  /\ get b "inputTokens" = JNum 0
  /\ get b "outputTokens" = JNum 0
  /\ get b "responseTime" = JNum 0.

Definition sync_contract_holds : Prop :=
  forall env provider reqBody w resp w',
    Route.stringField reqBody "input" <> "" ->
    Route.POST env provider reqBody w = (Normal resp, w') ->
    (Route.status resp = 200 /\ success_body (Route.body resp))
    \/ (Route.status resp = 500 /\ zeroed_error_body (Route.body resp)).

(** ** The store *)

(** The id of [m] is the id of one of the documents in [l]. *)
Definition listed (l : list ChatMessage) (m : ChatMessage) : bool :=
  existsb (fun x => _id m =? _id x) l.

(** [a] stands somewhere before [b] in [l]. *)
Definition precedes {A : Type} (a b : A) (l : list A) : Prop :=
  exists l1 l2 l3, l = (l1 ++ a :: l2 ++ b :: l3)%list.

(** What [getUserConversations] has gathered after scanning [seen]:
    one entry per conversation id met, holding the first message met
    under that id, the number of messages met under it, and that first
    message's creation time. *)
Definition sameConversation (cid : string) (m : ChatMessage) : bool :=
  (conversationId m =? cid)%string.

Definition gathered (seen : list ChatMessage) (entries : ConversationsMap) : Prop :=
  NoDup (map fst entries)
  /\ (forall cid, In cid (map fst entries)
                  <-> exists m, In m seen /\ conversationId m = cid)
  /\ (forall cid c, In (cid, c) entries ->
         Conversation.conversationId c = cid
         /\ find (sameConversation cid) seen = Some (Conversation.lastMessage c)
         /\ Conversation.messageCount c
            = Z.of_nat (List.length (filter (sameConversation cid) seen))
         /\ Conversation.createdAt c = _creationTime (Conversation.lastMessage c)).

(** Document ids are unique in the table. *)
Definition unique_ids (db : Db) : Prop := NoDup (map _id (docs db)).

(** ** Title derivation, on the user's message *)

Definition topicKeywords : list string :=
  [ "help"; "question"; "explain"; "how"; "what"; "why"; "code"; "programming";
    "design"; "business"; "writing"; "analysis"; "research"; "learning" ].

Definition capitalize (word : string) : string :=
  match word with
  | EmptyString => EmptyString
  | String c rest => String (upper_char c) rest
  end.

(** The lower-cased message contains [word]. *)
Definition mentions (message word : string) : bool :=
  includes (toLowerCase message) word.

Definition titleOf (message : string) : string :=
  match find (mentions message) topicKeywords with
  | Some keyword => capitalize keyword ++ " Discussion"
  | None =>
      if existsb (mentions message) ["create"; "build"; "make"] then "Project Creation"
      else if existsb (mentions message) ["fix"; "debug"; "error"] then "Problem Solving"
      else if existsb (mentions message) ["learn"; "teach"; "tutorial"] then "Learning Session"
      else "General Discussion"
  end.

(** The prompt [generateConversationTitle] hands to the action. *)
Definition titlePrompt (userMessage : string) : string :=
  "Generate a title for this conversation: " ++ userMessage.

Definition loweredPrompt : string := "generate a title for this conversation: ".

Definition orNewConversation (t : string) : string :=
  if (t =? "")%string then "New Conversation" else t.

(** At most 50 characters, the last three an ellipsis when shortened. *)
Definition limit50 (t : string) : string :=
  if (String.length t <=? 50)%nat then t else String.substring 0 47 t ++ "...".

(** Without its last character when that is [.], [!] or [?]. *)
Definition withoutFinalPunct (t : string) : string :=
  match rev (list_ascii_of_string t) with
  | c :: before =>
      if is_final_punct c then string_of_list_ascii (rev before) else t
  | [] => t
  end.

Definition cleaned (raw : string) : string :=
  orNewConversation (withoutFinalPunct (limit50 (orNewConversation (trim raw)))).

Fixpoint lastChar (t : string) : option ascii :=
  match t with
  | EmptyString => None
  | String c EmptyString => Some c
  | String _ rest => lastChar rest
  end.

(** Every title the keyword heuristic can produce. *)
Definition heuristicTitles : list string :=
  (map (fun keyword => (capitalize keyword ++ " Discussion")%string) topicKeywords
   ++ ["Project Creation"; "Problem Solving"; "Learning Session"; "General Discussion"])%list.

(** The title does not end in [.], [!] or [?]. *)
Definition no_final_punct (t : string) : Prop :=
  forall before c, t = before ++ String c EmptyString -> is_final_punct c = false.

(** ** Further notions used below *)

(** A count is 0 or a truthy value read from the response. *)
Definition zero_or_truthy (v : jsval) : Prop := v = JNum 0 \/ truthy v = true.

(** A conversation has at most one title, and no title is empty. *)
Definition one_title (db : Db) : Prop :=
  (forall m1 m2, In m1 (docs db) -> In m2 (docs db) ->
                 conversationId m1 = conversationId m2 ->
                 conversationTitle m1 = conversationTitle m2)
  /\ (forall m, In m (docs db) -> conversationTitle m <> Some EmptyString).

(** The earliest user message of a conversation. *)
Definition firstUserMessage (db : Db) (cid : string) : option ChatMessage :=
  hd_error (filter (fun m => Role_eqb (role m) User) (byConversation db cid)).

(** The table with [title] on every message of conversation [cid]. *)
Definition retitled (cid title : string) (db : Db) : Db :=
  {| docs := map (fun m => if (conversationId m =? cid)%string
                           then set_title title m else m) (docs db);
     nextId := nextId db;
     clock := clock db |}.

(** The table without the messages of conversation [cid]. *)
Definition without (cid : string) (db : Db) : Db :=
  {| docs := filter (fun m => negb (conversationId m =? cid)%string) (docs db);
     nextId := nextId db;
     clock := clock db |}.

(** The caller owns a message of conversation [cid]. *)
Definition owns (uid : Z) (cid : string) (db : Db) : bool :=
  existsb (fun m => (conversationId m =? cid)%string && (userId m =? uid)) (docs db).

(** The title [saveMessage] puts on the message it stores. *)
Definition titleFor (ctx : Ctx) (args : Args.saveMessage) (db : Db) : option string :=
  let existingMessages := byConversation db (Args.conversationId args) in
  match Args.role args with
  | User =>
      if (List.length existingMessages =? 0)%nat
      then Some (generateConversationTitle ctx (Args.content args))
      else existingTitle existingMessages
  | Assistant => existingTitle existingMessages
  end.

(** The document [saveMessage] inserts. *)
Definition newMessage (ctx : Ctx) (user : Users.Doc) (args : Args.saveMessage) (db : Db)
  : ChatMessage :=
  {| _id := nextId db;
     _creationTime := clock db;
     userId := Users._id user;
     role := Args.role args;
     content := Args.content args;
     conversationId := Args.conversationId args;
     conversationTitle := titleFor ctx args db;
     model := Args.model args;
     tokensUsed := Args.tokensUsed args;
     responseTime := Args.responseTime args;
     metadata := Args.metadata args |}.

(** The table after [saveMessage] stored [m]. *)
Definition appended (m : ChatMessage) (db : Db) : Db :=
  {| docs := (docs db ++ [m])%list; nextId := nextId db + 1; clock := clock db |}.

(** The sum of the message counts of a list of summaries. *)
Definition sumCounts (l : list Conversation.t) : Z :=
  fold_right (fun c s => Conversation.messageCount c + s) 0 l.

(** The clock is ahead of every stored message. *)
Definition clock_ahead (db : Db) : Prop :=
  forall m, In m (docs db) -> _creationTime m < clock db.

End Spec.

(* ================================================================== *)
(** * Concrete inputs used by the examples below *)
(* ================================================================== *)

Module Examples.
Import JS Chain.

Definition scenarioUsage : jsval :=
  JObj [("input_tokens", JNum 12); ("output_tokens", JNum 34); ("total_tokens", JNum 46)].

(** A response exposing usage only at [response_metadata.usage_metadata]. *)
Definition scenarioResponse : jsval :=
  JObj [ ("content", JStr "Hello!");
         ("response_metadata",
          JObj [("finish_reason", JStr "stop"); ("usage_metadata", scenarioUsage)]) ].

(** A response with both a direct usage object and nested usage metadata. *)
Definition bothUsages : jsval :=
  JObj [ ("content", JStr "Hello!");
         ("usage", JObj [("prompt_tokens", JNum 1); ("completion_tokens", JNum 2);
                         ("total_tokens", JNum 3)]);
         ("response_metadata", JObj [("usage_metadata", scenarioUsage)]) ].

(** A response without any usage data. *)
Definition bareResponse : jsval :=
  JObj [ ("content", JStr "Hello!");
         ("response_metadata", JObj [("finish_reason", JStr "stop")]) ].

Definition usage (i o t : Z) : Usage.t :=
  {| Usage.inputTokens := JNum i; Usage.outputTokens := JNum o;
     Usage.totalTokens := JNum t |}.

(** A provider that rejects every call with [error] after 250 ms. *)
Definition failingWith (error : jsval) : Provider :=
  {| respond := fun _ _ => (250, Failed error);
     chunksOf := fun _ _ => ([], Some error) |}.

(** A provider that answers every call with [response] after 120 ms. *)
Definition answering (response : jsval) : Provider :=
  {| respond := fun _ _ => (120, Fulfilled response);
     chunksOf := fun _ _ => (["Hel"; "lo!"], None) |}.

(** A provider whose chat model answers [response] after 120 ms and
    whose completions API ends as [fallback] after 80 ms. *)
Definition answeringThen (response : jsval) (fallback : Outcome) : Provider :=
  {| respond := fun _ c =>
       match c with
       | CompletionsCreate _ _ => (80, fallback)
       | _ => (120, Fulfilled response)
       end;
     chunksOf := fun _ _ => ([], None) |}.

(** A direct completion carrying a usage object. *)
Definition completionWithUsage : jsval :=
  JObj [ ("choices", JArr []);
         ("usage", JObj [("prompt_tokens", JNum 7); ("completion_tokens", JNum 5);
                         ("total_tokens", JNum 12)]) ].

(** A reply without any content. *)
Definition emptyReply : jsval := JObj [("response_metadata", JObj [])].

Definition configured : Env :=
  {| OPENAI_API_KEY := Some "sk-test"; AI_MODEL := None |}.

Definition unconfigured : Env :=
  {| OPENAI_API_KEY := None; AI_MODEL := None |}.

Definition start : World := {| now := 1000; calls := [] |}.

(** An upstream error that is both a timeout and an HTTP 429. *)
Definition timeout429 : jsval :=
  JObj [("message", JStr "Request timeout"); ("status", JNum 429)].

Definition unauthorized : jsval :=
  JObj [("message", JStr "Incorrect credentials"); ("status", JNum 401)].

(** A thrown value whose [message] is a number. *)
Definition oddError : jsval := JObj [("message", JNum 42)].

(** Two users and a small table: conversation c1 holds messages of both
    users, conversation c2 one older message of alice. *)
Definition alice : Users.Doc :=
  {| Users._id := 1; Users.name := "alice"; Users.externalId := "user_a" |}.

Definition bob : Users.Doc :=
  {| Users._id := 2; Users.name := "bob"; Users.externalId := "user_b" |}.

Definition message (id time uid : Z) (r : Store.Role) (text cid : string)
    (title : option string) : Store.ChatMessage :=
  {| Store._id := id; Store._creationTime := time; Store.userId := uid;
     Store.role := r; Store.content := text; Store.conversationId := cid;
     Store.conversationTitle := title; Store.model := "gpt";
     Store.tokensUsed := None; Store.responseTime := None; Store.metadata := None |}.

Definition table : Store.Db :=
  {| Store.docs :=
       [ message 1 10 1 Store.User "what is this" "c2" (Some "What Discussion");
         message 2 20 1 Store.User "help me fix a bug" "c1" (Some "Old title");
         message 3 30 1 Store.Assistant "Sure." "c1" (Some "Old title");
         message 4 40 2 Store.User "make it fast" "c1" None ];
     Store.nextId := 5;
     Store.clock := 50 |}.

(** A table in which every conversation has one title. *)
Definition tidy : Store.Db :=
  {| Store.docs :=
       [ message 1 10 1 Store.User "what is this" "c2" (Some "What Discussion");
         message 2 20 1 Store.User "help me fix a bug" "c1" (Some "Help Discussion");
         message 3 30 2 Store.Assistant "Sure." "c1" (Some "Help Discussion") ];
     Store.nextId := 4;
     Store.clock := 40 |}.

(** The context of a handler called by user [u]. *)
Definition asUser (u : Users.Doc) : Store.Ctx := Store.mutationCtx (Some u).

Definition userSays (text cid : string) : Store.Args.saveMessage :=
  {| Store.Args.role := Store.User; Store.Args.content := text;
     Store.Args.conversationId := cid; Store.Args.model := "gpt";
     Store.Args.tokensUsed := None; Store.Args.responseTime := None;
     Store.Args.metadata := None |}.

(** A context whose [runAction] resolves to [value]; no handler of
    [chat.ts] runs in one. *)
Definition resolving (value : jsval) : Store.Ctx :=
  {| Store.getCurrentUser := None; Store.runAction := fun _ => Store.Resolved value |}.

End Examples.

(* ================================================================== *)
(** * Facts about JavaScript values *)
(* ================================================================== *)

Section JsFacts.
Import JS.

Lemma falsy_get (v : jsval) (k : string) :
  truthy v = false -> get v k = JUndefined.
Proof. destruct v; simpl; try reflexivity; discriminate. Qed.

Lemma is_object_truthy (v : jsval) : is_object v = true -> truthy v = true.
Proof. destruct v; simpl; congruence. Qed.

Lemma find_ext_in {A} (f g : A -> bool) (l : list A) :
  (forall x, In x l -> f x = g x) -> find f l = find g l.
Proof.
  induction l as [|a l IH]; simpl; intros H; [reflexivity|].
  rewrite (H a (or_introl eq_refl)).
  destruct (g a); [reflexivity|]. apply IH; intros x Hx; apply H; now right.
Qed.

Lemma find_none_iff {A} (f : A -> bool) (l : list A) :
  find f l = None <-> forall x, In x l -> f x = false.
Proof.
  split.
  - apply find_none.
  - induction l as [|a l IH]; simpl; intros H; [reflexivity|].
    rewrite (H a (or_introl eq_refl)). apply IH; intros x Hx; apply H; now right.
Qed.
End JsFacts.

(* ================================================================== *)
(** * Token-usage extraction *)
(* ================================================================== *)

Section TokenExtraction.
Import JS Chain Spec.

Lemma scan_agrees (response : jsval) :
  find (fun kv => includes (toLowerCase (fst kv)) "token"
                  && is_object (snd kv) && truthy (snd kv)) (entries response)
  = find tokenKey (entries response).
Proof.
  apply find_ext_in; intros [k v] _; unfold tokenKey; simpl.
  destruct (is_object v) eqn:E.
  - rewrite (is_object_truthy _ E). now rewrite !andb_true_r.
  - now rewrite !andb_false_r.
Qed.

Lemma scan_only_objects (response : jsval) :
  truthy response && is_object response = false -> entries response = [].
Proof. destruct response; simpl; try reflexivity; discriminate. Qed.

Ltac probe_tail :=
  simpl truthy;
  repeat match goal with
         | |- context [truthy (get ?v "tokenUsage")] =>
             destruct (truthy (get v "tokenUsage")); [reflexivity|]
         | |- context [truthy (opt_get ?r "usage")] =>
             destruct (truthy (opt_get r "usage")); [reflexivity|]
         end;
  match goal with
  | |- context [truthy ?r && is_object ?r] =>
      let Eo := fresh "Eo" in
      destruct (truthy r && is_object r) eqn:Eo;
      [ rewrite scan_agrees;
        now destruct (find Spec.tokenKey (Chain.entries r)) as [[? ?]|]
      | now rewrite (scan_only_objects _ Eo) ]
  end.

(** The code's nested conditionals are the ordered chain
    usage_metadata, response_metadata.tokenUsage, llmOutput.tokenUsage,
    direct usage, key scan. *)
Lemma extractTokenUsage_chain (response : jsval) :
  extractTokenUsage response =
  match first_some [nestedUsageMetadata; nestedTokenUsage; legacyTokenUsage;
                    directUsage; tokenKeyScan] response with
  | Some u => u
  | None => zeroUsage
  end.
Proof.
  unfold extractTokenUsage, first_some, nestedUsageMetadata, nestedTokenUsage,
    legacyTokenUsage, directUsage, tokenKeyScan.
  set (rm := opt_get response "response_metadata").
  set (lo := opt_get response "llmOutput").
  destruct (truthy rm) eqn:Erm.
  - destruct (truthy (get rm "usage_metadata")); [reflexivity|].
    destruct (truthy (get rm "tokenUsage")); [reflexivity|].
    destruct (truthy lo) eqn:Elo; [|rewrite (falsy_get lo "tokenUsage" Elo)]; probe_tail.
  - rewrite !(falsy_get rm _ Erm).
    destruct (truthy lo) eqn:Elo; [|rewrite (falsy_get lo "tokenUsage" Elo)]; probe_tail.
Qed.
End TokenExtraction.

Section TokenExtractionClaims.
Import JS Chain Spec Examples.

(** C4, as stated, fails: with a direct usage object and nested usage
    metadata both present, the nested metadata is read, not the direct
    usage object, so the direct usage object is not probed first. *)
Lemma C4_direct_usage_not_first :
  directUsage bothUsages = Some (usage 1 2 3)
  /\ extractTokenUsage bothUsages = usage 12 34 46
  /\ ~ direct_usage_probed_first.
Proof.
  split; [reflexivity|]. split; [reflexivity|].
  intros H.
  specialize (H bothUsages (usage 1 2 3) eq_refl).
  vm_compute in H. discriminate H.
Qed.

(** C4, amended: extraction tries, in this order,
    [response_metadata.usage_metadata], [response_metadata.tokenUsage],
    [llmOutput.tokenUsage], the direct [usage] object and last a scan of
    the top-level fields whose key contains "token"; the first source
    present decides.  A response whose [response_metadata.usage_metadata]
    holds 12/34/46 yields exactly these counts, and a response on which
    every source is absent yields all zeros. *)
Theorem C4_extraction_order (response : jsval) :
  extractTokenUsage response =
    match first_some [nestedUsageMetadata; nestedTokenUsage; legacyTokenUsage;
                      directUsage; tokenKeyScan] response with
    | Some u => u
    | None => zeroUsage
    end
  /\ (get (opt_get response "response_metadata") "usage_metadata" = scenarioUsage ->
      extractTokenUsage response = usage 12 34 46)
  /\ (nestedUsageMetadata response = None ->
      nestedTokenUsage response = None ->
      legacyTokenUsage response = None ->
      directUsage response = None ->
      tokenKeyScan response = None ->
      extractTokenUsage response = usage 0 0 0).
Proof.
  split; [apply extractTokenUsage_chain|].
  split.
  - intros H. rewrite extractTokenUsage_chain.
    unfold first_some, nestedUsageMetadata. rewrite H. reflexivity.
  - intros H1 H2 H3 H4 H5. rewrite extractTokenUsage_chain.
    unfold first_some. rewrite H1, H2, H3, H4, H5. reflexivity.
Qed.

Lemma C4_extraction_order_witness :
  extractTokenUsage scenarioResponse = usage 12 34 46
  /\ extractTokenUsage bareResponse = usage 0 0 0.
Proof.
  split.
  - apply (proj1 (proj2 (C4_extraction_order scenarioResponse))). reflexivity.
  - apply (proj2 (proj2 (C4_extraction_order bareResponse))); reflexivity.
Defined.
End TokenExtractionClaims.

(* ================================================================== *)
(** * The completion client *)
(* ================================================================== *)

Section ClientFacts.
Import JS Chain Spec.

Variable env : Env.
Variable provider : Provider.

Lemma message_includes_ok (error : jsval) (k : string) (w : World) :
  message_ok error = true ->
  message_includes error k w = (Normal (messageHas error k), w).
Proof.
  unfold message_ok, message_includes, messageHas.
  destruct (opt_get error "message"); intros H; try reflexivity; discriminate H.
Qed.

(** On a well-formed error the [catch] block's cascade is first-match
    selection along [codeOrder]. *)
Lemma classify_ok (error : jsval) (w : World) :
  message_ok error = true ->
  classify error w = (Normal (userMessage (first_match codeOrder error)), w).
Proof.
  intros H. unfold classify, bind.
  rewrite !(message_includes_ok _ _ _ H).
  unfold first_match, codeOrder, find, signals.
  destruct (messageHas error "API key"); [reflexivity|].
  rewrite !(message_includes_ok _ _ _ H).
  destruct (messageHas error "model"); [reflexivity|].
  rewrite !(message_includes_ok _ _ _ H).
  destruct (messageHas error "rate limit"); [reflexivity|].
  rewrite !(message_includes_ok _ _ _ H).
  destruct (messageHas error "timeout"); [reflexivity|].
  destruct (status_is error 429); [reflexivity|].
  destruct (status_is error 401); reflexivity.
Qed.

Lemma classify_world (error : jsval) (w : World) : snd (classify error w) = w.
Proof.
  unfold classify, bind, message_includes.
  destruct (opt_get error "message") as [| |b|n| |s|items|fields]; simpl; try reflexivity;
    repeat match goal with
           | |- context [if ?c then _ else _] => destruct c; simpl; try reflexivity
           end.
Qed.

Lemma catchBlock_ok (startTime : Z) (error : jsval) (w : World) :
  message_ok error = true ->
  catchBlock startTime error w =
    (Normal (errorResult (userMessage (first_match codeOrder error)) (now w - startTime)), w).
Proof.
  intros H. unfold catchBlock, bind, Date_now. now rewrite (classify_ok _ _ H).
Qed.

Lemma catchBlock_world (startTime : Z) (error : jsval) (w : World) :
  snd (catchBlock startTime error w) = w.
Proof.
  unfold catchBlock, bind, Date_now.
  pose proof (classify_world error w) as H.
  destruct (classify error w) as [[m|e] w1]; simpl in *; congruence.
Qed.

Lemma try_catch_world {A} (body : M A) (handler : jsval -> M A) (w : World) :
  (forall e w1, snd (handler e w1) = w1) ->
  snd (try_catch body handler w) = snd (body w).
Proof.
  intros H. unfold try_catch. destruct (body w) as [[a|e] w1]; simpl; [reflexivity|apply H].
Qed.

Lemma generate_world (input : string) (w : World) :
  snd (generateCompletionWithTokens env provider input w)
  = snd (tryBlock env provider (now w) input w).
Proof.
  unfold generateCompletionWithTokens, bind, Date_now.
  apply try_catch_world. apply catchBlock_world.
Qed.
End ClientFacts.

Section ClientRuns.
Import JS Chain Spec.

Variable env : Env.
Variable provider : Provider.

Ltac run :=
  unfold tryBlock, fallbackCall, bind, try_catch, await, prop, throw, ret, Date_now.

Lemma tryBlock_unconfigured (startTime : Z) (input : string) (w : World) :
  env_missing (OPENAI_API_KEY env) = true ->
  exists message,
    tryBlock env provider startTime input w = (Throw (Error message), w)
    /\ includes message "API key" = true.
Proof.
  intros H. eexists. run. rewrite H. split; reflexivity.
Qed.

Lemma tryBlock_upstream_failure (startTime : Z) (input : string) (w : World)
      (latency : Z) (error : jsval) :
  env_missing (OPENAI_API_KEY env) = false ->
  respond provider (calls w) (ModelInvoke input) = (latency, Failed error) ->
  tryBlock env provider startTime input w =
    (Throw error,
     {| now := now w + latency; calls := (calls w ++ [ModelInvoke input])%list |}).
Proof.
  intros H R. run. rewrite H, R. reflexivity.
Qed.

(** Whatever the [try] block throws is the missing-key error, the
    error of the first outbound call, or a [TypeError] of the engine. *)
Lemma tryBlock_throws (startTime : Z) (input : string) (w w1 : World) (e : jsval) :
  tryBlock env provider startTime input w = (Throw e, w1) ->
  (exists latency, respond provider (calls w) (ModelInvoke input) = (latency, Failed e))
  \/ (exists message, e = Error message)
  \/ (exists message, e = TypeError message).
Proof.
  run.
  destruct (env_missing (OPENAI_API_KEY env)).
  { intros H; injection H as <- _. right; left; eauto. }
  destruct (respond provider (calls w) (ModelInvoke input)) as [latency [v|e0]].
  2:{ intros H; injection H as <- _. left; eauto. }
  destruct v as [| |b|n| |s|items|fields];
    try (intros H; injection H as <- _; right; right; eauto; fail).
  all: match goal with
       | |- context [get ?v "content"] => destruct (get v "content") as [| |b'|n'| |s'|items'|fields']
       end;
    try (intros H; injection H as <- _; right; right; eauto; fail).
  all: match goal with
       | |- context [is_zero ?t] => destruct (is_zero t)
       end; try discriminate.
  all: match goal with
       | |- context [respond provider ?h ?c] =>
           destruct (respond provider h c) as [latency2 [v2|e2]]
       end; try discriminate.
  all: destruct v2; discriminate.
Qed.

Lemma Error_message_ok (message : string) : message_ok (Error message) = true.
Proof. reflexivity. Qed.

Lemma TypeError_message_ok (message : string) : message_ok (TypeError message) = true.
Proof. reflexivity. Qed.

(** The client returns a result whenever the error of the first
    outbound call, if any, carries a usable message. *)
Lemma generate_returns (input : string) (w : World) :
  (forall latency error,
      respond provider (calls w) (ModelInvoke input) = (latency, Failed error) ->
      message_ok error = true) ->
  exists r w', generateCompletionWithTokens env provider input w = (Normal r, w').
Proof.
  intros Hok. unfold generateCompletionWithTokens, bind, Date_now, try_catch.
  destruct (tryBlock env provider (now w) input w) as [[r|e] w1] eqn:E; [eauto|].
  assert (message_ok e = true) as He.
  { destruct (tryBlock_throws _ _ _ _ _ E) as [[l Hl]|[[m ->]|[m ->]]];
      [eapply Hok, Hl | apply Error_message_ok | apply TypeError_message_ok]. }
  rewrite (catchBlock_ok _ _ _ He). eauto.
Qed.

(** The outbound calls of one run. *)
Lemma tryBlock_calls (startTime : Z) (input : string) (w : World) :
  calls (snd (tryBlock env provider startTime input w))
  = (calls w ++ outboundCalls env provider (calls w) input)%list.
Proof.
  run. unfold outboundCalls, needsFallback.
  destruct (env_missing (OPENAI_API_KEY env)).
  { simpl. now rewrite app_nil_r. }
  destruct (respond provider (calls w) (ModelInvoke input)) as [latency [v|e0]];
    [|reflexivity].
  destruct v as [| |b|n| |s|items|fields]; try reflexivity.
  all: match goal with
       | |- context [get ?v "content"] =>
           destruct (get v "content") as [| |b'|n'| |s'|items'|fields']
       end; try reflexivity.
  all: match goal with
       | |- context [is_zero ?t] => destruct (is_zero t)
       end; try reflexivity.
  all: match goal with
       | |- context [respond provider ?h ?c] =>
           destruct (respond provider h c) as [latency2 [v2|e2]]
       end; try (simpl; now rewrite <- app_assoc).
  all: destruct v2; simpl; now rewrite <- app_assoc.
Qed.

Lemma generate_calls (input : string) (w : World) :
  calls (snd (generateCompletionWithTokens env provider input w))
  = (calls w ++ outboundCalls env provider (calls w) input)%list.
Proof. rewrite generate_world. apply tryBlock_calls. Qed.

Lemma generate_upstream_failure (input : string) (w : World)
      (latency : Z) (error : jsval) :
  env_missing (OPENAI_API_KEY env) = false ->
  respond provider (calls w) (ModelInvoke input) = (latency, Failed error) ->
  message_ok error = true ->
  generateCompletionWithTokens env provider input w =
    (Normal (errorResult (userMessage (first_match codeOrder error)) latency),
     {| now := now w + latency; calls := (calls w ++ [ModelInvoke input])%list |}).
Proof.
  intros H R Hok. unfold generateCompletionWithTokens, bind, Date_now, try_catch.
  rewrite (tryBlock_upstream_failure _ _ _ _ _ H R).
  rewrite (catchBlock_ok _ _ _ Hok). simpl. do 3 f_equal. lia.
Qed.

Lemma generate_unconfigured (input : string) (w : World) :
  env_missing (OPENAI_API_KEY env) = true ->
  generateCompletionWithTokens env provider input w =
    (Normal (errorResult (userMessage Credential) 0), w).
Proof.
  intros H. unfold generateCompletionWithTokens, bind, Date_now, try_catch.
  destruct (tryBlock_unconfigured (now w) input w H) as [m [-> Hm]].
  rewrite (catchBlock_ok _ _ _ (Error_message_ok m)).
  assert (first_match codeOrder (Error m) = Credential) as ->.
  { unfold first_match, codeOrder, find, signals.
    change (messageHas (Error m) "API key") with (includes m "API key").
    now rewrite Hm. }
  do 3 f_equal. lia.
Qed.
End ClientRuns.

Section ClientClaims.
Import JS Chain Spec Examples.

(** C2, as stated, fails: for an upstream error that mentions a timeout
    and carries HTTP status 429 the client answers with the timeout
    message, whereas the stated priority ranks the rate-limit signal
    (HTTP 429) before the timeout. *)
Lemma C2_timeout_outranks_429 :
  generateCompletionWithTokens configured (failingWith timeout429) "hi" start
    = (Normal (errorResult (userMessage Timeout) 250),
       {| now := 1250; calls := [ModelInvoke "hi"] |})
  /\ first_match statedOrder timeout429 = TooManyRequests
  /\ ~ stated_priority_holds.
Proof.
  split; [reflexivity|]. split; [reflexivity|].
  intros H.
  specialize (H configured (failingWith timeout429) "hi" start 250 timeout429
                _ _ eq_refl eq_refl eq_refl).
  vm_compute in H. discriminate H.
Qed.

(** C2, amended: when the error of the upstream call carries a message
    that is absent or a string (or an array), the client does not throw
    and returns a result; if the credential is not configured, or the
    upstream call fails, the result's text is the message selected by
    the first match along credential text, model text, rate-limit text,
    timeout text, HTTP 429, HTTP 401, generic; its token counts are 0,
    its finishReason is "error" and its responseTime is the time elapsed
    between entry and return. *)
Theorem C2_error_results (env : Env) (provider : Provider) (input : string) (w : World) :
  (forall latency error,
      respond provider (calls w) (ModelInvoke input) = (latency, Failed error) ->
      message_ok error = true) ->
  exists r w',
    generateCompletionWithTokens env provider input w = (Normal r, w')
    /\ (env_missing (OPENAI_API_KEY env) = true ->
        reportsError r Credential (now w' - now w))
    /\ (forall latency error,
          env_missing (OPENAI_API_KEY env) = false ->
          respond provider (calls w) (ModelInvoke input) = (latency, Failed error) ->
          reportsError r (first_match codeOrder error) (now w' - now w)
          /\ now w' - now w = latency).
Proof.
  intros Hok.
  destruct (env_missing (OPENAI_API_KEY env)) eqn:K.
  - rewrite (generate_unconfigured env provider input w K).
    do 2 eexists; split; [reflexivity|]. split; [|discriminate].
    intros _. unfold reportsError. simpl. repeat split. lia.
  - destruct (respond provider (calls w) (ModelInvoke input)) as [latency [v|error]] eqn:R.
    + destruct (generate_returns env provider input w) as (r & w' & E).
      { intros l e H. rewrite R in H. discriminate H. }
      exists r, w'. split; [exact E|]. split; discriminate.
    + rewrite (generate_upstream_failure env provider input w latency error K R
                 (Hok _ _ eq_refl)).
      do 2 eexists; split; [reflexivity|]. split; [discriminate|].
      intros l e _ H. injection H as <- <-.
      unfold reportsError. simpl. repeat split; lia.
Qed.

Lemma C2_error_results_witness :
  exists r w',
    generateCompletionWithTokens configured (failingWith unauthorized) "hi" start
      = (Normal r, w')
    /\ Result.text r = JStr "Authentication failed: Please check your API key."
    /\ Result.finishReason r = JStr "error"
    /\ Result.responseTime r = 250.
Proof.
  destruct (C2_error_results configured (failingWith unauthorized) "hi" start)
    as (r & w' & E & _ & H).
  - intros latency error R. injection R as _ <-. reflexivity.
  - exists r, w'. split; [exact E|].
    destruct (H 250 unauthorized eq_refl eq_refl) as ((T & _ & _ & _ & F & RT) & L).
    split; [exact T|]. split; [exact F|]. now rewrite RT.
Defined.

(** An error whose message is a number makes the [catch] block itself
    throw: [includes] cannot be called on it. *)
Example odd_error_is_thrown :
  exists e w',
    generateCompletionWithTokens configured (failingWith oddError) "hi" start
    = (Throw e, w').
Proof. do 2 eexists. reflexivity. Qed.

(** C3, as stated, fails: when the model's answer carries no token
    count, a second outbound call follows the first. *)
Lemma C3_two_outbound_calls :
  calls (snd (generateCompletionWithTokens configured (answering bareResponse) "hi" start))
    = [ModelInvoke "hi"; CompletionsCreate "gpt-5-2025-08-07" "hi"]
  /\ ~ at_most_one_outbound_call.
Proof.
  split; [reflexivity|].
  intros H. specialize (H configured (answering bareResponse) "hi" start).
  vm_compute in H. lia.
Qed.

(** C3, amended: one request makes at most two outbound calls.  None is
    made without a configured credential; otherwise the chat model is
    invoked once, and the provider is called a second time, directly,
    exactly when that invocation succeeded with a text but no token
    count.  A failed call is never issued again. *)
Theorem C3_outbound_calls (env : Env) (provider : Provider) (input : string) (w : World) :
  let made := outboundCalls env provider (calls w) input in
  calls (snd (generateCompletionWithTokens env provider input w))
    = (calls w ++ made)%list
  /\ (List.length made <= 2)%nat
  /\ (env_missing (OPENAI_API_KEY env) = true -> made = [])
  /\ (forall latency error,
        env_missing (OPENAI_API_KEY env) = false ->
        respond provider (calls w) (ModelInvoke input) = (latency, Failed error) ->
        made = [ModelInvoke input])
  /\ (forall latency v,
        env_missing (OPENAI_API_KEY env) = false ->
        respond provider (calls w) (ModelInvoke input) = (latency, Fulfilled v) ->
        made = if needsFallback v
               then [ModelInvoke input;
                     CompletionsCreate (env_or (AI_MODEL env) "gpt-5-2025-08-07") input]
               else [ModelInvoke input]).
Proof.
  intros made. split; [apply generate_calls|].
  subst made. unfold outboundCalls.
  destruct (env_missing (OPENAI_API_KEY env)).
  - repeat split; try discriminate. simpl; lia.
  - destruct (respond provider (calls w) (ModelInvoke input)) as [latency [v|e]].
    + repeat split; try discriminate.
      * destruct (needsFallback v); simpl; lia.
      * intros l v' _ H. injection H as _ <-. reflexivity.
    + repeat split; try discriminate. simpl; lia.
Qed.

Lemma C3_outbound_calls_witness :
  outboundCalls configured (failingWith unauthorized) [] "hi" = [ModelInvoke "hi"]
  /\ outboundCalls configured (answering scenarioResponse) [] "hi" = [ModelInvoke "hi"].
Proof.
  split.
  - apply (proj1 (proj2 (proj2 (proj2
             (C3_outbound_calls configured (failingWith unauthorized) "hi" start))))
           250 unauthorized); reflexivity.
  - apply (proj2 (proj2 (proj2 (proj2
             (C3_outbound_calls configured (answering scenarioResponse) "hi" start))))
           120 scenarioResponse); reflexivity.
Defined.
End ClientClaims.

(* ================================================================== *)
(** * The HTTP endpoints *)
(* ================================================================== *)

Section EndpointFacts.
Import JS Chain Route Spec.

Variable env : Env.
Variable provider : Provider.

Lemma string_length_app (a b : string) :
  String.length (a ++ b) = (String.length a + String.length b)%nat.
Proof. induction a as [|c a IH]; simpl; [reflexivity|now rewrite IH]. Qed.

Lemma enhance_empty (input : string) : enhance "" input = input.
Proof. reflexivity. Qed.

Lemma enhance_nonempty (conversationId input : string) :
  conversationId <> "" ->
  enhance conversationId input = "[Conversation: " ++ conversationId ++ "]" ++ LF ++ input.
Proof.
  intros H. unfold enhance.
  destruct (String.eqb_spec conversationId ""); [contradiction|reflexivity].
Qed.

Lemma enhance_differs (conversationId input : string) :
  conversationId <> "" -> enhance conversationId input <> input.
Proof.
  intros H E. rewrite (enhance_nonempty _ _ H) in E.
  apply (f_equal String.length) in E.
  rewrite !string_length_app in E. simpl in E. lia.
Qed.

(** The synchronous handler on a non-empty input: status 200 around
    whatever the client returns, status 500 only if the client throws. *)
Lemma POST_run (reqBody : jsval) (w : World) :
  stringField reqBody "input" <> "" ->
  POST env provider reqBody w =
    match generateCompletionWithTokens env provider
            (enhance (stringField reqBody "conversationId") (stringField reqBody "input")) w
    with
    | (Normal result, w1) =>
        (Normal {| status := 200;
                   body := JObj
                     [ ("text", Result.text result);
                       ("conversationId", JStr (stringField reqBody "conversationId"));
                       ("timestamp", JNum (now w1));
                       ("model", JStr (env_or (AI_MODEL env) "gpt-4.1-nano-2025-04-14"));
                       ("tokensUsed", Result.tokensUsed result);
                       ("inputTokens", Result.inputTokens result);
                       ("outputTokens", Result.outputTokens result);
                       ("responseTime", JNum (Result.responseTime result));
                       ("finishReason", Result.finishReason result) ] |}, w1)
    | (Throw error, w1) =>
        (Normal {| status := 500;
                   body := JObj
                     [ ("error", js_or (opt_get error "message") (JStr "Error"));
                       ("conversationId", JStr (stringField reqBody "conversationId"));
                       ("timestamp", JNum (now w1));
                       ("tokensUsed", JNum 0);
                       ("inputTokens", JNum 0);
                       ("outputTokens", JNum 0);
                       ("responseTime", JNum 0);
                       ("finishReason", JStr "error") ] |}, w1)
    end.
Proof.
  intros H. unfold POST.
  destruct (String.eqb_spec (stringField reqBody "input") ""); [contradiction|].
  unfold try_catch, bind, Date_now, ret.
  destruct (generateCompletionWithTokens env provider _ w) as [[r|e] w1]; reflexivity.
Qed.

Lemma POST_calls (reqBody : jsval) (w : World) :
  stringField reqBody "input" <> "" ->
  calls (snd (POST env provider reqBody w)) =
    (calls w ++ outboundCalls env provider (calls w)
       (enhance (stringField reqBody "conversationId") (stringField reqBody "input")))%list.
Proof.
  intros H. rewrite (POST_run _ _ H), <- generate_calls.
  destruct (generateCompletionWithTokens env provider _ w) as [[r|e] w1]; reflexivity.
Qed.

Lemma POST_stream_calls (reqBody : jsval) (w : World) :
  stringField reqBody "input" <> "" ->
  calls (snd (POST_stream provider reqBody w)) =
    (calls w ++ [ChainStream (enhance (stringField reqBody "conversationId")
                                     (stringField reqBody "input"))])%list.
Proof.
  intros H. unfold POST_stream.
  destruct (String.eqb_spec (stringField reqBody "input") ""); [contradiction|].
  destruct (chunksOf provider (calls w) _) as [chunks raised]. reflexivity.
Qed.

Lemma outboundCalls_prompt (history : list Call) (input : string) (c : Call) :
  In c (outboundCalls env provider history input) -> promptOf c = input.
Proof.
  unfold outboundCalls.
  destruct (env_missing (OPENAI_API_KEY env)); [intros []|].
  destruct (respond provider history (ModelInvoke input)) as [latency [v|e]].
  - destruct (needsFallback v); simpl; intros [<-|[<-|[]]] || intros [<-|[]]; reflexivity.
  - simpl; intros [<-|[]]; reflexivity.
Qed.
End EndpointFacts.

Section EndpointClaims.
Import JS Chain Route Spec Examples.

(** C1, as stated, fails: when the upstream call is rejected, the client
    returns its error result and the endpoint wraps it in a 200 body
    whose finishReason is "error". *)
Lemma C1_status_200_with_error :
  exists resp w',
    POST configured (failingWith unauthorized) (JObj [("input", JStr "hi")]) start
      = (Normal resp, w')
    /\ status resp = 200
    /\ get (body resp) "finishReason" = JStr "error"
    /\ ~ sync_contract_holds.
Proof.
  do 2 eexists. split; [reflexivity|]. split; [reflexivity|]. split; [reflexivity|].
  intros H.
  destruct (H configured (failingWith unauthorized) (JObj [("input", JStr "hi")]) start
              _ _ ltac:(discriminate) eq_refl) as [[_ [F _]]|[F _]].
  - apply F. reflexivity.
  - discriminate F.
Qed.

(** C1, amended: for every non-empty input the synchronous endpoint
    answers 200 with the fields of the client's result whenever the
    client returns, and 500 with all usage fields 0 and finishReason
    "error" only when the client itself throws.  In particular, without
    a configured credential, or when the upstream call fails with an
    error carrying a usable message, the answer is a 200 body whose
    finishReason is "error", whose token fields are 0 and whose
    responseTime is the time the client measured. *)
Theorem C1_sync_responses (env : Env) (provider : Provider) (reqBody : jsval) (w : World) :
  stringField reqBody "input" <> "" ->
  let prompt :=
    enhance (stringField reqBody "conversationId") (stringField reqBody "input") in
  exists resp w',
    POST env provider reqBody w = (Normal resp, w')
    /\ ((exists r,
           generateCompletionWithTokens env provider prompt w = (Normal r, w')
           /\ status resp = 200
           /\ get (body resp) "text" = Result.text r
           /\ get (body resp) "tokensUsed" = Result.tokensUsed r
           /\ get (body resp) "inputTokens" = Result.inputTokens r
           /\ get (body resp) "outputTokens" = Result.outputTokens r
           /\ get (body resp) "responseTime" = JNum (Result.responseTime r)
           /\ get (body resp) "finishReason" = Result.finishReason r)
        \/ (exists e,
              generateCompletionWithTokens env provider prompt w = (Throw e, w')
              /\ status resp = 500
              /\ zeroed_error_body (body resp)))
    /\ (env_missing (OPENAI_API_KEY env) = true
        \/ (exists latency error,
              respond provider (calls w) (ModelInvoke prompt) = (latency, Failed error)
              /\ message_ok error = true) ->
        status resp = 200
        /\ get (body resp) "finishReason" = JStr "error"
        /\ get (body resp) "tokensUsed" = JNum 0
        /\ get (body resp) "inputTokens" = JNum 0
        /\ get (body resp) "outputTokens" = JNum 0
        /\ get (body resp) "responseTime" = JNum (now w' - now w)).
Proof.
  intros Hin prompt. rewrite (POST_run env provider reqBody w Hin). fold prompt.
  destruct (generateCompletionWithTokens env provider prompt w) as [[r|e] w1] eqn:G.
  - do 2 eexists. split; [reflexivity|]. split.
    + left. exists r. repeat split.
    + intros Hfail. simpl.
      destruct (env_missing (OPENAI_API_KEY env)) eqn:K.
      * rewrite (generate_unconfigured env provider prompt w K) in G.
        injection G as <- <-. repeat split. simpl. do 2 f_equal. lia.
      * destruct Hfail as [F|(latency & error & R & Hok)]; [discriminate F|].
        rewrite (generate_upstream_failure env provider prompt w _ _ K R Hok) in G.
        injection G as <- <-. repeat split. simpl. do 2 f_equal. lia.
  - do 2 eexists. split; [reflexivity|]. split.
    + right. exists e. repeat split.
    + intros Hfail. exfalso.
      destruct (env_missing (OPENAI_API_KEY env)) eqn:K.
      * rewrite (generate_unconfigured env provider prompt w K) in G. discriminate G.
      * destruct Hfail as [F|(latency & error & R & Hok)]; [discriminate F|].
        rewrite (generate_upstream_failure env provider prompt w _ _ K R Hok) in G.
        discriminate G.
Qed.

Lemma C1_sync_responses_witness :
  exists resp w',
    POST configured (failingWith unauthorized)
         (JObj [("input", JStr "hi"); ("conversationId", JStr "conv_1")]) start
      = (Normal resp, w')
    /\ status resp = 200
    /\ get (body resp) "finishReason" = JStr "error".
Proof.
  destruct (C1_sync_responses configured (failingWith unauthorized)
              (JObj [("input", JStr "hi"); ("conversationId", JStr "conv_1")]) start)
    as (resp & w' & E & _ & H).
  - simpl. discriminate.
  - exists resp, w'. split; [exact E|].
    destruct H as (S & F & _).
    + right. exists 250, unauthorized. split; reflexivity.
    + split; [exact S|exact F].
Defined.

(** The 500 answer is reachable: the client throws on an error whose
    message is a number. *)
Example sync_500_reachable :
  exists resp w',
    POST configured (failingWith oddError) (JObj [("input", JStr "hi")]) start
      = (Normal resp, w')
    /\ status resp = 500 /\ zeroed_error_body (body resp).
Proof. do 2 eexists. split; [reflexivity|]. repeat split. Qed.

(** C10: with a non-empty conversationId both endpoints send the
    provider the input preceded by the line [[Conversation: <id>]],
    which differs from the request's input; with an empty or absent
    conversationId they send the input unchanged. *)
Theorem C10_conversation_prefix (env : Env) (provider : Provider)
        (reqBody : jsval) (w : World) :
  let input := stringField reqBody "input" in
  let conversationId := stringField reqBody "conversationId" in
  input <> "" ->
  exists prompt sent,
    calls (snd (POST env provider reqBody w)) = (calls w ++ sent)%list
    /\ (forall c, In c sent -> promptOf c = prompt)
    /\ (env_missing (OPENAI_API_KEY env) = false -> In (ModelInvoke prompt) sent)
    /\ calls (snd (POST_stream provider reqBody w)) = (calls w ++ [ChainStream prompt])%list
    /\ (conversationId <> "" ->
        prompt = "[Conversation: " ++ conversationId ++ "]" ++ LF ++ input
        /\ prompt <> input)
    /\ (conversationId = "" -> prompt = input).
Proof.
  intros input conversationId Hin.
  exists (enhance conversationId input),
         (outboundCalls env provider (calls w) (enhance conversationId input)).
  split; [apply POST_calls, Hin|].
  split; [intros c; apply outboundCalls_prompt|].
  split.
  { intros K. unfold outboundCalls. rewrite K.
    destruct (respond provider (calls w) _) as [latency [v|e]];
      [destruct (needsFallback v)|]; simpl; auto. }
  split; [apply POST_stream_calls, Hin|].
  split.
  - intros Hc. split; [apply enhance_nonempty, Hc|apply enhance_differs, Hc].
  - intros ->. apply enhance_empty.
Qed.

Lemma C10_conversation_prefix_witness :
  exists prompt sent,
    calls (snd (POST configured (answering scenarioResponse)
                     (JObj [("input", JStr "hi"); ("conversationId", JStr "c1")]) start))
      = sent
    /\ In (ModelInvoke prompt) sent
    /\ prompt = "[Conversation: c1]" ++ LF ++ "hi".
Proof.
  destruct (C10_conversation_prefix configured (answering scenarioResponse)
              (JObj [("input", JStr "hi"); ("conversationId", JStr "c1")]) start)
    as (prompt & sent & E & _ & I & _ & P & _).
  - simpl. discriminate.
  - exists prompt, sent. split; [exact E|]. split; [apply I; reflexivity|].
    apply P. simpl. discriminate.
Defined.
End EndpointClaims.

(* ================================================================== *)
(** * Title derivation *)
(* ================================================================== *)

Section TitleFacts.
Import JS Store Spec.

Lemma filter_head_find {A B} (f : A -> bool) (l : list A) (g : A -> B) (d : B) :
  match filter f l with x :: _ => g x | [] => d end
  = match find f l with Some x => g x | None => d end.
Proof.
  induction l as [|a l IH]; simpl; [reflexivity|]. now destruct (f a).
Qed.

Lemma toLowerCase_prompt (m : string) :
  toLowerCase (titlePrompt m) = loweredPrompt ++ toLowerCase m.
Proof. reflexivity. Qed.

(** No word the heuristic looks for occurs in the fixed part of the
    prompt or straddles its end. *)
Lemma prompt_is_neutral :
  Forall (fun word => forall s, includes (loweredPrompt ++ s) word = includes s word)
         (keywords ++ ["create"; "build"; "make"; "fix"; "debug"; "error";
                       "learn"; "teach"; "tutorial"]).
Proof. repeat constructor. Qed.

Lemma prompt_neutral_for (word : string) (m : string) :
  In word (keywords ++ ["create"; "build"; "make"; "fix"; "debug"; "error";
                        "learn"; "teach"; "tutorial"]) ->
  includes (toLowerCase (titlePrompt m)) word = mentions m word.
Proof.
  intros H. rewrite toLowerCase_prompt.
  exact (proj1 (Forall_forall _ _) prompt_is_neutral word H (toLowerCase m)).
Qed.

Ltac neutral :=
  rewrite prompt_neutral_for
    by (unfold keywords; simpl; repeat first [left; reflexivity | right]).

Lemma generateTitle_prompt (m : string) :
  generateTitle (titlePrompt m) = titleOf m.
Proof.
  unfold generateTitle, titleOf.
  rewrite (filter_ext_in _ (mentions m)).
  2:{ intros k Hk. apply prompt_neutral_for, in_or_app. now left. }
  rewrite (filter_head_find (mentions m) keywords
             (fun k => toUpperCase (charAt0 k) ++ slice1 k ++ " Discussion")).
  change keywords with topicKeywords.
  destruct (find (mentions m) topicKeywords) as [k|].
  - destruct k; reflexivity.
  - repeat neutral. unfold existsb. now rewrite !orb_false_r, !orb_assoc.
Qed.
End TitleFacts.

Section TitleCleaning.
Import JS Store Spec.

Lemma strip_final_punct_snoc (s : string) (c : ascii) :
  strip_final_punct (s ++ String c EmptyString)
  = if is_final_punct c then s else s ++ String c EmptyString.
Proof.
  induction s as [|a s IH].
  - reflexivity.
  - change (String a s ++ String c "") with (String a (s ++ String c "")).
    assert (forall t, t <> "" -> strip_final_punct (String a t) = String a (strip_final_punct t))
      as Hcons by (intros [|b t] Ht; [contradiction|reflexivity]).
    rewrite Hcons by (destruct s; discriminate).
    rewrite IH. now destruct (is_final_punct c).
Qed.

Lemma string_of_list_ascii_app (a b : list ascii) :
  string_of_list_ascii (a ++ b) = string_of_list_ascii a ++ string_of_list_ascii b.
Proof. induction a as [|c a IH]; simpl; [reflexivity|now rewrite IH]. Qed.

Lemma lastChar_snoc (s : string) (c : ascii) :
  lastChar (s ++ String c EmptyString) = Some c.
Proof.
  induction s as [|a s IH]; [reflexivity|].
  change (String a s ++ String c "") with (String a (s ++ String c "")).
  simpl. rewrite IH. now destruct s.
Qed.

Lemma strip_final_punct_spec (t : string) :
  strip_final_punct t = withoutFinalPunct t.
Proof.
  unfold withoutFinalPunct.
  destruct (rev (list_ascii_of_string t)) as [|c before] eqn:E.
  - apply (f_equal (@rev ascii)) in E. rewrite rev_involutive in E. simpl in E.
    apply (f_equal string_of_list_ascii) in E.
    rewrite string_of_list_ascii_of_string in E. now subst t.
  - apply (f_equal (@rev ascii)) in E. rewrite rev_involutive in E. simpl in E.
    apply (f_equal string_of_list_ascii) in E.
    rewrite string_of_list_ascii_of_string, string_of_list_ascii_app in E. simpl in E.
    subst t. rewrite strip_final_punct_snoc. reflexivity.
Qed.

Lemma finalizeTitle_spec (cleanTitle : string) :
  finalizeTitle cleanTitle = orNewConversation (withoutFinalPunct (limit50 cleanTitle)).
Proof.
  unfold finalizeTitle, orNewConversation, limit50, substring0.
  rewrite !strip_final_punct_spec.
  destruct (Nat.ltb_spec 50 (String.length cleanTitle));
    destruct (Nat.leb_spec (String.length cleanTitle) 50); try lia; reflexivity.
Qed.

Lemma strip_final_punct_length (s : string) :
  (String.length (strip_final_punct s) <= String.length s)%nat.
Proof.
  induction s as [|a s IH]; simpl; [lia|].
  destruct s as [|b s]; [destruct (is_final_punct a); simpl; lia|].
  simpl in *. lia.
Qed.

Lemma substring_length (n : nat) (s : string) :
  (String.length (String.substring 0 n s) <= n)%nat.
Proof.
  revert s; induction n as [|n IH]; intros [|c s]; simpl; try lia.
  specialize (IH s). lia.
Qed.

Lemma limit50_length (t : string) : (String.length (limit50 t) <= 50)%nat.
Proof.
  unfold limit50. destruct (Nat.leb_spec (String.length t) 50); [assumption|].
  rewrite string_length_app. pose proof (substring_length 47 t). simpl. lia.
Qed.

Lemma orNewConversation_length (t : string) :
  (String.length t <= 50 -> String.length (orNewConversation t) <= 50)%nat.
Proof. unfold orNewConversation. destruct (t =? "")%string; simpl; lia. Qed.

Lemma orNewConversation_nonempty (t : string) : orNewConversation t <> "".
Proof.
  unfold orNewConversation. destruct (String.eqb_spec t ""); [discriminate|assumption].
Qed.

Lemma finalizeTitle_bounds (c : string) :
  (String.length (finalizeTitle c) <= 50)%nat /\ finalizeTitle c <> "".
Proof.
  rewrite finalizeTitle_spec. split; [|apply orNewConversation_nonempty].
  apply orNewConversation_length. rewrite <- strip_final_punct_spec.
  pose proof (strip_final_punct_length (limit50 c)). pose proof (limit50_length c). lia.
Qed.

(** What [generateConversationTitle] makes of the action's outcome. *)
Lemma title_of_string (ctx : Ctx) (m raw : string) :
  runAction ctx (titlePrompt m) = Resolved (JStr raw) ->
  generateConversationTitle ctx m = cleaned raw.
Proof.
  intros H. unfold generateConversationTitle. fold (titlePrompt m). rewrite H.
  rewrite finalizeTitle_spec. reflexivity.
Qed.

Lemma title_of_rejection (ctx : Ctx) (m : string) (e : jsval) :
  runAction ctx (titlePrompt m) = Rejected e ->
  generateConversationTitle ctx m = "New Conversation".
Proof.
  intros H. unfold generateConversationTitle. fold (titlePrompt m). now rewrite H.
Qed.

Lemma title_bounds (ctx : Ctx) (m : string) :
  (String.length (generateConversationTitle ctx m) <= 50)%nat
  /\ generateConversationTitle ctx m <> "".
Proof.
  unfold generateConversationTitle.
  destruct (runAction ctx _) as [[| |b|n| |s|items|fields]|e];
    try apply finalizeTitle_bounds; simpl; split; (lia || discriminate).
Qed.

Lemma titleOf_heuristic (m : string) : In (titleOf m) heuristicTitles.
Proof.
  unfold titleOf, heuristicTitles. apply in_or_app.
  destruct (find (mentions m) topicKeywords) as [k|] eqn:F.
  - left. apply in_map_iff. exists k. split; [reflexivity|].
    now apply find_some in F.
  - right. repeat match goal with
                  | |- context [if ?c then _ else _] => destruct c
                  end; simpl; tauto.
Qed.

(** The heuristic's titles pass through the cleaning unchanged and do
    not end in punctuation. *)
Lemma heuristic_titles_clean :
  forallb (fun t => (cleaned t =? t)%string
                    && match lastChar t with
                       | Some c => negb (is_final_punct c)
                       | None => false
                       end) heuristicTitles = true.
Proof. vm_compute. reflexivity. Qed.

Lemma titleOf_clean (m : string) :
  cleaned (titleOf m) = titleOf m /\ no_final_punct (titleOf m).
Proof.
  pose proof (proj1 (forallb_forall _ _) heuristic_titles_clean _ (titleOf_heuristic m)) as H.
  apply andb_true_iff in H as [H1 H2]. split; [now apply String.eqb_eq|].
  intros before c E. rewrite E, lastChar_snoc in H2.
  now apply negb_true_iff in H2.
Qed.
End TitleCleaning.

Section TitleClaims.
Import JS Store Spec Examples.

(** C6, at the failing input.  The [generateTitle] handler computes the
    keyword heuristic of the claim on the lower-cased message ("Help
    Discussion" for "help me fix a bug"), but [generateConversationTitle]
    reaches it through [ctx.runAction], which the mutations calling it
    do not have: the call throws, the [catch] answers, and the title
    derived for every message is "New Conversation".  In any context the
    function is pinned down by the outcome of the call: a string is
    trimmed, limited to 50 characters and loses one final [.], [!] or
    [?]; anything else (a rejection, undefined, null, a number, an
    object) gives "New Conversation". *)
Theorem C6_title_is_fallback (u : option Users.Doc) (m : string) :
  generateTitle (titlePrompt m) = titleOf m
  /\ generateConversationTitle (mutationCtx u) m = "New Conversation"
  /\ titleOf "help me fix a bug" = "Help Discussion"
  /\ generateConversationTitle (mutationCtx u) "help me fix a bug"
     <> titleOf "help me fix a bug"
  /\ (forall ctx raw,
        runAction ctx (titlePrompt m) = Resolved (JStr raw) ->
        generateConversationTitle ctx m = cleaned raw)
  /\ (forall ctx,
        (forall raw, runAction ctx (titlePrompt m) <> Resolved (JStr raw)) ->
        generateConversationTitle ctx m = "New Conversation").
Proof.
  split; [apply generateTitle_prompt|].
  split; [reflexivity|].
  split; [reflexivity|].
  split; [discriminate|].
  split; [intros ctx raw; apply title_of_string|].
  intros ctx H. unfold generateConversationTitle.
  fold (titlePrompt m). destruct (runAction ctx (titlePrompt m)) as [value|e] eqn:E.
  - destruct value as [| |b|n| |s|items|fields]; try reflexivity. now destruct (H s).
  - reflexivity.
Qed.

Lemma C6_title_is_fallback_witness :
  generateConversationTitle (resolving (JStr "  Fix my build!  ")) "help" = "Fix my build"
  /\ generateConversationTitle (resolving (JNum 3)) "help" = "New Conversation"
  /\ generateConversationTitle (resolving JUndefined) "help" = "New Conversation".
Proof.
  destruct (C6_title_is_fallback None "help") as (_ & _ & _ & _ & S & F).
  split; [exact (S (resolving (JStr "  Fix my build!  ")) _ eq_refl)|].
  split; apply F; discriminate.
Defined.
End TitleClaims.

(* ================================================================== *)
(** * The conversation store *)
(* ================================================================== *)

Section SortFacts.
Import Store.
Context {A : Type} (leb : A -> A -> bool).

Lemma insert_perm (x : A) (l : list A) : Permutation (insert leb x l) (x :: l).
Proof.
  induction l as [|y l IH]; simpl; [reflexivity|].
  destruct (leb x y); [reflexivity|].
  rewrite IH. apply perm_swap.
Qed.

Lemma sort_perm (l : list A) : Permutation (sort leb l) l.
Proof.
  induction l as [|x l IH]; simpl; [reflexivity|].
  rewrite insert_perm. now constructor.
Qed.

Lemma sort_in (l : list A) (x : A) : In x (sort leb l) <-> In x l.
Proof.
  split; apply Permutation_in; [apply sort_perm|symmetry; apply sort_perm].
Qed.

Lemma sort_length (l : list A) : List.length (sort leb l) = List.length l.
Proof. apply Permutation_length, sort_perm. Qed.

Hypothesis leb_total : forall a b, leb a b = true \/ leb b a = true.
Hypothesis leb_trans : forall a b c, leb a b = true -> leb b c = true -> leb a c = true.

Lemma insert_sorted (x : A) (l : list A) :
  StronglySorted (fun a b => leb a b = true) l ->
  StronglySorted (fun a b => leb a b = true) (insert leb x l).
Proof.
  induction l as [|y l IH]; simpl; intros S.
  - constructor; constructor.
  - apply StronglySorted_inv in S as [S F].
    destruct (leb x y) eqn:E.
    + constructor; [constructor; assumption|].
      constructor; [exact E|].
      eapply Forall_impl; [|exact F]. intros z Hz. eapply leb_trans; eassumption.
    + constructor; [apply IH, S|].
      apply (Permutation_Forall (Permutation_sym (insert_perm x l))).
      constructor; [|exact F].
      destruct (leb_total x y) as [H|H]; [congruence|exact H].
Qed.

Lemma sort_sorted (l : list A) :
  StronglySorted (fun a b => leb a b = true) (sort leb l).
Proof.
  induction l as [|x l IH]; simpl; [constructor|]. now apply insert_sorted.
Qed.
End SortFacts.

Section ListFacts.
Context {A : Type}.

Lemma filter_length_perm (f : A -> bool) (l l' : list A) :
  Permutation l l' -> List.length (filter f l) = List.length (filter f l').
Proof.
  induction 1 as [|x l l' _ IH|x y l|l l' l'' _ IH1 _ IH2]; simpl.
  - reflexivity.
  - destruct (f x); simpl; congruence.
  - destruct (f x), (f y); reflexivity.
  - congruence.
Qed.

Lemma filter_nil_iff (f : A -> bool) (l : list A) :
  filter f l = [] <-> forall x, In x l -> f x = false.
Proof.
  induction l as [|a l IH]; simpl.
  - split; [intros _ x []|reflexivity].
  - destruct (f a) eqn:E.
    + split; [discriminate|]. intros H. specialize (H a (or_introl eq_refl)). congruence.
    + rewrite IH. split.
      * intros H x [<-|Hx]; [exact E|now apply H].
      * intros H x Hx. apply H. now right.
Qed.

Lemma length_zero_nil (l : list A) : (List.length l =? 0)%nat = true <-> l = [].
Proof. destruct l; simpl; split; congruence. Qed.

Lemma filter_sorted (R : A -> A -> Prop) (f : A -> bool) (l : list A) :
  StronglySorted R l -> StronglySorted R (filter f l).
Proof.
  induction 1 as [|a l S IH F]; simpl; [constructor|].
  destruct (f a); [|exact IH].
  constructor; [exact IH|].
  apply Forall_forall. intros x Hx. apply filter_In in Hx as [Hx _].
  exact (proj1 (Forall_forall _ _) F x Hx).
Qed.

Lemma filter_length_split (f : A -> bool) (l : list A) :
  List.length l
  = (List.length (filter f l) + List.length (filter (fun x => negb (f x)) l))%nat.
Proof.
  induction l as [|a l IH]; simpl; [reflexivity|].
  destruct (f a); simpl; lia.
Qed.

Lemma NoDup_map_injective {B} (g : A -> B) (l : list A) (a b : A) :
  NoDup (map g l) -> In a l -> In b l -> g a = g b -> a = b.
Proof.
  induction l as [|x l IH]; simpl; [intros _ []|].
  intros N Ha Hb E. apply NoDup_cons_iff in N as [Nx N].
  destruct Ha as [<-|Ha], Hb as [<-|Hb]; auto.
  - exfalso. apply Nx. rewrite E. now apply in_map.
  - exfalso. apply Nx. rewrite <- E. now apply in_map.
Qed.
End ListFacts.

Section StoreFacts.
Import JS Store.

Lemma index_leb_total (a b : ChatMessage) :
  index_leb a b = true \/ index_leb b a = true.
Proof.
  unfold index_leb.
  destruct (Z.ltb_spec (_creationTime a) (_creationTime b)); [now left|].
  destruct (Z.ltb_spec (_creationTime b) (_creationTime a)); [now right|].
  assert (_creationTime a = _creationTime b) as -> by lia.
  rewrite Z.eqb_refl. simpl.
  destruct (Z.leb_spec (_id a) (_id b)); [now left|right].
  apply Z.leb_le. lia.
Qed.

Lemma index_leb_iff (a b : ChatMessage) :
  index_leb a b = true <->
  _creationTime a < _creationTime b
  \/ (_creationTime a = _creationTime b /\ _id a <= _id b).
Proof.
  unfold index_leb.
  rewrite orb_true_iff, andb_true_iff, Z.ltb_lt, Z.eqb_eq, Z.leb_le. reflexivity.
Qed.

Lemma index_leb_trans (a b c : ChatMessage) :
  index_leb a b = true -> index_leb b c = true -> index_leb a c = true.
Proof. rewrite !index_leb_iff. lia. Qed.

Lemma index_leb_time (a b : ChatMessage) :
  index_leb a b = true -> _creationTime a <= _creationTime b.
Proof. rewrite index_leb_iff. lia. Qed.

Lemma byConversation_in (db : Db) (cid : string) (m : ChatMessage) :
  In m (byConversation db cid) <-> In m (docs db) /\ conversationId m = cid.
Proof.
  unfold byConversation. rewrite sort_in, filter_In, String.eqb_eq. reflexivity.
Qed.

Lemma byUser_in (db : Db) (uid : Z) (m : ChatMessage) :
  In m (byUser db uid) <-> In m (docs db) /\ userId m = uid.
Proof. unfold byUser. rewrite sort_in, filter_In, Z.eqb_eq. reflexivity. Qed.

Lemma byConversation_sorted (db : Db) (cid : string) :
  StronglySorted (fun a b => index_leb a b = true) (byConversation db cid).
Proof. apply sort_sorted; [apply index_leb_total|apply index_leb_trans]. Qed.

Lemma byConversation_empty (db : Db) (cid : string) :
  (List.length (byConversation db cid) =? 0)%nat = true
  <-> forall m, In m (docs db) -> conversationId m <> cid.
Proof.
  rewrite length_zero_nil. split.
  - intros E m Hm Hc. assert (In m (byConversation db cid)) as H
      by (apply byConversation_in; auto).
    rewrite E in H. exact H.
  - intros H. destruct (byConversation db cid) as [|m l] eqn:E; [reflexivity|].
    assert (In m (byConversation db cid)) as Hm by (rewrite E; now left).
    apply byConversation_in in Hm as [Hm Hc]. now apply H in Hm.
Qed.

Lemma existingTitle_some (l : list ChatMessage) :
  (exists m, In m l /\ has_title m = true) ->
  exists m, In m l /\ has_title m = true /\ existingTitle l = conversationTitle m.
Proof.
  intros (m0 & Hin & Ht). unfold existingTitle.
  destruct (find has_title l) as [m|] eqn:F.
  - apply find_some in F as [Hm Hm']. exists m. auto.
  - apply (find_none _ _ F) in Hin. congruence.
Qed.

Lemma existingTitle_none (l : list ChatMessage) :
  (forall m, In m l -> has_title m = false) -> existingTitle l = None.
Proof.
  intros H. unfold existingTitle.
  destruct (find has_title l) as [m|] eqn:F; [|reflexivity].
  apply find_some in F as [Hm Hm']. apply H in Hm. congruence.
Qed.
End StoreFacts.

Section SaveMessageClaims.
Import JS Store Spec Examples.

(** C5: saveMessage throws "User not authenticated" and stores nothing
    without a resolvable user.  Otherwise it appends one message; a
    user message that finds no earlier message under its conversation
    id carries the derived title; every other message carries the title
    found on an earlier message of the conversation when there is one,
    and none otherwise. *)
Theorem C5_saveMessage_title (ctx : Ctx) (args : Args.saveMessage) (db : Db) :
  let earlier m := In m (docs db) /\ conversationId m = Args.conversationId args in
  (getCurrentUser ctx = None -> saveMessage ctx args db = (Thrown Unauthenticated, db))
  /\ (forall user,
        getCurrentUser ctx = Some user ->
        exists stored,
          saveMessage ctx args db
            = (Ok (nextId db),
               {| docs := docs db ++ [stored];
                  nextId := nextId db + 1;
                  clock := clock db |})
          /\ userId stored = Users._id user
          /\ role stored = Args.role args
          /\ content stored = Args.content args
          /\ conversationId stored = Args.conversationId args
          /\ (Args.role args = User -> (forall m, ~ earlier m) ->
              conversationTitle stored
              = Some (generateConversationTitle ctx (Args.content args)))
          /\ (Args.role args = Assistant \/ (exists m, earlier m) ->
              ((exists m, earlier m /\ has_title m = true) ->
               exists m, earlier m /\ has_title m = true
                         /\ conversationTitle stored = conversationTitle m)
              /\ ((forall m, earlier m -> has_title m = false) ->
                  conversationTitle stored = None))).
Proof.
  intros earlier. split.
  { intros H. unfold saveMessage. now rewrite H. }
  intros user H. unfold saveMessage. rewrite H.
  eexists. split; [reflexivity|]. simpl. do 4 (split; [reflexivity|]). split.
  - intros -> Hnone.
    assert ((List.length (byConversation db (Args.conversationId args)) =? 0)%nat = true)
      as -> by (apply byConversation_empty; intros m Hm Hc; apply (Hnone m); now split).
    reflexivity.
  - intros Hlater. split.
    + intros (m0 & Hm0 & Ht0).
      assert (exists m, In m (byConversation db (Args.conversationId args))
                        /\ has_title m = true) as Hex
        by (exists m0; split; [now apply byConversation_in|exact Ht0]).
      apply existingTitle_some in Hex as (m & Hm & Ht & E).
      apply byConversation_in in Hm.
      exists m. split; [exact Hm|]. split; [exact Ht|].
      destruct (Args.role args); [|exact E].
      destruct (List.length _ =? 0)%nat eqn:L; [|exact E].
      exfalso. apply (proj1 (byConversation_empty _ _) L m0); apply Hm0.
    + intros Hnone.
      assert (existingTitle (byConversation db (Args.conversationId args)) = None) as E
        by (apply existingTitle_none; intros m Hm; apply Hnone;
            now apply byConversation_in).
      destruct (Args.role args); [|exact E].
      destruct (List.length _ =? 0)%nat eqn:L; [|exact E].
      exfalso. destruct Hlater as [F|(m & Hm)]; [discriminate F|].
      apply (proj1 (byConversation_empty _ _) L m); apply Hm.
Qed.

Lemma C5_saveMessage_title_witness :
  (exists stored db',
      saveMessage (asUser alice) (userSays "explain monads" "fresh") table = (Ok 5, db')
      /\ docs db' = (docs table ++ [stored])%list
      /\ conversationTitle stored = Some "New Conversation")
  /\ (exists stored db' m,
        saveMessage (asUser alice) (userSays "what about code" "c1") table = (Ok 5, db')
        /\ docs db' = (docs table ++ [stored])%list
        /\ In m (docs table) /\ has_title m = true
        /\ conversationTitle stored = conversationTitle m).
Proof.
  split.
  - destruct (proj2 (C5_saveMessage_title (asUser alice) (userSays "explain monads" "fresh")
                       table) alice eq_refl)
      as (stored & E & _ & _ & _ & _ & T & _).
    exists stored. eexists. split; [exact E|]. split; [reflexivity|].
    rewrite T; [reflexivity|reflexivity|].
    intros m [Hm Hc]. simpl in Hm.
    repeat (destruct Hm as [<-|Hm]; [discriminate Hc|]). exact Hm.
  - destruct (proj2 (C5_saveMessage_title (asUser alice) (userSays "what about code" "c1")
                       table) alice eq_refl)
      as (stored & E & _ & _ & _ & _ & _ & T).
    assert (exists m, (In m (docs table) /\ conversationId m = "c1") /\ has_title m = true)
      as Hex.
    { exists (message 2 20 1 User "help me fix a bug" "c1" (Some "Old title")).
      simpl. repeat split; tauto. }
    destruct T as [T _]; [right; destruct Hex as (m & Hm & _); now exists m|].
    destruct (T Hex) as (m & [Hm _] & Ht & Et).
    exists stored. eexists. exists m.
    split; [exact E|]. split; [reflexivity|]. repeat split; assumption.
Defined.
End SaveMessageClaims.

Section BulkUpdates.
Import JS Store Spec.

Lemma filter_all {A} (l : list A) : filter (fun _ => true) l = l.
Proof. induction l as [|a l IH]; simpl; [reflexivity|now rewrite IH]. Qed.

Lemma filter_twice {A} (f g : A -> bool) (l : list A) :
  filter f (filter g l) = filter (fun x => g x && f x) l.
Proof.
  induction l as [|a l IH]; simpl; [reflexivity|].
  destruct (g a); simpl; [destruct (f a)|]; now rewrite IH.
Qed.

Lemma listed_in (l : list ChatMessage) (m : ChatMessage) : In m l -> listed l m = true.
Proof.
  intros H. apply existsb_exists. exists m. split; [exact H|apply Z.eqb_refl].
Qed.

Lemma deleted_docs (l : list ChatMessage) (db : Db) :
  docs (fold_left (fun d message => db_delete (_id message) d) l db)
  = filter (fun m => negb (listed l m)) (docs db).
Proof.
  revert db; induction l as [|x l IH]; intros db; simpl.
  - now rewrite filter_all.
  - rewrite IH. simpl. rewrite filter_twice.
    apply filter_ext. intros m. now rewrite negb_orb.
Qed.

Lemma patched_docs (title : string) (l : list ChatMessage) (db : Db) :
  docs (fold_left (fun d message => db_patch_title (_id message) title d) l db)
  = map (fun m => if listed l m then set_title title m else m) (docs db).
Proof.
  revert db; induction l as [|x l IH]; intros db; simpl.
  - now rewrite map_id.
  - rewrite IH. simpl. rewrite map_map. apply map_ext. intros m.
    destruct (_id m =? _id x) eqn:E; simpl.
    + unfold listed. now destruct (existsb _ l).
    + reflexivity.
Qed.

(** With unique ids, the ids of a conversation's messages single out
    exactly the messages of that conversation. *)
Lemma listed_byConversation (db : Db) (cid : string) (m : ChatMessage) :
  NoDup (map _id (docs db)) ->
  In m (docs db) ->
  listed (byConversation db cid) m = (conversationId m =? cid)%string.
Proof.
  intros N Hm. destruct (String.eqb_spec (conversationId m) cid) as [E|E].
  - apply listed_in, byConversation_in. now split.
  - apply not_true_is_false. intros H.
    apply existsb_exists in H as (x & Hx & Hid).
    apply byConversation_in in Hx as [Hx Hc]. apply Z.eqb_eq in Hid.
    apply E. rewrite (NoDup_map_injective _id (docs db) m x N Hm Hx Hid). exact Hc.
Qed.
End BulkUpdates.

Section DeleteClaims.
Import JS Store Spec Examples.

(** C8: for an authenticated caller and a table with unique document
    ids, deleteConversation removes every message under the
    conversation id, whoever owns it, as soon as the caller owns one of
    them, and returns how many messages it removed; when the caller
    owns none, it throws "Conversation not found or access denied" and
    leaves the table as it was. *)
Theorem C8_deleteConversation (ctx : Ctx) (user : Users.Doc) (cid : string) (db : Db) :
  getCurrentUser ctx = Some user ->
  unique_ids db ->
  let owned m :=
    In m (docs db) /\ conversationId m = cid /\ userId m = Users._id user in
  ((exists m, owned m) ->
   exists n db',
     deleteConversation ctx cid db = (Ok {| deleted := n |}, db')
     /\ docs db' = filter (fun m => negb (conversationId m =? cid)%string) (docs db)
     /\ (forall m, In m (docs db') <-> In m (docs db) /\ conversationId m <> cid)
     /\ n = Z.of_nat (List.length (filter (fun m => (conversationId m =? cid)%string)
                                          (docs db)))
     /\ n = Z.of_nat (List.length (docs db)) - Z.of_nat (List.length (docs db')))
  /\ ((forall m, ~ owned m) ->
      deleteConversation ctx cid db = (Thrown NotFoundOrForbidden, db)).
Proof.
  intros Hu N owned. unfold deleteConversation. rewrite Hu. split.
  - intros (m0 & Hm0 & Hc0 & Ho0).
    destruct (List.length (filter _ (byConversation db cid)) =? 0)%nat eqn:L.
    { exfalso. apply length_zero_nil in L.
      assert ((userId m0 =? Users._id user) = false) as F.
      { apply (proj1 (filter_nil_iff _ _) L m0), byConversation_in. now split. }
      apply Z.eqb_neq in F. contradiction. }
    assert (docs (fold_left (fun d message => db_delete (_id message) d)
                            (byConversation db cid) db)
            = filter (fun m => negb (conversationId m =? cid)%string) (docs db)) as D.
    { rewrite deleted_docs. apply filter_ext_in. intros m Hm.
      now rewrite (listed_byConversation db cid m N Hm). }
    do 2 eexists. split; [reflexivity|]. split; [exact D|]. split; [|split].
    + intros m. rewrite D, filter_In, negb_true_iff, String.eqb_neq. reflexivity.
    + unfold byConversation. now rewrite sort_length.
    + rewrite D. unfold byConversation. rewrite sort_length.
      rewrite (filter_length_split (fun m => (conversationId m =? cid)%string) (docs db)).
      lia.
  - intros Hnone.
    destruct (List.length (filter _ (byConversation db cid)) =? 0)%nat eqn:L;
      [reflexivity|].
    exfalso. destruct (filter _ (byConversation db cid)) as [|m l] eqn:F; [discriminate L|].
    assert (In m (filter (fun msg => userId msg =? Users._id user) (byConversation db cid)))
      as Hm by (rewrite F; now left).
    apply filter_In in Hm as [Hm Ho]. apply byConversation_in in Hm as [Hm Hc].
    apply (Hnone m). repeat split; [exact Hm|exact Hc|now apply Z.eqb_eq].
Qed.

Lemma table_unique_ids : unique_ids table.
Proof. unfold unique_ids. simpl. repeat constructor; simpl; intuition discriminate. Qed.

Lemma C8_deleteConversation_witness :
  (exists db',
      deleteConversation (asUser bob) "c1" table = (Ok {| deleted := 3 |}, db')
      /\ docs db' = [message 1 10 1 User "what is this" "c2" (Some "What Discussion")])
  /\ deleteConversation (asUser bob) "c2" table = (Thrown NotFoundOrForbidden, table).
Proof.
  pose proof (C8_deleteConversation (asUser bob) bob "c1" table eq_refl table_unique_ids)
    as [H1 _].
  pose proof (C8_deleteConversation (asUser bob) bob "c2" table eq_refl table_unique_ids)
    as [_ H2].
  split.
  - destruct H1 as (n & db' & E & D & _ & Hn & _).
    + exists (message 4 40 2 User "make it fast" "c1" None). simpl. tauto.
    + exists db'. split; [|exact D]. rewrite E, Hn. reflexivity.
  - apply H2. intros m (Hm & Hc & Ho). simpl in Hm.
    repeat (destruct Hm as [<-|Hm]; [discriminate|]). exact Hm.
Defined.
End DeleteClaims.

Section RegenerateClaims.
Import JS Store Spec Examples.

(** For an authenticated caller, regenerateConversationTitle throws
    "No user messages found in conversation" exactly when the
    conversation holds no user message; otherwise the new title is the
    one [generateConversationTitle] gives for the conversation's
    earliest user message, and every message of the conversation then
    carries it. *)
Lemma regenerate_outcome (ctx : Ctx) (user : Users.Doc) (cid : string) (db : Db) :
  getCurrentUser ctx = Some user ->
  let userMessage m :=
    In m (docs db) /\ conversationId m = cid /\ role m = User in
  (fst (regenerateConversationTitle ctx cid db) = Thrown NoUserMessages
   <-> forall m, ~ userMessage m)
  /\ ((exists m, userMessage m) ->
      exists first newTitle db',
        regenerateConversationTitle ctx cid db = (Ok newTitle, db')
        /\ userMessage first
        /\ (forall m, userMessage m -> _creationTime first <= _creationTime m)
        /\ newTitle = generateConversationTitle ctx (content first)
        /\ map conversationId (docs db') = map conversationId (docs db)
        /\ (forall m, In m (docs db') -> conversationId m = cid ->
                      conversationTitle m = Some newTitle)).
Proof.
  intros Hu userMessage. unfold regenerateConversationTitle. rewrite Hu.
  set (users := filter (fun m => Role_eqb (role m) User) (byConversation db cid)).
  assert (forall m, In m users <-> userMessage m) as Husers.
  { intros m. unfold users, userMessage.
    rewrite filter_In, byConversation_in. destruct (role m); simpl; intuition congruence. }
  assert (StronglySorted (fun a b => index_leb a b = true) users) as Hsorted
    by apply filter_sorted, byConversation_sorted.
  destruct users as [|first rest] eqn:E; simpl.
  - split.
    + split; [|reflexivity]. intros _ m Hm. now apply Husers in Hm.
    + intros (m & Hm). now apply Husers in Hm.
  - split.
    + split; [discriminate|]. intros H. exfalso. apply (H first), Husers. now left.
    + intros _. do 3 eexists. split; [reflexivity|].
      split; [apply Husers; now left|].
      split.
      { intros m Hm. apply Husers in Hm as [<-|Hm]; [lia|].
        apply StronglySorted_inv in Hsorted as [_ F].
        apply index_leb_time. exact (proj1 (Forall_forall _ _) F m Hm). }
      split; [reflexivity|].
      rewrite patched_docs. split.
      * rewrite map_map. apply map_ext. intros m. now destruct (listed _ m).
      * intros m Hm Hc. apply in_map_iff in Hm as (m0 & <- & Hm0).
        destruct (listed (byConversation db cid) m0) eqn:L; [reflexivity|].
        rewrite listed_in in L; [discriminate L|].
        apply byConversation_in. now split.
Qed.

(** C7, at the failing input.  Called as the mutation it is on a
    conversation with a user message, regenerateConversationTitle
    returns "New Conversation" and writes it onto every message of the
    conversation, whatever the earliest user message says: the
    [generateTitle] handler, which gives "Help Discussion" for "help me
    fix a bug", is never reached. *)
Theorem C7_regenerate_gives_fallback (user : Users.Doc) (cid : string) (db : Db)
        (first : ChatMessage) :
  firstUserMessage db cid = Some first ->
  exists db',
    regenerateConversationTitle (mutationCtx (Some user)) cid db
    = (Ok "New Conversation", db')
    /\ (forall m, In m (docs db') -> conversationId m = cid ->
                  conversationTitle m = Some "New Conversation")
    /\ generateTitle (titlePrompt (content first)) = titleOf (content first)
    /\ (content first = "help me fix a bug" -> titleOf (content first) = "Help Discussion").
Proof.
  unfold firstUserMessage, regenerateConversationTitle. simpl.
  destruct (filter _ (byConversation db cid)) as [|firstMessage rest]; [discriminate|].
  intros E. injection E as ->. simpl. eexists. split; [reflexivity|].
  split; [|split; [apply generateTitle_prompt|now intros ->]].
  rewrite patched_docs. intros m Hm Hc. apply in_map_iff in Hm as (m0 & <- & Hm0).
  destruct (listed (byConversation db cid) m0) eqn:L; [reflexivity|].
  rewrite listed_in in L; [discriminate L|].
  apply byConversation_in. now split.
Qed.

Lemma C7_regenerate_gives_fallback_witness :
  firstUserMessage table "c1"
  = Some (message 2 20 1 User "help me fix a bug" "c1" (Some "Old title"))
  /\ titleOf "help me fix a bug" = "Help Discussion"
  /\ exists db',
       regenerateConversationTitle (mutationCtx (Some alice)) "c1" table
       = (Ok "New Conversation", db')
       /\ (forall m, In m (docs db') -> conversationId m = "c1" ->
                     conversationTitle m = Some "New Conversation").
Proof.
  split; [reflexivity|].
  destruct (C7_regenerate_gives_fallback alice "c1" table _ eq_refl)
    as (db' & E & T & _ & H).
  split; [exact (H eq_refl)|]. exists db'. now split.
Defined.

Example regenerate_without_user_message :
  regenerateConversationTitle (asUser alice) "nowhere" table = (Thrown NoUserMessages, table).
Proof. reflexivity. Qed.
End RegenerateClaims.

Section ConversationsMapFacts.
Import JS Store Spec.

Lemma map_has_in (k : string) (m : ConversationsMap) :
  map_has k m = true <-> In k (map fst m).
Proof.
  induction m as [|[k' c] m IH]; simpl; [split; [discriminate|tauto]|].
  rewrite orb_true_iff, IH, String.eqb_eq. intuition congruence.
Qed.

Lemma map_bump_keys (k : string) (m : ConversationsMap) :
  map fst (map_bump k m) = map fst m.
Proof.
  induction m as [|[k' c] m IH]; simpl; [reflexivity|].
  destruct (k =? k')%string; simpl; [reflexivity|now rewrite IH].
Qed.

Lemma map_bump_in (k : string) (m : ConversationsMap) (k' : string) (c' : Conversation.t) :
  NoDup (map fst m) ->
  In (k', c') (map_bump k m) ->
  (k' <> k /\ In (k', c') m)
  \/ (k' = k /\ exists c, In (k, c) m /\ c' = bump c).
Proof.
  induction m as [|[k0 c0] m IH]; simpl; [intros _ []|].
  intros N. apply NoDup_cons_iff in N as [N0 N].
  destruct (String.eqb_spec k k0) as [<-|Hk]; simpl.
  - intros [E|H].
    + injection E as <- <-. right. split; [reflexivity|]. exists c0. auto.
    + left. split; [|now right].
      intros ->. apply N0. apply (in_map fst) in H. exact H.
  - intros [E|H].
    + injection E as <- <-. left. split; [congruence|now left].
    + destruct (IH N H) as [[Hne Hin]|[-> (c & Hin & ->)]].
      * left. split; [exact Hne|now right].
      * right. split; [reflexivity|]. exists c. split; [now right|reflexivity].
Qed.

Lemma find_snoc {A} (f : A -> bool) (l : list A) (x : A) :
  find f (l ++ [x]) =
  match find f l with
  | Some y => Some y
  | None => if f x then Some x else None
  end.
Proof.
  induction l as [|a l IH]; simpl; [reflexivity|]. destruct (f a); [reflexivity|exact IH].
Qed.

Lemma filter_snoc_length {A} (f : A -> bool) (l : list A) (x : A) :
  Z.of_nat (List.length (filter f (l ++ [x])))
  = Z.of_nat (List.length (filter f l)) + (if f x then 1 else 0).
Proof.
  rewrite filter_app, List.length_app. simpl. destruct (f x); simpl; lia.
Qed.

Lemma gathered_nil : gathered [] [].
Proof.
  split; [constructor|]. split.
  - intros cid. simpl. split; [intros []|intros (m & [] & _)].
  - intros cid c [].
Qed.

(** One iteration of the loop keeps the summary table up to date. *)
Lemma gathered_visit (seen : list ChatMessage) (entries : ConversationsMap)
      (x : ChatMessage) :
  gathered seen entries -> gathered (seen ++ [x]) (visit entries x).
Proof.
  intros (N & K & V). unfold visit.
  set (cid := conversationId x).
  set (fresh := {| Conversation.conversationId := cid;
                   Conversation.lastMessage := x;
                   Conversation.messageCount := 0;
                   Conversation.createdAt := _creationTime x |}).
  assert (forall k, (exists m, In m (seen ++ [x]) /\ conversationId m = k)
                    <-> (exists m, In m seen /\ conversationId m = k) \/ k = cid) as Hseen.
  { intros k. split.
    - intros (m & Hm & Hc). apply in_app_or in Hm as [Hm|[<-|[]]]; [left; eauto|now right].
    - intros [(m & Hm & Hc)| ->].
      + exists m. split; [apply in_or_app; now left|exact Hc].
      + exists x. split; [apply in_or_app; right; now left|reflexivity]. }
  destruct (map_has cid entries) eqn:Has; simpl.
  - (* the conversation is known: its count is bumped *)
    apply map_has_in in Has.
    split; [now rewrite map_bump_keys|]. split.
    + intros k. rewrite map_bump_keys, Hseen, K. split; [tauto|].
      intros [H| ->]; [exact H|]. now apply K.
    + intros k c' Hin.
      destruct (map_bump_in _ _ _ _ N Hin) as [[Hne Hc]|[-> (c & Hc & ->)]].
      * destruct (V k c' Hc) as (V1 & V2 & V3 & V4).
        assert (sameConversation k x = false) as Hx
          by (apply String.eqb_neq; fold cid; congruence).
        rewrite find_snoc, V2, filter_snoc_length, Hx. repeat split; auto. lia.
      * destruct (V cid c Hc) as (V1 & V2 & V3 & V4).
        assert (sameConversation cid x = true) as Hx by apply String.eqb_refl.
        rewrite find_snoc, V2, filter_snoc_length, Hx. simpl. repeat split; auto. lia.
  - (* a new conversation: appended with count 1 *)
    assert (~ In cid (map fst entries)) as Hnew
      by (rewrite <- map_has_in; congruence).
    assert (NoDup (map fst (map_set cid fresh entries))) as N'.
    { unfold map_set. rewrite map_app. simpl.
      apply NoDup_app; [exact N|repeat constructor; tauto|].
      intros k Hk [<-|[]]. contradiction. }
    split; [now rewrite map_bump_keys|]. split.
    + intros k. rewrite map_bump_keys, Hseen, <- K.
      unfold map_set. rewrite map_app, in_app_iff. simpl. intuition congruence.
    + intros k c' Hin.
      destruct (map_bump_in _ _ _ _ N' Hin) as [[Hne Hc]|[-> (c & Hc & ->)]];
        unfold map_set in Hc; apply in_app_or in Hc as [Hc|[Hc|[]]].
      * destruct (V k c' Hc) as (V1 & V2 & V3 & V4).
        assert (sameConversation k x = false) as Hx
          by (apply String.eqb_neq; fold cid; congruence).
        rewrite find_snoc, V2, filter_snoc_length, Hx. repeat split; auto. lia.
      * injection Hc as -> _. contradiction.
      * exfalso. apply Hnew. apply (in_map fst) in Hc. exact Hc.
      * injection Hc as <-.
        assert (sameConversation cid x = true) as Hx by apply String.eqb_refl.
        assert (forall m, In m seen -> sameConversation cid m = false) as Hold.
        { intros m Hm. apply String.eqb_neq. intros Hc. apply Hnew, K. eauto. }
        rewrite find_snoc, (proj2 (find_none_iff _ _) Hold), filter_snoc_length, Hx.
        rewrite (proj2 (filter_nil_iff _ _) Hold). simpl. repeat split.
Qed.

Lemma gathered_fold (l seen : list ChatMessage) (entries : ConversationsMap) :
  gathered seen entries -> gathered (seen ++ l) (fold_left visit l entries).
Proof.
  revert seen entries; induction l as [|x l IH]; intros seen entries G; simpl.
  - now rewrite app_nil_r.
  - replace (seen ++ x :: l)%list with ((seen ++ [x]) ++ l)%list
      by (rewrite <- app_assoc; reflexivity).
    apply IH, gathered_visit, G.
Qed.

Lemma gathered_scan (l : list ChatMessage) : gathered l (fold_left visit l []).
Proof. exact (gathered_fold l [] [] gathered_nil). Qed.
End ConversationsMapFacts.

Section OrderFacts.
Import Spec.
Context {A : Type}.

Lemma sorted_app (R : A -> A -> Prop) (l1 l2 : list A) :
  StronglySorted R l1 -> StronglySorted R l2 ->
  (forall x y, In x l1 -> In y l2 -> R x y) ->
  StronglySorted R (l1 ++ l2).
Proof.
  induction l1 as [|a l1 IH]; simpl; intros S1 S2 H; [exact S2|].
  apply StronglySorted_inv in S1 as [S1 F].
  constructor; [apply IH; auto|].
  apply Forall_app. split; [exact F|].
  apply Forall_forall. intros y Hy. apply H; auto.
Qed.

Lemma sorted_rev (R : A -> A -> Prop) (l : list A) :
  StronglySorted R l -> StronglySorted (fun a b => R b a) (rev l).
Proof.
  induction 1 as [|a l S IH F]; simpl; [constructor|].
  apply sorted_app; [exact IH|repeat constructor|].
  intros x y Hx [<-|[]]. apply in_rev in Hx.
  exact (proj1 (Forall_forall _ _) F x Hx).
Qed.

(** In a sorted list the first element satisfying [f] stands before
    every other element satisfying [f]. *)
Lemma find_first_sorted (R : A -> A -> Prop) (f : A -> bool) (l : list A) (x : A) :
  StronglySorted R l -> find f l = Some x ->
  forall y, In y l -> f y = true -> y = x \/ R x y.
Proof.
  induction 1 as [|a l S IH F]; simpl; [discriminate|].
  destruct (f a) eqn:E.
  - intros H; injection H as <-. intros y [<-|Hy] _; [now left|right].
    exact (proj1 (Forall_forall _ _) F y Hy).
  - intros H y [<-|Hy] Hf; [congruence|]. now apply IH.
Qed.

Lemma precedes_or (a b : A) (l : list A) :
  In a l -> In b l -> a <> b -> precedes a b l \/ precedes b a l.
Proof.
  intros Ha Hb Hab.
  apply in_split in Ha as (l1 & l2 & ->).
  apply in_app_or in Hb as [Hb|[Hb|Hb]]; [|congruence|].
  - right. apply in_split in Hb as (l3 & l4 & ->).
    exists l3, l4, l2. now rewrite <- app_assoc.
  - left. apply in_split in Hb as (l3 & l4 & ->).
    now exists l1, l3, l4.
Qed.

Lemma sorted_precedes (R : A -> A -> Prop) (a b : A) (l : list A) :
  StronglySorted R l -> precedes a b l -> R a b.
Proof.
  intros S (l1 & l2 & l3 & ->).
  induction l1 as [|x l1 IH]; simpl in S; apply StronglySorted_inv in S as [S F].
  - apply (proj1 (Forall_forall _ _) F). apply in_or_app. right. now left.
  - exact (IH S).
Qed.
End OrderFacts.

Section ListConversationsClaims.
Import JS Store Spec Examples.

Lemma by_createdAt_desc_iff (a b : Conversation.t) :
  by_createdAt_desc a b = true <-> Conversation.createdAt b <= Conversation.createdAt a.
Proof. unfold by_createdAt_desc. rewrite Z.leb_le. lia. Qed.

Lemma scan_sorted (db : Db) (uid : Z) :
  StronglySorted (fun a b => index_leb b a = true) (order_desc (byUser db uid)).
Proof.
  apply sorted_rev. apply sort_sorted; [apply index_leb_total|apply index_leb_trans].
Qed.

Lemma scan_in (db : Db) (uid : Z) (m : ChatMessage) :
  In m (order_desc (byUser db uid)) <-> In m (docs db) /\ userId m = uid.
Proof. unfold order_desc. rewrite <- in_rev. apply byUser_in. Qed.

Lemma scan_count (db : Db) (uid : Z) (f : ChatMessage -> bool) :
  List.length (filter f (order_desc (byUser db uid)))
  = List.length (filter (fun m => (userId m =? uid) && f m) (docs db)).
Proof.
  rewrite <- filter_twice. apply filter_length_perm.
  unfold order_desc, byUser. rewrite <- Permutation_rev. apply sort_perm.
Qed.

(** C9: for an authenticated caller, getUserConversations returns one
    summary per conversation id occurring among the caller's messages;
    a summary whose last message is newer stands before one whose last
    message is older; lastMessage is a most recent message of the
    caller under that id, messageCount is the number of the caller's
    messages under that id, and createdAt is the creation time of
    lastMessage. *)
Theorem C9_getUserConversations (ctx : Ctx) (user : Users.Doc) (db : Db) :
  getCurrentUser ctx = Some user ->
  let mine m := In m (docs db) /\ userId m = Users._id user in
  let result := getUserConversations ctx db in
  NoDup (map Conversation.conversationId result)
  /\ (forall cid,
        In cid (map Conversation.conversationId result)
        <-> exists m, mine m /\ conversationId m = cid)
  /\ (forall a b,
        In a result -> In b result ->
        _creationTime (Conversation.lastMessage b)
          < _creationTime (Conversation.lastMessage a) ->
        precedes a b result)
  /\ (forall c,
        In c result ->
        let cid := Conversation.conversationId c in
        (mine (Conversation.lastMessage c)
         /\ conversationId (Conversation.lastMessage c) = cid)
        /\ (forall m, mine m -> conversationId m = cid ->
                      _creationTime m <= _creationTime (Conversation.lastMessage c))
        /\ Conversation.messageCount c
           = Z.of_nat (List.length
                         (filter (fun m => (userId m =? Users._id user)
                                           && (conversationId m =? cid)%string)
                                 (docs db)))
        /\ Conversation.createdAt c = _creationTime (Conversation.lastMessage c)).
Proof.
  intros Hu mine result. subst result. unfold getUserConversations. rewrite Hu.
  set (uid := Users._id user) in *.
  set (scan := order_desc (byUser db uid)).
  destruct (gathered_scan scan) as (N & K & V).
  set (entries := fold_left visit scan []) in *.
  set (result := sort by_createdAt_desc (map snd entries)).
  assert (forall c, In c result <-> exists cid, In (cid, c) entries) as Hres.
  { intros c. unfold result. rewrite sort_in, in_map_iff. split.
    - intros ([k c'] & <- & H). now exists k.
    - intros (k & H). now exists (k, c). }
  assert (map Conversation.conversationId (map snd entries) = map fst entries) as Hkeys.
  { rewrite map_map. apply map_ext_in. intros [k c] H. simpl. now apply V. }
  assert (Permutation (map Conversation.conversationId result) (map fst entries)) as Hperm.
  { rewrite <- Hkeys. apply Permutation_map, sort_perm. }
  assert (forall c, In c result ->
            Conversation.createdAt c = _creationTime (Conversation.lastMessage c))
    as Hcreated.
  { intros c Hc. apply Hres in Hc as (k & Hc). now apply V in Hc. }
  split; [|split; [|split]].
  - apply (Permutation_NoDup (Permutation_sym Hperm) N).
  - intros cid. split.
    + intros H. apply (Permutation_in _ Hperm), K in H as (m & Hm & Hc).
      exists m. split; [now apply scan_in|exact Hc].
    + intros (m & Hm & Hc). apply (Permutation_in _ (Permutation_sym Hperm)), K.
      exists m. split; [now apply scan_in|exact Hc].
  - intros a b Ha Hb Hlt.
    assert (StronglySorted (fun x y => by_createdAt_desc x y = true) result) as S.
    { apply sort_sorted.
      - intros x y. rewrite !by_createdAt_desc_iff. lia.
      - intros x y z. rewrite !by_createdAt_desc_iff. lia. }
    assert (a <> b) as Hab by (intros ->; lia).
    destruct (precedes_or a b result Ha Hb Hab) as [H|H]; [exact H|].
    exfalso. apply (sorted_precedes _ _ _ _ S), by_createdAt_desc_iff in H.
    rewrite (Hcreated a Ha), (Hcreated b Hb) in H. lia.
  - intros c Hc.
    pose proof (Hcreated c Hc) as Hcr.
    apply Hres in Hc as (k & Hc). destruct (V k c Hc) as (V1 & V2 & V3 & _).
    rewrite V1.
    pose proof (find_some _ _ V2) as [Hin Hsame]. apply String.eqb_eq in Hsame.
    split; [split; [now apply scan_in|exact Hsame]|].
    split; [|split; [|exact Hcr]].
    + intros m Hm Hk.
      assert (In m scan) as Hscan by now apply scan_in.
      destruct (find_first_sorted _ _ _ _ (scan_sorted db uid) V2 m Hscan) as [->|H].
      * now apply String.eqb_eq.
      * lia.
      * now apply index_leb_time.
    + rewrite V3. unfold scan. now rewrite scan_count.
Qed.

Lemma C9_getUserConversations_witness :
  map Conversation.conversationId (getUserConversations (asUser alice) table) = ["c1"; "c2"]
  /\ NoDup (map Conversation.conversationId (getUserConversations (asUser alice) table))
  /\ map Conversation.messageCount (getUserConversations (asUser alice) table) = [2; 1].
Proof.
  split; [reflexivity|]. split; [|reflexivity].
  exact (proj1 (C9_getUserConversations (asUser alice) alice table eq_refl)).
Defined.
End ListConversationsClaims.

(* ================================================================== *)
(** * The earlier revision of the completion client *)
(* ================================================================== *)

Section EarlierRevision.
Import JS Chain Spec Examples.

(** The earlier [extractTokenUsage] reads the direct usage object first,
    and never looks at [response_metadata.usage_metadata]. *)
Example earlier_direct_usage_first :
  ChainEarlier.extractTokenUsage bothUsages = Normal (usage 1 2 3).
Proof. reflexivity. Qed.

Example earlier_scenario_is_zero :
  ChainEarlier.extractTokenUsage scenarioResponse = Normal (usage 0 0 0).
Proof. reflexivity. Qed.

(** The earlier [generateCompletionWithTokens] makes one outbound call
    when the credential is configured, and none otherwise. *)
Lemma earlier_single_call (env : Env) (provider : Provider) (input : string) (w : World) :
  calls (snd (ChainEarlier.generateCompletionWithTokens env provider input w))
  = (calls w ++
     if env_missing (OPENAI_API_KEY env) then []
     else [CompletionsCreate (env_or (AI_MODEL env) "gpt-4.1-nano-2025-04-14") input])%list.
Proof.
  unfold ChainEarlier.generateCompletionWithTokens, bind, Date_now.
  rewrite try_catch_world by apply catchBlock_world.
  unfold ChainEarlier.tryBlock, ChainEarlier.index0, bind, await, prop, throw, ret, Date_now.
  destruct (env_missing (OPENAI_API_KEY env)); [simpl; now rewrite app_nil_r|].
  destruct (respond provider (calls w) _) as [latency [v|e]]; [|reflexivity].
  destruct v as [| |b|n| |s|items|fields]; try reflexivity.
  all: match goal with
       | |- context [get ?v "choices"] =>
           destruct (get v "choices") as [| |b'|n'| |s'|items'|fields']
       end; reflexivity.
Qed.
End EarlierRevision.

(* ================================================================== *)
(** * Further properties of the endpoints and the completion client *)
(* ================================================================== *)

Section EndpointEdges.
Import JS Chain Route Spec Examples.

Variable env : Env.
Variable provider : Provider.

(** X1: a request whose input is absent, not a string or the empty
    string is answered 400 with the body [{ error: "Missing input" }]
    by the synchronous endpoint, without any outbound call and without
    reading the clock. *)
Theorem sync_rejects_missing_input (reqBody : jsval) (w : World) :
  (forall s, opt_get reqBody "input" = JStr s -> s = "") ->
  POST env provider reqBody w
  = (Normal {| status := 400; body := JObj [("error", JStr "Missing input")] |}, w).
Proof.
  intros H. unfold POST.
  assert (stringField reqBody "input" = "") as ->; [|reflexivity].
  unfold stringField. destruct (opt_get reqBody "input"); try reflexivity.
  now apply H.
Qed.

(** X2: the streaming endpoint answers such a request 400 with the
    plain text "Missing input", without any outbound call. *)
Theorem stream_rejects_missing_input (reqBody : jsval) (w : World) :
  (forall s, opt_get reqBody "input" = JStr s -> s = "") ->
  POST_stream provider reqBody w = (Normal (Plain 400 "Missing input"), w).
Proof.
  intros H. unfold POST_stream.
  assert (stringField reqBody "input" = "") as ->; [|reflexivity].
  unfold stringField. destruct (opt_get reqBody "input"); try reflexivity.
  now apply H.
Qed.

(** X3: the synchronous handler never throws: whatever the request body,
    the environment and the provider's behaviour, it returns a response,
    whose status is 400 exactly when the input is missing and otherwise
    200 or 500. *)
Theorem sync_always_responds (reqBody : jsval) (w : World) :
  exists resp w',
    POST env provider reqBody w = (Normal resp, w')
    /\ (status resp = 400 <-> stringField reqBody "input" = "")
    /\ (status resp = 400 \/ status resp = 200 \/ status resp = 500).
Proof.
  destruct (String.eqb_spec (stringField reqBody "input") "") as [E|E].
  - unfold POST. rewrite E. simpl. do 2 eexists. split; [reflexivity|]. simpl. tauto.
  - rewrite (POST_run env provider reqBody w E).
    destruct (generateCompletionWithTokens env provider _ w) as [[r|e] w1];
      do 2 eexists; (split; [reflexivity|]); simpl;
      (split; [split; [discriminate|contradiction]|auto]).
Qed.
End EndpointEdges.

Section EndpointEdgeWitnesses.
Import JS Chain Route Spec Examples.

Lemma sync_rejects_missing_input_witness :
  POST configured (answering scenarioResponse) (JObj [("input", JNum 5)]) start
  = (Normal {| status := 400; body := JObj [("error", JStr "Missing input")] |}, start).
Proof.
  apply sync_rejects_missing_input. intros s H. discriminate H.
Defined.

Lemma stream_rejects_missing_input_witness :
  POST_stream (answering scenarioResponse) JNull start
  = (Normal (Plain 400 "Missing input"), start).
Proof.
  apply stream_rejects_missing_input. intros s H. discriminate H.
Defined.
End EndpointEdgeWitnesses.

Section ClientPaths.
Import JS Chain Spec Examples.

Variable env : Env.
Variable provider : Provider.

(** The result built from the model's answer [v] and the usage [u]. *)
Lemma tryBlock_answered (startTime : Z) (input : string) (w : World)
      (latency : Z) (v : jsval) :
  env_missing (OPENAI_API_KEY env) = false ->
  respond provider (calls w) (ModelInvoke input) = (latency, Fulfilled v) ->
  nullish v = false ->
  nullish (get v "content") = false ->
  let w1 := {| now := now w + latency; calls := (calls w ++ [ModelInvoke input])%list |} in
  let result (u : Usage.t) :=
    {| Result.text := get v "content";
       Result.tokensUsed := Usage.totalTokens u;
       Result.inputTokens := Usage.inputTokens u;
       Result.outputTokens := Usage.outputTokens u;
       Result.responseTime := now w + latency - startTime;
       Result.finishReason :=
         js_or (opt_get (get v "response_metadata") "finish_reason") (JStr "stop") |} in
  tryBlock env provider startTime input w =
    if is_zero (Usage.totalTokens (extractTokenUsage v))
    then try_catch
           (fallbackTokens <- fallbackCall env provider input ;; ret (result fallbackTokens))
           (fun _ => ret (result (extractTokenUsage v))) w1
    else (Normal (result (extractTokenUsage v)), w1).
Proof.
  intros K R Nv Nc. cbv zeta.
  unfold tryBlock, bind, await, Date_now, throw, ret. rewrite K, R.
  set (w1 := {| now := now w + latency; calls := (calls w ++ [ModelInvoke input])%list |}).
  assert (prop v "content" w1 = (Normal (get v "content"), w1)) as ->
    by (destruct v; try discriminate Nv; reflexivity).
  assert (forall k, prop (get v "content") k w1
                    = (Normal (get (get v "content") k), w1)) as ->
    by (intros k; destruct (get v "content"); try discriminate Nc; reflexivity).
  simpl now.
  destruct (is_zero (Usage.totalTokens (extractTokenUsage v))); reflexivity.
Qed.

Lemma generate_of_tryBlock (input : string) (w w1 : World) (r : Result.t) :
  tryBlock env provider (now w) input w = (Normal r, w1) ->
  generateCompletionWithTokens env provider input w = (Normal r, w1).
Proof.
  intros H. unfold generateCompletionWithTokens, bind, Date_now, try_catch. now rewrite H.
Qed.
End ClientPaths.

Section ClientPathClaims.
Import JS Chain Spec Examples.

Lemma is_zero_eq (v : jsval) : is_zero v = true -> v = JNum 0.
Proof.
  destruct v; try discriminate. simpl. intros H. apply Z.eqb_eq in H. now subst.
Qed.

(** The run in which the model's answer carries a token count. *)
Lemma generate_answered (env : Env) (provider : Provider) (input : string) (w : World)
      (latency : Z) (v : jsval) :
  env_missing (OPENAI_API_KEY env) = false ->
  respond provider (calls w) (ModelInvoke input) = (latency, Fulfilled v) ->
  nullish v = false ->
  nullish (get v "content") = false ->
  is_zero (Usage.totalTokens (extractTokenUsage v)) = false ->
  generateCompletionWithTokens env provider input w =
    (Normal {| Result.text := get v "content";
               Result.tokensUsed := Usage.totalTokens (extractTokenUsage v);
               Result.inputTokens := Usage.inputTokens (extractTokenUsage v);
               Result.outputTokens := Usage.outputTokens (extractTokenUsage v);
               Result.responseTime := latency;
               Result.finishReason :=
                 js_or (opt_get (get v "response_metadata") "finish_reason")
                       (JStr "stop") |},
     {| now := now w + latency; calls := (calls w ++ [ModelInvoke input])%list |}).
Proof.
  intros K R Nv Nc Z0. apply generate_of_tryBlock.
  rewrite (tryBlock_answered env provider (now w) input w latency v K R Nv Nc), Z0.
  do 3 f_equal. lia.
Qed.

(** X4: when the credential is configured and the chat model answers with
    a text and a non-zero total token count, the client makes exactly
    that one call and returns the text, the extracted counts, the
    answer's finish reason ("stop" when it gives none) and the latency of
    the call as responseTime. *)
Theorem client_success (env : Env) (provider : Provider) (input : string) (w : World)
        (latency : Z) (v : jsval) :
  env_missing (OPENAI_API_KEY env) = false ->
  respond provider (calls w) (ModelInvoke input) = (latency, Fulfilled v) ->
  nullish v = false ->
  nullish (get v "content") = false ->
  is_zero (Usage.totalTokens (extractTokenUsage v)) = false ->
  generateCompletionWithTokens env provider input w =
    (Normal {| Result.text := get v "content";
               Result.tokensUsed := Usage.totalTokens (extractTokenUsage v);
               Result.inputTokens := Usage.inputTokens (extractTokenUsage v);
               Result.outputTokens := Usage.outputTokens (extractTokenUsage v);
               Result.responseTime := latency;
               Result.finishReason :=
                 js_or (opt_get (get v "response_metadata") "finish_reason")
                       (JStr "stop") |},
     {| now := now w + latency; calls := (calls w ++ [ModelInvoke input])%list |}).
Proof. apply generate_answered. Qed.

Lemma client_success_witness :
  generateCompletionWithTokens configured (answering scenarioResponse) "hi" start =
    (Normal {| Result.text := JStr "Hello!";
               Result.tokensUsed := JNum 46;
               Result.inputTokens := JNum 12;
               Result.outputTokens := JNum 34;
               Result.responseTime := 120;
               Result.finishReason := JStr "stop" |},
     {| now := 1120; calls := [ModelInvoke "hi"] |}).
Proof.
  exact (client_success configured (answering scenarioResponse) "hi" start 120
           scenarioResponse eq_refl eq_refl eq_refl eq_refl eq_refl).
Defined.

(** X5: when the model's answer carries no total token count and the
    direct call succeeds, the result keeps the text and finish reason of
    the model's answer, takes its three counts from the direct call's
    [usage] object, and reports as responseTime the latency of the first
    call only, although the clock has advanced by both latencies. *)
Theorem client_fallback_counts (env : Env) (provider : Provider) (input : string)
        (w : World) (latency latency2 : Z) (v v2 : jsval) :
  let direct := CompletionsCreate (env_or (AI_MODEL env) "gpt-5-2025-08-07") input in
  env_missing (OPENAI_API_KEY env) = false ->
  respond provider (calls w) (ModelInvoke input) = (latency, Fulfilled v) ->
  nullish v = false ->
  nullish (get v "content") = false ->
  is_zero (Usage.totalTokens (extractTokenUsage v)) = true ->
  respond provider (calls w ++ [ModelInvoke input]) direct = (latency2, Fulfilled v2) ->
  nullish v2 = false ->
  generateCompletionWithTokens env provider input w =
    (Normal {| Result.text := get v "content";
               Result.tokensUsed := js_or (opt_get (get v2 "usage") "total_tokens") (JNum 0);
               Result.inputTokens := js_or (opt_get (get v2 "usage") "prompt_tokens") (JNum 0);
               Result.outputTokens :=
                 js_or (opt_get (get v2 "usage") "completion_tokens") (JNum 0);
               Result.responseTime := latency;
               Result.finishReason :=
                 js_or (opt_get (get v "response_metadata") "finish_reason")
                       (JStr "stop") |},
     {| now := now w + latency + latency2;
        calls := (calls w ++ [ModelInvoke input; direct])%list |}).
Proof.
  intros direct K R Nv Nc Z0 R2 Nv2. apply generate_of_tryBlock.
  rewrite (tryBlock_answered env provider (now w) input w latency v K R Nv Nc), Z0.
  unfold try_catch, fallbackCall, bind, await, ret. simpl calls. fold direct. rewrite R2.
  assert (forall w2, prop v2 "usage" w2 = (Normal (get v2 "usage"), w2)) as ->
    by (intros w2; destruct v2; try discriminate Nv2; reflexivity).
  simpl. rewrite <- app_assoc. simpl. do 3 f_equal. lia.
Qed.

Lemma client_fallback_counts_witness :
  generateCompletionWithTokens configured
    (answeringThen bareResponse (Fulfilled completionWithUsage)) "hi" start =
    (Normal {| Result.text := JStr "Hello!";
               Result.tokensUsed := JNum 12;
               Result.inputTokens := JNum 7;
               Result.outputTokens := JNum 5;
               Result.responseTime := 120;
               Result.finishReason := JStr "stop" |},
     {| now := 1200;
        calls := [ModelInvoke "hi"; CompletionsCreate "gpt-5-2025-08-07" "hi"] |}).
Proof.
  exact (client_fallback_counts configured
           (answeringThen bareResponse (Fulfilled completionWithUsage)) "hi" start
           120 80 bareResponse completionWithUsage
           eq_refl eq_refl eq_refl eq_refl eq_refl eq_refl eq_refl).
Defined.

(** X6: a failure of the direct call is swallowed: when the model's
    answer carries no total token count and the direct call is rejected
    or resolves to nothing, the client still returns the model's text,
    with a total of 0 and the latency of the first call as responseTime,
    and its finishReason is the answer's, not "error". *)
Theorem client_fallback_failure (env : Env) (provider : Provider) (input : string)
        (w : World) (latency latency2 : Z) (v : jsval) (outcome2 : Outcome) :
  let direct := CompletionsCreate (env_or (AI_MODEL env) "gpt-5-2025-08-07") input in
  env_missing (OPENAI_API_KEY env) = false ->
  respond provider (calls w) (ModelInvoke input) = (latency, Fulfilled v) ->
  nullish v = false ->
  nullish (get v "content") = false ->
  is_zero (Usage.totalTokens (extractTokenUsage v)) = true ->
  respond provider (calls w ++ [ModelInvoke input]) direct = (latency2, outcome2) ->
  (forall v2, outcome2 = Fulfilled v2 -> nullish v2 = true) ->
  exists r,
    generateCompletionWithTokens env provider input w =
      (Normal r, {| now := now w + latency + latency2;
                    calls := (calls w ++ [ModelInvoke input; direct])%list |})
    /\ Result.text r = get v "content"
    /\ Result.tokensUsed r = JNum 0
    /\ Result.responseTime r = latency
    /\ Result.finishReason r
       = js_or (opt_get (get v "response_metadata") "finish_reason") (JStr "stop").
Proof.
  intros direct K R Nv Nc Z0 R2 Hout.
  eexists. split.
  - apply generate_of_tryBlock.
    rewrite (tryBlock_answered env provider (now w) input w latency v K R Nv Nc), Z0.
    unfold try_catch, fallbackCall, bind, await, ret. simpl calls. fold direct. rewrite R2.
    destruct outcome2 as [v2|e2].
    + specialize (Hout v2 eq_refl).
      destruct v2; try discriminate Hout; simpl; rewrite <- app_assoc; reflexivity.
    + simpl. rewrite <- app_assoc. reflexivity.
  - simpl. repeat split; [now apply is_zero_eq|lia].
Qed.

Lemma client_fallback_failure_witness :
  exists r w',
    generateCompletionWithTokens configured
      (answeringThen bareResponse (Failed unauthorized)) "hi" start = (Normal r, w')
    /\ Result.text r = JStr "Hello!"
    /\ Result.tokensUsed r = JNum 0
    /\ Result.finishReason r = JStr "stop".
Proof.
  destruct (client_fallback_failure configured
              (answeringThen bareResponse (Failed unauthorized)) "hi" start
              120 80 bareResponse (Failed unauthorized)
              eq_refl eq_refl eq_refl eq_refl eq_refl eq_refl)
    as (r & E & T & U & _ & F).
  - intros v2 H. discriminate H.
  - exists r. eexists. split; [exact E|]. repeat split; assumption.
Defined.

(** X8: an answer of the chat model that is missing altogether or has no
    content is not reported as a success: the client returns an error
    result (finishReason "error", all counts 0, the latency as
    responseTime) after that single call. *)
Theorem client_rejects_empty_answer (env : Env) (provider : Provider) (input : string)
        (w : World) (latency : Z) (v : jsval) :
  env_missing (OPENAI_API_KEY env) = false ->
  respond provider (calls w) (ModelInvoke input) = (latency, Fulfilled v) ->
  nullish v = true \/ nullish (get v "content") = true ->
  exists r class,
    generateCompletionWithTokens env provider input w =
      (Normal r, {| now := now w + latency;
                    calls := (calls w ++ [ModelInvoke input])%list |})
    /\ reportsError r class latency.
Proof.
  intros K R Hbad.
  assert (exists message,
            tryBlock env provider (now w) input w
            = (Throw (TypeError message),
               {| now := now w + latency; calls := (calls w ++ [ModelInvoke input])%list |}))
    as (message & E).
  { unfold tryBlock, bind, await, prop, throw, ret, Date_now. rewrite K, R.
    destruct v as [| |b|n| |s|items|fields];
      try (eexists; reflexivity);
      destruct Hbad as [Hbad|Hbad]; try discriminate Hbad;
      try (simpl in Hbad; discriminate Hbad).
    destruct (get (JObj fields) "content"); try discriminate Hbad; eexists; reflexivity. }
  unfold generateCompletionWithTokens, bind, Date_now, try_catch. rewrite E.
  rewrite (catchBlock_ok _ _ _ (TypeError_message_ok message)).
  do 2 eexists. split; [reflexivity|].
  unfold reportsError. simpl. repeat split. lia.
Qed.

Lemma client_rejects_empty_answer_witness :
  exists r class w',
    generateCompletionWithTokens configured (answering emptyReply) "hi" start
      = (Normal r, w')
    /\ reportsError r class 120.
Proof.
  destruct (client_rejects_empty_answer configured (answering emptyReply) "hi" start
              120 emptyReply eq_refl eq_refl) as (r & class & E & H).
  - right. reflexivity.
  - exists r, class. eexists. split; [exact E|exact H].
Defined.
End ClientPathClaims.

Section ExtractionRange.
Import JS Chain Spec.

Lemma js_or_zero (v : jsval) : zero_or_truthy (js_or v (JNum 0)).
Proof.
  unfold zero_or_truthy, js_or. destruct (truthy v) eqn:E; [now right|now left].
Qed.

(** X7: every count that extractTokenUsage returns is either the number
    0 or a truthy value read from the response; it is never undefined,
    null, NaN or an empty string. *)
Theorem extracted_counts_defined (response : jsval) :
  zero_or_truthy (Usage.inputTokens (extractTokenUsage response))
  /\ zero_or_truthy (Usage.outputTokens (extractTokenUsage response))
  /\ zero_or_truthy (Usage.totalTokens (extractTokenUsage response)).
Proof.
  rewrite extractTokenUsage_chain.
  unfold first_some, nestedUsageMetadata, nestedTokenUsage, legacyTokenUsage,
    directUsage, tokenKeyScan, fromTokenUsage.
  repeat match goal with
         | |- context [if truthy ?v then _ else _] => destruct (truthy v)
         end;
    try (simpl; repeat split; apply js_or_zero).
  destruct (find tokenKey (entries response)) as [[k d]|]; simpl;
    repeat split; try apply js_or_zero; now left.
Qed.
End ExtractionRange.

(* ================================================================== *)
(** * Further properties of the conversation store *)
(* ================================================================== *)

Section StoreRuns.
Import JS Store Spec.

Lemma saveMessage_run (ctx : Ctx) (user : Users.Doc) (args : Args.saveMessage) (db : Db) :
  getCurrentUser ctx = Some user ->
  saveMessage ctx args db = (Ok (nextId db), appended (newMessage ctx user args db) db).
Proof.
  intros H. unfold saveMessage, appended, newMessage, titleFor. rewrite H.
  destruct (Args.role args); reflexivity.
Qed.

Lemma saveMessage_unauthenticated (ctx : Ctx) (args : Args.saveMessage) (db : Db) :
  getCurrentUser ctx = None -> saveMessage ctx args db = (Thrown Unauthenticated, db).
Proof. intros H. unfold saveMessage. now rewrite H. Qed.

Lemma delete_fold (l : list ChatMessage) (db : Db) :
  fold_left (fun d message => db_delete (_id message) d) l db
  = {| docs := filter (fun m => negb (listed l m)) (docs db);
       nextId := nextId db; clock := clock db |}.
Proof.
  revert db; induction l as [|x l IH]; intros db; simpl.
  - rewrite filter_all. now destruct db.
  - rewrite IH. simpl. f_equal. rewrite filter_twice.
    apply filter_ext. intros m. now rewrite negb_orb.
Qed.

Lemma patch_fold (title : string) (l : list ChatMessage) (db : Db) :
  fold_left (fun d message => db_patch_title (_id message) title d) l db
  = {| docs := map (fun m => if listed l m then set_title title m else m) (docs db);
       nextId := nextId db; clock := clock db |}.
Proof.
  revert db; induction l as [|x l IH]; intros db; simpl.
  - rewrite map_id. now destruct db.
  - rewrite IH. simpl. f_equal. rewrite map_map. apply map_ext. intros m.
    destruct (_id m =? _id x) eqn:E; simpl.
    + unfold listed. now destruct (existsb _ l).
    + reflexivity.
Qed.

Lemma owner_check (db : Db) (cid : string) (uid : Z) :
  Nat.eqb (List.length (filter (fun msg => userId msg =? uid) (byConversation db cid))) 0
  = negb (owns uid cid db).
Proof.
  unfold owns. destruct (existsb _ (docs db)) eqn:E; simpl.
  - apply existsb_exists in E as (m & Hm & Hc).
    apply andb_true_iff in Hc as [Hc Hu]. apply String.eqb_eq in Hc.
    apply not_true_is_false. intros L. apply length_zero_nil in L.
    assert ((userId m =? uid) = false) as F.
    { apply (proj1 (filter_nil_iff _ _) L m), byConversation_in. now split. }
    congruence.
  - apply length_zero_nil, filter_nil_iff. intros m Hm.
    apply byConversation_in in Hm as [Hm Hc].
    assert ((conversationId m =? cid)%string && (userId m =? uid) = false) as F.
    { destruct ((conversationId m =? cid)%string && (userId m =? uid)) eqn:G;
        [|reflexivity].
      rewrite <- E. symmetry. apply existsb_exists. now exists m. }
    apply String.eqb_eq in Hc. now rewrite Hc in F.
Qed.

(** What [deleteConversation] does for an authenticated caller. *)
Lemma deleteConversation_run (ctx : Ctx) (user : Users.Doc) (cid : string) (db : Db) :
  getCurrentUser ctx = Some user ->
  unique_ids db ->
  deleteConversation ctx cid db =
    if owns (Users._id user) cid db
    then (Ok {| deleted := Z.of_nat (List.length (byConversation db cid)) |},
          without cid db)
    else (Thrown NotFoundOrForbidden, db).
Proof.
  intros Hu N. unfold deleteConversation. rewrite Hu, owner_check.
  destruct (owns (Users._id user) cid db); simpl; [|reflexivity].
  rewrite delete_fold. unfold without. do 2 f_equal.
  apply filter_ext_in. intros m Hm. now rewrite (listed_byConversation db cid m N Hm).
Qed.

Lemma deleteConversation_not_owned (ctx : Ctx) (user : Users.Doc) (cid : string) (db : Db) :
  getCurrentUser ctx = Some user ->
  owns (Users._id user) cid db = false ->
  deleteConversation ctx cid db = (Thrown NotFoundOrForbidden, db).
Proof.
  intros Hu O. unfold deleteConversation. now rewrite Hu, owner_check, O.
Qed.

(** What [regenerateConversationTitle] does for an authenticated caller. *)
Lemma regenerate_run (ctx : Ctx) (user : Users.Doc) (cid : string) (db : Db) :
  getCurrentUser ctx = Some user ->
  unique_ids db ->
  regenerateConversationTitle ctx cid db =
    match firstUserMessage db cid with
    | None => (Thrown NoUserMessages, db)
    | Some firstMessage =>
        let newTitle := generateConversationTitle ctx (content firstMessage) in
        (Ok newTitle, retitled cid newTitle db)
    end.
Proof.
  intros Hu N. unfold regenerateConversationTitle, firstUserMessage. rewrite Hu.
  destruct (filter _ (byConversation db cid)) as [|firstMessage rest]; simpl; [reflexivity|].
  rewrite patch_fold. unfold retitled. do 2 f_equal.
  apply map_ext_in. intros m Hm. now rewrite (listed_byConversation db cid m N Hm).
Qed.

Lemma unauthenticated_mutations (ctx : Ctx) (cid : string) (db : Db) :
  getCurrentUser ctx = None ->
  deleteConversation ctx cid db = (Thrown Unauthenticated, db)
  /\ regenerateConversationTitle ctx cid db = (Thrown Unauthenticated, db).
Proof.
  intros H. unfold deleteConversation, regenerateConversationTitle. now rewrite H.
Qed.

Lemma set_title_conversation (t : string) (m : ChatMessage) :
  conversationId (set_title t m) = conversationId m.
Proof. reflexivity. Qed.

Lemma retitled_ids (cid t : string) (db : Db) :
  map _id (docs (retitled cid t db)) = map _id (docs db).
Proof.
  simpl. rewrite map_map. apply map_ext. intros m.
  now destruct (conversationId m =? cid)%string.
Qed.

(** Dropping documents keeps their keys distinct. *)
Lemma filter_keeps_unique {K D : Type} (key : D -> K) (keep : D -> bool) (xs : list D)
      (U : NoDup (map key xs)) :
  NoDup (map key (filter keep xs)).
Proof.
  revert U. induction xs as [|d xs IH]; simpl; intros U; [exact U|].
  apply NoDup_cons_iff in U as [Fresh U].
  destruct (keep d); simpl; [|now apply IH].
  constructor; [|now apply IH].
  intros H. apply Fresh. apply in_map_iff in H as (x & E & Hx).
  apply filter_In in Hx as [Hx _]. apply in_map_iff. eauto.
Qed.
End StoreRuns.

Section StoreInvariants.
Import JS Store Spec Examples.

Lemma sorted_weaken {A} (R R' : A -> A -> Prop) (l : list A) :
  (forall a b, R a b -> R' a b) -> StronglySorted R l -> StronglySorted R' l.
Proof.
  intros H. induction 1 as [|a l S IH F]; constructor; [exact IH|].
  eapply Forall_impl; [|exact F]. intros b. apply H.
Qed.

(** X9: getConversationMessages returns exactly the stored messages that
    carry the conversation id, whichever user wrote them, each once per
    stored copy, in ascending order of creation time. *)
Theorem conversation_messages_listing (db : Db) (cid : string) :
  (forall m, In m (getConversationMessages db cid)
             <-> In m (docs db) /\ conversationId m = cid)
  /\ Permutation (getConversationMessages db cid)
                 (filter (fun m => (conversationId m =? cid)%string) (docs db))
  /\ StronglySorted (fun a b => _creationTime a <= _creationTime b)
                    (getConversationMessages db cid).
Proof.
  unfold getConversationMessages. split; [intros m; apply byConversation_in|].
  split; [apply sort_perm|].
  apply (sorted_weaken (fun a b => index_leb a b = true)); [apply index_leb_time|].
  apply byConversation_sorted.
Qed.

End StoreInvariants.

Section TitleInvariant.
Import JS Store Spec Examples.

Lemma has_title_iff (m : ChatMessage) :
  has_title m = false <->
  conversationTitle m = None \/ conversationTitle m = Some EmptyString.
Proof.
  unfold has_title. destruct (conversationTitle m) as [t|]; [|tauto].
  destruct (String.eqb_spec t ""); simpl; split; intros H; try subst; auto;
    try discriminate; destruct H as [H|H]; congruence.
Qed.

(** The title of a later message agrees with every earlier one. *)
Lemma titleFor_agrees (ctx : Ctx) (args : Args.saveMessage) (db : Db) (m : ChatMessage) :
  one_title db ->
  In m (docs db) -> conversationId m = Args.conversationId args ->
  conversationTitle m = titleFor ctx args db.
Proof.
  intros [U E] Hm Hc.
  assert (titleFor ctx args db = existingTitle (byConversation db (Args.conversationId args)))
    as ->.
  { unfold titleFor. destruct (Args.role args); [|reflexivity].
    destruct (List.length _ =? 0)%nat eqn:L; [|reflexivity].
    exfalso. exact (proj1 (byConversation_empty _ _) L m Hm Hc). }
  unfold existingTitle.
  destruct (find has_title _) as [m'|] eqn:F.
  - apply find_some in F as [Hm' _]. apply byConversation_in in Hm' as [Hm' Hc'].
    apply U; congruence.
  - assert (has_title m = false) as H
      by (apply (find_none _ _ F), byConversation_in; now split).
    apply has_title_iff in H as [H|H]; [exact H|]. now apply E in H.
Qed.

Lemma titleFor_nonempty (ctx : Ctx) (args : Args.saveMessage) (db : Db) :
  titleFor ctx args db <> Some EmptyString.
Proof.
  assert (existingTitle (byConversation db (Args.conversationId args)) <> Some "") as X.
  { unfold existingTitle. destruct (find has_title _) as [m'|] eqn:F; [|discriminate].
    apply find_some in F as [_ F]. intros H.
    assert (has_title m' = false) as G by (apply has_title_iff; now right). congruence. }
  unfold titleFor. destruct (Args.role args); [|exact X].
  destruct (List.length _ =? 0)%nat; [|exact X].
  intros H. injection H as H. now apply (proj2 (title_bounds ctx (Args.content args))).
Qed.

Lemma one_title_appended (ctx : Ctx) (user : Users.Doc) (args : Args.saveMessage) (db : Db) :
  one_title db -> one_title (appended (newMessage ctx user args db) db).
Proof.
  intros I. pose proof I as [U E]. split.
  - simpl. intros m1 m2 H1 H2 Hc.
    apply in_app_or in H1 as [H1|[<-|[]]]; apply in_app_or in H2 as [H2|[<-|[]]].
    + now apply U.
    + simpl in *. now apply titleFor_agrees.
    + simpl in *. symmetry. now apply titleFor_agrees.
    + reflexivity.
  - simpl. intros m Hm. apply in_app_or in Hm as [Hm|[<-|[]]]; [now apply E|].
    apply titleFor_nonempty.
Qed.

Lemma one_title_without (cid : string) (db : Db) : one_title db -> one_title (without cid db).
Proof.
  intros [U E]. split.
  - simpl. intros m1 m2 H1 H2. apply filter_In in H1 as [H1 _].
    apply filter_In in H2 as [H2 _]. now apply U.
  - simpl. intros m Hm. apply filter_In in Hm as [Hm _]. now apply E.
Qed.

Lemma one_title_retitled (cid t : string) (db : Db) :
  t <> "" -> one_title db -> one_title (retitled cid t db).
Proof.
  intros Ht [U E]. split.
  - simpl. intros m1 m2 H1 H2.
    apply in_map_iff in H1 as (a & <- & Ha). apply in_map_iff in H2 as (b & <- & Hb).
    destruct (String.eqb_spec (conversationId a) cid) as [Ea|Ea];
      destruct (String.eqb_spec (conversationId b) cid) as [Eb|Eb]; simpl; intros Hc;
      try congruence.
    now apply U.
  - simpl. intros m Hm. apply in_map_iff in Hm as (a & <- & Ha).
    destruct (conversationId a =? cid)%string; [simpl; congruence|now apply E].
Qed.

(** X11: in a table with unique ids, the three mutations keep the rule
    that all messages of a conversation carry the same title (or all
    none) and that no stored title is empty, whether they succeed or
    throw. *)
Theorem mutations_keep_one_title (ctx : Ctx) (db : Db) :
  unique_ids db ->
  one_title db ->
  (forall args, one_title (snd (saveMessage ctx args db)))
  /\ (forall cid, one_title (snd (deleteConversation ctx cid db)))
  /\ (forall cid, one_title (snd (regenerateConversationTitle ctx cid db))).
Proof.
  intros N I. destruct (getCurrentUser ctx) as [user|] eqn:Hu.
  - split; [|split].
    + intros args. rewrite (saveMessage_run ctx user args db Hu). simpl.
      now apply one_title_appended.
    + intros cid. rewrite (deleteConversation_run ctx user cid db Hu N).
      destruct (owns _ cid db); simpl; [now apply one_title_without|exact I].
    + intros cid. rewrite (regenerate_run ctx user cid db Hu N).
      destruct (firstUserMessage db cid) as [first|]; simpl; [|exact I].
      apply one_title_retitled; [|exact I]. apply title_bounds.
  - split; [|split].
    + intros args. now rewrite (saveMessage_unauthenticated ctx args db Hu).
    + intros cid. now rewrite (proj1 (unauthenticated_mutations ctx cid db Hu)).
    + intros cid. now rewrite (proj2 (unauthenticated_mutations ctx cid db Hu)).
Qed.

Lemma tidy_unique_ids : unique_ids tidy.
Proof. unfold unique_ids. simpl. repeat constructor; simpl; intuition discriminate. Qed.

Lemma tidy_one_title : one_title tidy.
Proof.
  split.
  - simpl. intros m1 m2 H1 H2.
    repeat (destruct H1 as [<-|H1]); try contradiction;
      repeat (destruct H2 as [<-|H2]); try contradiction;
      simpl; intros Hc; try reflexivity; discriminate Hc.
  - simpl. intros m Hm. repeat (destruct Hm as [<-|Hm]); try contradiction; discriminate.
Qed.

Lemma mutations_keep_one_title_witness :
  one_title (snd (saveMessage (asUser bob) (userSays "and now?" "c1") tidy))
  /\ one_title (snd (regenerateConversationTitle (asUser alice) "c1" tidy)).
Proof.
  destruct (mutations_keep_one_title (asUser bob) tidy tidy_unique_ids tidy_one_title)
    as (S & _ & _).
  destruct (mutations_keep_one_title (asUser alice) tidy tidy_unique_ids tidy_one_title)
    as (_ & _ & R).
  split; [apply S|apply R].
Defined.
End TitleInvariant.

Section SortCommutes.
Import Store.
Context {A : Type} (leb : A -> A -> bool).

Lemma insert_map (f : A -> A) (x : A) (l : list A) :
  (forall a b, leb (f a) (f b) = leb a b) ->
  insert leb (f x) (map f l) = map f (insert leb x l).
Proof.
  intros H. induction l as [|y l IH]; simpl; [reflexivity|].
  rewrite H. destruct (leb x y); simpl; [reflexivity|now rewrite IH].
Qed.

Lemma sort_map (f : A -> A) (l : list A) :
  (forall a b, leb (f a) (f b) = leb a b) ->
  sort leb (map f l) = map f (sort leb l).
Proof.
  intros H. induction l as [|x l IH]; simpl; [reflexivity|].
  now rewrite IH, insert_map.
Qed.

Lemma insert_snoc (a x : A) (l : list A) :
  leb a x = true -> insert leb a (l ++ [x]) = (insert leb a l ++ [x])%list.
Proof.
  intros H. induction l as [|y l IH]; simpl; [now rewrite H|].
  destruct (leb a y); simpl; [reflexivity|now rewrite IH].
Qed.

(** An element that may stand after all others is sorted to the end. *)
Lemma sort_snoc (x : A) (l : list A) :
  (forall a, In a l -> leb a x = true) ->
  sort leb (l ++ [x]) = (sort leb l ++ [x])%list.
Proof.
  induction l as [|a l IH]; simpl; intros H; [reflexivity|].
  rewrite IH by (intros b Hb; apply H; now right).
  apply insert_snoc, H. now left.
Qed.
End SortCommutes.

Section StoreLookups.
Import JS Store Spec.

Lemma byConversation_appended (m : ChatMessage) (db : Db) (c : string) :
  clock_ahead db -> _creationTime m = clock db ->
  byConversation (appended m db) c =
    if (conversationId m =? c)%string
    then (byConversation db c ++ [m])%list
    else byConversation db c.
Proof.
  intros Hc Ht. unfold byConversation. simpl. rewrite filter_app. simpl.
  destruct (conversationId m =? c)%string; [|now rewrite app_nil_r].
  apply sort_snoc. intros a Ha. apply filter_In in Ha as [Ha _].
  apply index_leb_iff. left. apply Hc in Ha. lia.
Qed.

Lemma byConversation_without (cid : string) (db : Db) (c : string) :
  byConversation (without cid db) c =
    if (c =? cid)%string then [] else byConversation db c.
Proof.
  unfold byConversation. simpl. rewrite filter_twice.
  destruct (String.eqb_spec c cid) as [->|E].
  - rewrite (proj2 (filter_nil_iff _ _)); [reflexivity|].
    intros m _. now destruct (conversationId m =? cid)%string.
  - f_equal. apply filter_ext. intros m.
    destruct (String.eqb_spec (conversationId m) c) as [->|E'].
    + destruct (String.eqb_spec c cid); [contradiction|reflexivity].
    + apply andb_false_r.
Qed.

Lemma byConversation_retitled (cid t : string) (db : Db) (c : string) :
  byConversation (retitled cid t db) c =
    if (c =? cid)%string
    then map (set_title t) (byConversation db cid)
    else byConversation db c.
Proof.
  unfold byConversation. simpl. rewrite filter_map_swap.
  assert (forall m, conversationId (if (conversationId m =? cid)%string
                                    then set_title t m else m) = conversationId m) as Hc
    by (intros m; now destruct (conversationId m =? cid)%string).
  rewrite (filter_ext _ (fun m => (conversationId m =? c)%string))
    by (intros m; now rewrite Hc).
  destruct (String.eqb_spec c cid) as [->|E].
  - rewrite (map_ext_in _ (set_title t)).
    + apply sort_map. reflexivity.
    + intros m Hm. apply filter_In in Hm as [_ Hm]. now rewrite Hm.
  - rewrite (map_ext_in _ (fun m => m)).
    + now rewrite map_id.
    + intros m Hm. apply filter_In in Hm as [_ Hm]. apply String.eqb_eq in Hm.
      destruct (String.eqb_spec (conversationId m) cid); [congruence|reflexivity].
Qed.

Lemma owns_without (uid : Z) (cid : string) (db : Db) : owns uid cid (without cid db) = false.
Proof.
  unfold owns. apply not_true_is_false. intros H.
  apply existsb_exists in H as (m & Hm & Hc). simpl in Hm.
  apply filter_In in Hm as [_ Hm]. apply andb_true_iff in Hc as [Hc _].
  rewrite Hc in Hm. discriminate Hm.
Qed.

Lemma firstUserMessage_retitled (cid t : string) (db : Db) :
  firstUserMessage (retitled cid t db) cid
  = option_map (set_title t) (firstUserMessage db cid).
Proof.
  unfold firstUserMessage. rewrite byConversation_retitled, String.eqb_refl.
  rewrite filter_map_swap. simpl.
  now destruct (filter _ (byConversation db cid)).
Qed.

Lemma retitled_twice (cid t : string) (db : Db) :
  retitled cid t (retitled cid t db) = retitled cid t db.
Proof.
  unfold retitled. simpl. f_equal. rewrite map_map. apply map_ext. intros m.
  destruct (conversationId m =? cid)%string eqn:E; simpl; now rewrite E.
Qed.
End StoreLookups.

Section StoreCompositions.
Import JS Store Spec Examples.

(** X12: when a user message opens a conversation (no stored message
    carries its id) and a second message of either role, from any
    authenticated user, follows under the same id, both stored messages
    carry the same title: the one derived from the first message, which
    is non-empty and at most 50 characters long. *)
Theorem second_message_copies_title (ctx ctx2 : Ctx) (user user2 : Users.Doc)
        (args1 args2 : Args.saveMessage) (db : Db) :
  getCurrentUser ctx = Some user ->
  getCurrentUser ctx2 = Some user2 ->
  Args.role args1 = User ->
  (forall m, In m (docs db) -> conversationId m <> Args.conversationId args1) ->
  Args.conversationId args2 = Args.conversationId args1 ->
  let title := generateConversationTitle ctx (Args.content args1) in
  exists id1 db1 id2 db2 m1 m2,
    saveMessage ctx args1 db = (Ok id1, db1)
    /\ saveMessage ctx2 args2 db1 = (Ok id2, db2)
    /\ docs db2 = (docs db ++ [m1; m2])%list
    /\ content m1 = Args.content args1
    /\ content m2 = Args.content args2
    /\ conversationTitle m1 = Some title
    /\ conversationTitle m2 = Some title
    /\ title <> ""
    /\ (String.length title <= 50)%nat.
Proof.
  intros Hu Hu2 Hr Hnew Hc title.
  set (m1 := newMessage ctx user args1 db).
  set (db1 := appended m1 db).
  set (m2 := newMessage ctx2 user2 args2 db1).
  assert (conversationTitle m1 = Some title) as T1.
  { simpl. unfold titleFor. rewrite Hr.
    now rewrite (proj2 (byConversation_empty db _) Hnew). }
  assert (byConversation db1 (Args.conversationId args1) = [m1]) as B.
  { unfold byConversation, db1. simpl. rewrite filter_app. simpl.
    rewrite String.eqb_refl.
    rewrite (proj2 (filter_nil_iff _ _)); [reflexivity|].
    intros m Hm. apply String.eqb_neq. now apply Hnew. }
  assert (has_title m1 = true) as H1.
  { unfold has_title. rewrite T1. apply negb_true_iff, String.eqb_neq.
    apply title_bounds. }
  assert (conversationTitle m2 = Some title) as T2.
  { simpl. unfold titleFor. rewrite Hc, B. simpl.
    unfold existingTitle. simpl. rewrite H1.
    destruct (Args.role args2); exact T1. }
  exists (nextId db), db1, (nextId db1), (appended m2 db1), m1, m2.
  split; [apply saveMessage_run, Hu|].
  split; [apply saveMessage_run, Hu2|].
  split; [simpl; now rewrite <- app_assoc|].
  repeat split; try assumption; apply title_bounds.
Qed.

Lemma second_message_copies_title_witness :
  exists id1 db1 id2 db2 m1 m2,
    saveMessage (asUser alice) (userSays "explain monads" "fresh") table = (Ok id1, db1)
    /\ saveMessage (asUser bob) (userSays "what about code" "fresh") db1 = (Ok id2, db2)
    /\ docs db2 = (docs table ++ [m1; m2])%list
    /\ conversationTitle m1 = Some "New Conversation"
    /\ conversationTitle m2 = Some "New Conversation".
Proof.
  destruct (second_message_copies_title (asUser alice) (asUser bob) alice bob
              (userSays "explain monads" "fresh") (userSays "what about code" "fresh")
              table eq_refl eq_refl eq_refl)
    as (id1 & db1 & id2 & db2 & m1 & m2 & E1 & E2 & D & _ & _ & T1 & T2 & _).
  - intros m Hm Hc. simpl in Hm.
    repeat (destruct Hm as [<-|Hm]; [discriminate Hc|]). exact Hm.
  - reflexivity.
  - exists id1, db1, id2, db2, m1, m2. repeat split; assumption.
Defined.

(** X13: with the store's clock ahead of every stored message, a saved
    message is listed last by getConversationMessages for its
    conversation id, after the messages listed before, and the listings
    of all other conversation ids are unchanged. *)
Theorem saved_message_is_listed (ctx : Ctx) (user : Users.Doc)
        (args : Args.saveMessage) (db : Db) :
  getCurrentUser ctx = Some user ->
  clock_ahead db ->
  exists id db' stored,
    saveMessage ctx args db = (Ok id, db')
    /\ _id stored = id
    /\ userId stored = Users._id user
    /\ role stored = Args.role args
    /\ content stored = Args.content args
    /\ getConversationMessages db' (Args.conversationId args)
       = (getConversationMessages db (Args.conversationId args) ++ [stored])%list
    /\ (forall c, c <> Args.conversationId args ->
                  getConversationMessages db' c = getConversationMessages db c).
Proof.
  intros Hu Hc.
  exists (nextId db), (appended (newMessage ctx user args db) db), (newMessage ctx user args db).
  split; [apply saveMessage_run, Hu|]. do 4 (split; [reflexivity|]).
  unfold getConversationMessages. split.
  - rewrite (byConversation_appended (newMessage ctx user args db) db _ Hc eq_refl). simpl.
    now rewrite String.eqb_refl.
  - intros c Hne. rewrite (byConversation_appended (newMessage ctx user args db) db _ Hc eq_refl). simpl.
    destruct (String.eqb_spec (Args.conversationId args) c); [congruence|reflexivity].
Qed.

Lemma table_clock_ahead : clock_ahead table.
Proof.
  intros m Hm. simpl in Hm. repeat (destruct Hm as [<-|Hm]; [simpl; lia|]). destruct Hm.
Qed.

Lemma saved_message_is_listed_witness :
  exists id db' stored,
    saveMessage (asUser alice) (userSays "thanks" "c1") table = (Ok id, db')
    /\ content stored = "thanks"
    /\ map content (getConversationMessages db' "c1")
       = ["help me fix a bug"; "Sure."; "make it fast"; "thanks"].
Proof.
  destruct (saved_message_is_listed (asUser alice) alice (userSays "thanks" "c1") table
              eq_refl table_clock_ahead)
    as (id & db' & stored & E & _ & _ & _ & C & L & _).
  exists id, db', stored. split; [exact E|]. split; [exact C|].
  simpl in L. rewrite L. simpl. now rewrite C.
Defined.

(** X14: after a successful deleteConversation in a table with unique
    ids, getConversationMessages lists nothing under that id and lists
    every other conversation as before, and deleting the same id again
    throws "Conversation not found or access denied" without changing
    the table. *)
Theorem deleted_conversation_is_gone (ctx : Ctx) (user : Users.Doc) (cid : string) (db : Db)
        (n : Z) (db' : Db) :
  getCurrentUser ctx = Some user ->
  unique_ids db ->
  deleteConversation ctx cid db = (Ok {| deleted := n |}, db') ->
  getConversationMessages db' cid = []
  /\ (forall c, c <> cid -> getConversationMessages db' c = getConversationMessages db c)
  /\ 0 < n
  /\ deleteConversation ctx cid db' = (Thrown NotFoundOrForbidden, db').
Proof.
  intros Hu N. rewrite (deleteConversation_run ctx user cid db Hu N).
  destruct (owns (Users._id user) cid db) eqn:O; [|discriminate].
  intros H. injection H as <- <-. unfold getConversationMessages.
  split; [now rewrite byConversation_without, String.eqb_refl|].
  split.
  { intros c Hne. rewrite byConversation_without.
    destruct (String.eqb_spec c cid); [contradiction|reflexivity]. }
  split.
  { apply existsb_exists in O as (m & Hm & Hc). apply andb_true_iff in Hc as [Hc _].
    apply String.eqb_eq in Hc.
    assert (In m (byConversation db cid)) as Hin by (apply byConversation_in; now split).
    destruct (byConversation db cid); [contradiction|simpl; lia]. }
  apply (deleteConversation_not_owned ctx user cid _ Hu), owns_without.
Qed.

Lemma deleted_conversation_is_gone_witness :
  exists db',
    deleteConversation (asUser bob) "c1" table = (Ok {| deleted := 3 |}, db')
    /\ getConversationMessages db' "c1" = []
    /\ deleteConversation (asUser bob) "c1" db' = (Thrown NotFoundOrForbidden, db').
Proof.
  eexists. split; [reflexivity|].
  destruct (deleted_conversation_is_gone (asUser bob) bob "c1" table 3 _ eq_refl
              table_unique_ids eq_refl) as (G & _ & _ & D).
  split; [exact G|exact D].
Defined.

(** X15: in a table with unique ids, regenerating a conversation's title
    a second time returns the same title and leaves the table as the
    first run left it. *)
Theorem regenerate_is_idempotent (ctx : Ctx) (user : Users.Doc) (cid : string) (db : Db)
        (title : string) (db' : Db) :
  getCurrentUser ctx = Some user ->
  unique_ids db ->
  regenerateConversationTitle ctx cid db = (Ok title, db') ->
  regenerateConversationTitle ctx cid db' = (Ok title, db').
Proof.
  intros Hu N. rewrite (regenerate_run ctx user cid db Hu N).
  destruct (firstUserMessage db cid) as [first|] eqn:F; [|discriminate].
  intros H. injection H as <- <-.
  assert (unique_ids (retitled cid (generateConversationTitle ctx (content first)) db))
    as N' by (unfold unique_ids; now rewrite retitled_ids).
  rewrite (regenerate_run ctx user cid _ Hu N'), firstUserMessage_retitled, F. simpl.
  now rewrite retitled_twice.
Qed.

Lemma regenerate_is_idempotent_witness :
  exists db',
    regenerateConversationTitle (asUser alice) "c1" table = (Ok "New Conversation", db')
    /\ regenerateConversationTitle (asUser alice) "c1" db' = (Ok "New Conversation", db').
Proof.
  eexists. split; [reflexivity|].
  apply (regenerate_is_idempotent (asUser alice) alice "c1" table _ _ eq_refl
           table_unique_ids eq_refl).
Defined.

(** X16: in a table with unique ids, a successful
    regenerateConversationTitle changes nothing but the title field of
    the messages of that conversation: their number, order, ids, times,
    authors, roles and contents stay, and the listings of all other
    conversations are the same documents as before. *)
Theorem regenerate_changes_titles_only (ctx : Ctx) (user : Users.Doc) (cid : string)
        (db : Db) (title : string) (db' : Db) :
  getCurrentUser ctx = Some user ->
  unique_ids db ->
  regenerateConversationTitle ctx cid db = (Ok title, db') ->
  map (fun m => (_id m, _creationTime m, userId m, role m, content m, conversationId m))
      (docs db')
  = map (fun m => (_id m, _creationTime m, userId m, role m, content m, conversationId m))
        (docs db)
  /\ (forall m, In m (docs db) -> conversationId m <> cid -> In m (docs db'))
  /\ (forall c, c <> cid -> getConversationMessages db' c = getConversationMessages db c)
  /\ getConversationMessages db' cid = map (set_title title) (getConversationMessages db cid)
  /\ nextId db' = nextId db.
Proof.
  intros Hu N. rewrite (regenerate_run ctx user cid db Hu N).
  destruct (firstUserMessage db cid) as [first|]; [|discriminate].
  intros H. injection H as <- <-. unfold getConversationMessages.
  split; [|split; [|split; [|split]]].
  - simpl. rewrite map_map. apply map_ext. intros m.
    now destruct (conversationId m =? cid)%string.
  - intros m Hm Hne. simpl. apply in_map_iff. exists m. split; [|exact Hm].
    destruct (String.eqb_spec (conversationId m) cid); [contradiction|reflexivity].
  - intros c Hne. rewrite byConversation_retitled.
    destruct (String.eqb_spec c cid); [contradiction|reflexivity].
  - now rewrite byConversation_retitled, String.eqb_refl.
  - reflexivity.
Qed.

Lemma regenerate_changes_titles_only_witness :
  exists db',
    regenerateConversationTitle (asUser alice) "c1" table = (Ok "New Conversation", db')
    /\ map content (docs db') = map content (docs table)
    /\ getConversationMessages db' "c2" = getConversationMessages table "c2".
Proof.
  eexists. split; [reflexivity|].
  destruct (regenerate_changes_titles_only (asUser alice) alice "c1" table _ _ eq_refl
              table_unique_ids eq_refl) as (_ & _ & O & _).
  split; [reflexivity|]. apply O. discriminate.
Defined.
End StoreCompositions.


Section Summaries.
Import JS Store Spec.

Lemma sumCounts_perm (l l' : list Conversation.t) :
  Permutation l l' -> sumCounts l = sumCounts l'.
Proof.
  induction 1 as [|x l l' _ IH|x y l|l l' l'' _ IH1 _ IH2]; simpl; lia.
Qed.

Lemma sumCounts_app (l l' : list Conversation.t) :
  sumCounts (l ++ l') = sumCounts l + sumCounts l'.
Proof. induction l as [|c l IH]; simpl; lia. Qed.

Lemma sumCounts_bump (k : string) (m : ConversationsMap) :
  map_has k m = true ->
  sumCounts (map snd (map_bump k m)) = sumCounts (map snd m) + 1.
Proof.
  induction m as [|[k' c] m IH]; simpl; [discriminate|].
  destruct (k =? k')%string; simpl; [lia|]. intros H. rewrite (IH H). lia.
Qed.

Lemma sumCounts_visit (m : ConversationsMap) (x : ChatMessage) :
  sumCounts (map snd (visit m x)) = sumCounts (map snd m) + 1.
Proof.
  unfold visit. destruct (map_has (conversationId x) m) eqn:E; simpl.
  - now apply sumCounts_bump.
  - rewrite sumCounts_bump.
    + unfold map_set. rewrite map_app, sumCounts_app. simpl. lia.
    + apply map_has_in. unfold map_set. rewrite map_app. apply in_or_app.
      right. now left.
Qed.

Lemma sumCounts_scan (l : list ChatMessage) (m : ConversationsMap) :
  sumCounts (map snd (fold_left visit l m))
  = sumCounts (map snd m) + Z.of_nat (List.length l).
Proof.
  revert m; induction l as [|x l IH]; intros m; simpl fold_left.
  - simpl. lia.
  - rewrite IH, sumCounts_visit. simpl List.length. lia.
Qed.

(** What the summaries of an authenticated caller look like. *)
Lemma conversation_summaries (ctx : Ctx) (user : Users.Doc) (db : Db) :
  getCurrentUser ctx = Some user ->
  let uid := Users._id user in
  let result := getUserConversations ctx db in
  NoDup (map Conversation.conversationId result)
  /\ (forall cid, In cid (map Conversation.conversationId result)
                  <-> In cid (map conversationId (byUser db uid)))
  /\ StronglySorted
       (fun a b => Conversation.createdAt b <= Conversation.createdAt a) result
  /\ (forall c, In c result ->
        In (Conversation.lastMessage c) (byUser db uid)
        /\ conversationId (Conversation.lastMessage c) = Conversation.conversationId c
        /\ Conversation.createdAt c = _creationTime (Conversation.lastMessage c)
        /\ Conversation.messageCount c
           = Z.of_nat (List.length (filter (sameConversation (Conversation.conversationId c))
                                           (byUser db uid)))
        /\ forall m, In m (byUser db uid) ->
                     conversationId m = Conversation.conversationId c ->
                     _creationTime m <= Conversation.createdAt c)
  /\ sumCounts result = Z.of_nat (List.length (byUser db uid)).
Proof.
  intros Hu uid result. subst result. unfold getUserConversations. rewrite Hu. fold uid.
  set (scan := order_desc (byUser db uid)).
  assert (forall m, In m scan <-> In m (byUser db uid)) as Hscan
    by (intros m; unfold scan, order_desc; now rewrite <- in_rev).
  destruct (gathered_scan scan) as (N & K & V).
  pose proof (sumCounts_scan scan []) as Hsum.
  set (entries := fold_left visit scan []) in *.
  set (result := sort by_createdAt_desc (map snd entries)).
  assert (forall c, In c result <-> exists cid, In (cid, c) entries) as Hres.
  { intros c. unfold result. rewrite sort_in, in_map_iff. split.
    - intros ([k c'] & <- & H). now exists k.
    - intros (k & H). now exists (k, c). }
  assert (map Conversation.conversationId (map snd entries) = map fst entries) as Hkeys.
  { rewrite map_map. apply map_ext_in. intros [k c] H. simpl. now apply V. }
  assert (Permutation (map Conversation.conversationId result) (map fst entries)) as Hperm.
  { rewrite <- Hkeys. apply Permutation_map, sort_perm. }
  split; [apply (Permutation_NoDup (Permutation_sym Hperm) N)|].
  split.
  { intros cid. split.
    - intros H. apply (Permutation_in _ Hperm), K in H as (m & Hm & Hc).
      apply in_map_iff. exists m. split; [exact Hc|now apply Hscan].
    - intros H. apply in_map_iff in H as (m & Hc & Hm).
      apply (Permutation_in _ (Permutation_sym Hperm)), K.
      exists m. split; [now apply Hscan|exact Hc]. }
  split.
  { apply (sorted_weaken (fun x y => by_createdAt_desc x y = true)).
    - intros a b. apply by_createdAt_desc_iff.
    - apply sort_sorted.
      + intros x y. rewrite !by_createdAt_desc_iff. lia.
      + intros x y z. rewrite !by_createdAt_desc_iff. lia. }
  split.
  { intros c Hc. apply Hres in Hc as (k & Hc). destruct (V k c Hc) as (V1 & V2 & V3 & V4).
    rewrite V1. pose proof (find_some _ _ V2) as [Hin Hsame].
    apply String.eqb_eq in Hsame.
    split; [now apply Hscan|]. split; [exact Hsame|]. split; [exact V4|]. split.
    - rewrite V3. f_equal. apply filter_length_perm.
      unfold scan, order_desc. symmetry. apply Permutation_rev.
    - intros m Hm Hk. rewrite V4. apply Hscan in Hm.
      destruct (find_first_sorted _ _ _ _ (scan_sorted db uid) V2 m Hm) as [->|H].
      + now apply String.eqb_eq.
      + lia.
      + now apply index_leb_time. }
  unfold result. rewrite (sumCounts_perm _ _ (sort_perm _ _)), Hsum. simpl.
  unfold scan, order_desc. now rewrite length_rev.
Qed.
End Summaries.

Section StatsAndOrder.
Import JS Store Spec Examples.

Lemma fold_max_spec (l : list Z) (x : Z) :
  let v := fold_left Z.max l x in
  (v = x \/ In v l) /\ x <= v /\ forall y, In y l -> y <= v.
Proof.
  revert x; induction l as [|a l IH]; intros x; simpl.
  - split; [now left|]. split; [lia|tauto].
  - destruct (IH (Z.max x a)) as (H1 & H2 & H3). split; [|split].
    + destruct H1 as [H1|H1]; [|right; now right].
      rewrite H1. destruct (Z.max_spec x a) as [[_ ->]|[_ ->]]; [right|]; now left.
    + lia.
    + intros y [<-|Hy]; [lia|now apply H3].
Qed.

Lemma Math_max_is (l : list Z) (v : Z) :
  In v l -> (forall y, In y l -> y <= v) -> Math_max l = Some v.
Proof.
  destruct l as [|x l]; [intros []|]. intros Hv Hmax. simpl. f_equal.
  destruct (fold_max_spec l x) as (H1 & H2 & H3).
  assert (In (fold_left Z.max l x) (x :: l)) as Hin by (destruct H1 as [->|H1]; simpl; auto).
  apply Hmax in Hin.
  assert (v <= fold_left Z.max l x) by (destruct Hv as [<-|Hv]; [exact H2|now apply H3]).
  lia.
Qed.

Lemma sorted_head_max {A} (f : A -> Z) (h : A) (rest : list A) (c : A) :
  StronglySorted (fun a b => f b <= f a) (h :: rest) -> In c (h :: rest) -> f c <= f h.
Proof.
  intros S [<-|Hc]; [lia|]. apply StronglySorted_inv in S as [_ F].
  exact (proj1 (Forall_forall _ _) F c Hc).
Qed.

(** X17: for an authenticated caller the statistics agree with the
    conversation list: totalConversations is the number of summaries,
    totalMessages is the sum of their message counts (the number of the
    caller's messages), and lastActivity is the createdAt of the first
    summary, or null when there is none. *)
Theorem stats_match_conversations (ctx : Ctx) (user : Users.Doc) (db : Db) :
  getCurrentUser ctx = Some user ->
  let stats := getUserChatStats ctx db in
  let result := getUserConversations ctx db in
  Stats.totalConversations stats = Z.of_nat (List.length result)
  /\ Stats.totalMessages stats = sumCounts result
  /\ Stats.totalMessages stats
     = Z.of_nat (List.length (filter (fun m => userId m =? Users._id user) (docs db)))
  /\ Stats.lastActivity stats = option_map Conversation.createdAt (hd_error result).
Proof.
  intros Hu stats result.
  destruct (conversation_summaries ctx user db Hu) as (N & Cov & S & L & Sum).
  fold result in N, Cov, S, L, Sum.
  subst stats. unfold getUserChatStats. rewrite Hu. simpl.
  set (messages := byUser db (Users._id user)) in *.
  split; [|split; [|split]].
  - rewrite <- (length_map Conversation.conversationId result). f_equal.
    apply Permutation_length, NoDup_Permutation; [apply NoDup_nodup|exact N|].
    intros cid. unfold distinct. rewrite nodup_In. symmetry. apply Cov.
  - now rewrite Sum.
  - unfold messages, byUser. now rewrite sort_length.
  - destruct result as [|h rest] eqn:R.
    + destruct messages as [|m ms] eqn:M; [reflexivity|]. exfalso.
      apply (proj2 (Cov (conversationId m))). simpl. now left.
    + assert (In h (h :: rest)) as Hh by now left.
      destruct (L h Hh) as (Hlast & _ & Hcr & _ & _).
      assert (messages <> []) as Hne by (intros E; rewrite E in Hlast; exact Hlast).
      destruct (Nat.ltb_spec 0 (List.length messages)) as [_|Hlen];
        [|destruct messages; [congruence|simpl in Hlen; lia]].
      simpl. apply Math_max_is.
      * rewrite Hcr. now apply in_map.
      * intros y Hy. apply in_map_iff in Hy as (m & <- & Hm).
        assert (In (conversationId m) (map Conversation.conversationId (h :: rest)))
          as Hc by (apply Cov; now apply in_map).
        apply in_map_iff in Hc as (c & Hc & Hin).
        destruct (L c Hin) as (_ & _ & _ & _ & Hmax).
        specialize (Hmax m Hm (eq_sym Hc)).
        pose proof (sorted_head_max Conversation.createdAt h rest c S Hin). lia.
Qed.

Lemma stats_match_conversations_witness :
  Stats.totalConversations (getUserChatStats (asUser alice) table) = 2
  /\ Stats.totalMessages (getUserChatStats (asUser alice) table)
     = sumCounts (getUserConversations (asUser alice) table)
  /\ Stats.lastActivity (getUserChatStats (asUser alice) table) = Some 30.
Proof.
  destruct (stats_match_conversations (asUser alice) alice table eq_refl)
    as (C & M & _ & A).
  split; [rewrite C; reflexivity|]. split; [exact M|]. rewrite A. reflexivity.
Defined.

Lemma byUser_appended (m : ChatMessage) (db : Db) :
  clock_ahead db -> _creationTime m = clock db ->
  byUser (appended m db) (userId m) = (byUser db (userId m) ++ [m])%list.
Proof.
  intros Hc Ht. unfold byUser. simpl. rewrite filter_app. simpl. rewrite Z.eqb_refl.
  apply sort_snoc. intros a Ha. apply filter_In in Ha as [Ha _].
  apply index_leb_iff. left. apply Hc in Ha. lia.
Qed.

(** X18: with the store's clock ahead of every stored message, the
    conversation a caller has just saved a message to comes first in the
    caller's conversation list; its lastMessage is the saved message,
    its createdAt the time of saving, and its messageCount one more than
    the number of the caller's earlier messages under that id. *)
Theorem newest_conversation_first (ctx : Ctx) (user : Users.Doc)
        (args : Args.saveMessage) (db : Db) :
  getCurrentUser ctx = Some user ->
  clock_ahead db ->
  exists id db' top rest,
    saveMessage ctx args db = (Ok id, db')
    /\ getUserConversations ctx db' = top :: rest
    /\ Conversation.conversationId top = Args.conversationId args
    /\ _id (Conversation.lastMessage top) = id
    /\ content (Conversation.lastMessage top) = Args.content args
    /\ Conversation.createdAt top = clock db
    /\ Conversation.messageCount top
       = 1 + Z.of_nat (List.length
                         (filter (fun m => (userId m =? Users._id user)
                                           && (conversationId m =? Args.conversationId args)%string)
                                 (docs db))).
Proof.
  intros Hu Hclock.
  set (stored := newMessage ctx user args db).
  set (db' := appended stored db).
  set (uid := Users._id user).
  destruct (conversation_summaries ctx user db' Hu) as (N & Cov & S & L & _).
  fold uid in Cov, L.
  assert (byUser db' uid = (byUser db uid ++ [stored])%list) as B
    by exact (byUser_appended stored db Hclock eq_refl).
  rewrite B in Cov, L.
  (* a message of the caller saved at or after the clock is the stored one *)
  assert (forall m, In m (byUser db uid ++ [stored]) ->
                    clock db <= _creationTime m -> m = stored) as Hlatest.
  { intros m Hm Ht. apply in_app_or in Hm as [Hm|[<-|[]]]; [|reflexivity].
    apply byUser_in in Hm as [Hm _]. apply Hclock in Hm. lia. }
  assert (forall c, In c (getUserConversations ctx db') ->
                    clock db <= Conversation.createdAt c ->
                    Conversation.lastMessage c = stored
                    /\ Conversation.conversationId c = Args.conversationId args) as Hstored.
  { intros c Hc Ht. destruct (L c Hc) as (Hlast & Hconv & Hcr & _ & _).
    assert (Conversation.lastMessage c = stored) as E
      by (apply Hlatest; [exact Hlast|lia]).
    split; [exact E|]. rewrite <- Hconv, E. reflexivity. }
  (* the summary of the conversation *)
  assert (In (Args.conversationId args)
             (map Conversation.conversationId (getUserConversations ctx db'))) as Hc.
  { apply Cov. rewrite map_app. apply in_or_app. right. now left. }
  apply in_map_iff in Hc as (c & Hcid & Hc).
  destruct (L c Hc) as (_ & _ & _ & Hcount & Hmax).
  assert (clock db <= Conversation.createdAt c) as Hct.
  { apply (Hmax stored); [apply in_or_app; right; now left|now rewrite Hcid]. }
  destruct (getUserConversations ctx db') as [|top rest] eqn:R; [contradiction|].
  pose proof (sorted_head_max Conversation.createdAt top rest c S Hc) as Hle.
  assert (In top (top :: rest)) as Htop by now left.
  destruct (Hstored top Htop ltac:(lia)) as [Elast Econv].
  destruct (L top Htop) as (_ & _ & Hcr & Hn & _).
  exists (nextId db), db', top, rest.
  split; [apply saveMessage_run, Hu|]. split; [exact R|]. split; [exact Econv|].
  rewrite Elast. split; [reflexivity|]. split; [reflexivity|].
  split; [now rewrite Hcr, Elast|].
  rewrite Hn, Econv, filter_app, List.length_app.
  assert (filter (sameConversation (Args.conversationId args)) [stored] = [stored]) as ->
    by (simpl; unfold sameConversation; simpl; now rewrite String.eqb_refl).
  change (List.length [stored]) with 1%nat.
  unfold byUser. rewrite (filter_length_perm _ _ _ (sort_perm _ _)), filter_twice.
  unfold sameConversation. fold uid. lia.
Qed.

Lemma newest_conversation_first_witness :
  exists id db' top rest,
    saveMessage (asUser alice) (userSays "one more" "c2") table = (Ok id, db')
    /\ getUserConversations (asUser alice) db' = top :: rest
    /\ Conversation.conversationId top = "c2"
    /\ Conversation.messageCount top = 2.
Proof.
  destruct (newest_conversation_first (asUser alice) alice (userSays "one more" "c2") table
              eq_refl table_clock_ahead)
    as (id & db' & top & rest & E & R & C & _ & _ & _ & M).
  exists id, db', top, rest. split; [exact E|]. split; [exact R|]. split; [exact C|].
  rewrite M. reflexivity.
Defined.
End StatsAndOrder.

Section EndToEnd.
Import JS Chain Route Spec Examples.

(** X20: end to end, when the credential is configured and the chat
    model answers the prompt with a text and a non-zero total token
    count, the synchronous endpoint answers 200 with that text, the
    extracted counts, the call's latency as responseTime, the echoed
    conversationId and the time of completion as timestamp, after exactly
    one outbound call. *)
Theorem sync_success_body (env : Env) (provider : Provider) (reqBody : jsval) (w : World)
        (latency : Z) (v : jsval) :
  let conversationId := stringField reqBody "conversationId" in
  let prompt := enhance conversationId (stringField reqBody "input") in
  stringField reqBody "input" <> "" ->
  env_missing (OPENAI_API_KEY env) = false ->
  respond provider (calls w) (ModelInvoke prompt) = (latency, Fulfilled v) ->
  nullish v = false ->
  nullish (get v "content") = false ->
  is_zero (Usage.totalTokens (extractTokenUsage v)) = false ->
  POST env provider reqBody w =
    (Normal {| status := 200;
               body := JObj
                 [ ("text", get v "content");
                   ("conversationId", JStr conversationId);
                   ("timestamp", JNum (now w + latency));
                   ("model", JStr (env_or (AI_MODEL env) "gpt-4.1-nano-2025-04-14"));
                   ("tokensUsed", Usage.totalTokens (extractTokenUsage v));
                   ("inputTokens", Usage.inputTokens (extractTokenUsage v));
                   ("outputTokens", Usage.outputTokens (extractTokenUsage v));
                   ("responseTime", JNum latency);
                   ("finishReason",
                    js_or (opt_get (get v "response_metadata") "finish_reason")
                          (JStr "stop")) ] |},
     {| now := now w + latency; calls := (calls w ++ [ModelInvoke prompt])%list |}).
Proof.
  intros conversationId prompt Hin K R Nv Nc Z0.
  rewrite (POST_run env provider reqBody w Hin). fold conversationId. fold prompt.
  now rewrite (generate_answered env provider prompt w latency v K R Nv Nc Z0).
Qed.

Lemma sync_success_body_witness :
  exists resp,
    POST configured (answering scenarioResponse)
         (JObj [("input", JStr "hi"); ("conversationId", JStr "c1")]) start
      = (Normal resp,
         {| now := 1120; calls := [ModelInvoke ("[Conversation: c1]" ++ LF ++ "hi")] |})
    /\ status resp = 200
    /\ get (body resp) "tokensUsed" = JNum 46
    /\ get (body resp) "responseTime" = JNum 120.
Proof.
  eexists. split.
  - apply (sync_success_body configured (answering scenarioResponse)
             (JObj [("input", JStr "hi"); ("conversationId", JStr "c1")]) start
             120 scenarioResponse); try reflexivity. simpl. discriminate.
  - repeat split.
Defined.
End EndToEnd.
